(** * Options strategy simulator: pricing and scenario-projection engine

    A shallow embedding of the numerical core of the simulator:

    - [IndexTsx]        : the calculator component of [src/pages/Index.tsx];
    - [SavedScenarios]  : the saved-scenarios page (first component of
                          [unnamed/part_001]);
    - [Part001]         : the calculator component of [unnamed/part_001]
                          (stress-test catalog, implied volatilities, ISO dates).

    Conventions of the embedding.

    - A JavaScript [number] is a real number ([R]): rounding, infinities and
      NaN are outside the model.  [Math.log], [Math.sqrt] and [/] are the
      total functions [ln], [sqrt] and [Rdiv] of the standard library.
    - [Math.random()] is an explicit stream of draws [rnd : nat -> R].
    - A [Date] is a civil date; the local time zone is taken to be UTC, so
      that [new Date("YYYY-MM-DD")] is local midnight of that day.
    - React state is one record; a handler maps the state of the render in
      which it was created to the state of the next render.  Inside a handler
      every state variable still has its value of the current render. *)

From Stdlib Require Import Reals Lra Lia ZArith Ascii String.
From stdpp Require Import base strings list gmap pretty.

#[local] Open Scope R_scope.

(** ** JavaScript numbers *)

Module Js.

(** [ToBoolean] on a number: [0] is falsy, everything else is truthy. *)
Definition truthy (x : R) : bool :=
  if Req_dec_T x 0 then false else true.

(** [o || d] where [o] is a property lookup ([undefined] when absent). *)
Definition or_else (o : option R) (d : R) : R :=
  match o with
  | Some v => if truthy v then v else d
  | None => d
  end.

(** [!o] where [o] is an optional numeric property. *)
Definition not_opt (o : option R) : bool :=
  match o with
  | Some v => negb (truthy v)
  | None => true
  end.

(** [ToBoolean] on a string: only the empty string is falsy. *)
Definition truthy_string (s : string) : bool :=
  match s with
  | EmptyString => false
  | String _ _ => true
  end.

(** [s.split(sep)] for a one-character separator. *)
Fixpoint split (sep : ascii) (s : string) : list string :=
  match s with
  | EmptyString => [EmptyString]
  | String c s' =>
      if Ascii.eqb c sep then EmptyString :: split sep s'
      else match split sep s' with
           | hd :: tl => String c hd :: tl
           | [] => [String c EmptyString]
           end
  end.

(** [xs[i]] used as a property key: [undefined] becomes ["undefined"]. *)
Definition index_as_key (xs : list string) (i : nat) : string :=
  default "undefined" (xs !! i).

(** The names of the members that every object inherits from
    [Object.prototype].  An object used as a map is modelled by the finite
    map of its own entries; a property read [obj[key]] with one of these keys
    and no own entry finds the inherited member instead of [undefined], and
    is outside the model. *)
Definition objectPrototypeKeys : list string :=
  ["constructor"; "hasOwnProperty"; "isPrototypeOf"; "propertyIsEnumerable";
   "toLocaleString"; "toString"; "valueOf"; "__proto__";
   "__defineGetter__"; "__defineSetter__"; "__lookupGetter__"; "__lookupSetter__"].

End Js.

(** ** JavaScript dates (civil calendar, UTC) *)

Module JsDate.

(** [getMonth] is zero-based, [getDate] is the day of the month. *)
Record t := mk { getFullYear : Z; getMonth : Z; getDate : Z }.

Definition isLeap (y : Z) : bool :=
  ((y mod 4 =? 0) && negb (y mod 100 =? 0) || (y mod 400 =? 0))%Z.

Definition daysInMonth (y m : Z) : Z :=
  match m with
  | 1 => if isLeap y then 29 else 28
  | 3 | 5 | 8 | 10 => 30
  | _ => 31
  end%Z.

Definition prev_month (y m : Z) : Z * Z :=
  if (m =? 0)%Z then (y - 1, 11)%Z else (y, m - 1)%Z.

Definition next_month (y m : Z) : Z * Z :=
  if (m =? 11)%Z then (y + 1, 0)%Z else (y, m + 1)%Z.

(** Day overflow and underflow of [MakeDay]: a day number outside the month
    moves into the neighbouring months. *)
Fixpoint norm_day (fuel : nat) (y m d : Z) : t :=
  match fuel with
  | O => mk y m d
  | S k =>
      if (d <? 1)%Z then
        let '(y', m') := prev_month y m in
        norm_day k y' m' (d + daysInMonth y' m')%Z
      else if (daysInMonth y m <? d)%Z then
        let '(y', m') := next_month y m in
        norm_day k y' m' (d - daysInMonth y m)%Z
      else mk y m d
  end.

(** [new Date(y, m, d)]: any integer month and day are accepted. *)
Definition make (y m d : Z) : t :=
  norm_day (S (Z.to_nat (Z.abs d))) (y + m / 12)%Z (m mod 12)%Z d.

(** [date.setMonth(m)] keeps the day of the month and renormalises. *)
Definition setMonth (dt : t) (m : Z) : t :=
  make (getFullYear dt) m (getDate dt).

Definition valid (dt : t) : Prop :=
  (0 <= getMonth dt <= 11 /\
   1 <= getDate dt <= daysInMonth (getFullYear dt) (getMonth dt))%Z.

(** Days since 1970-01-01 of a civil date. *)
Definition dayNumber (dt : t) : Z :=
  let m := (getMonth dt + 1)%Z in
  let y := (if (m <=? 2)%Z then getFullYear dt - 1 else getFullYear dt)%Z in
  let era := (y / 400)%Z in
  let yoe := (y - era * 400)%Z in
  let mp := (if (2 <? m)%Z then m - 3 else m + 9)%Z in
  let doy := ((153 * mp + 2) / 5 + getDate dt - 1)%Z in
  let doe := (yoe * 365 + yoe / 4 - yoe / 100 + doy)%Z in
  (era * 146097 + doe - 719468)%Z.

(** [date.getTime()], in milliseconds, of a date at midnight. *)
Definition getTime (dt : t) : Z := (86400000 * dayNumber dt)%Z.

Definition digit (k : Z) : ascii :=
  match k with
  | 0 => "0" | 1 => "1" | 2 => "2" | 3 => "3" | 4 => "4"
  | 5 => "5" | 6 => "6" | 7 => "7" | 8 => "8" | _ => "9"
  end%Z%char.

Definition pad2 (n : Z) : string :=
  String (digit (n / 10 mod 10)) (String (digit (n mod 10)) EmptyString).

Definition pad4 (n : Z) : string :=
  pad2 (n / 100) +:+ pad2 n.

Definition pad6 (n : Z) : string :=
  pad2 (n / 10000) +:+ pad4 n.

(** Years 0 to 9999 print with four digits, others with a sign and six. *)
Definition isoYear (y : Z) : string :=
  if ((0 <=? y) && (y <=? 9999))%Z then pad4 y
  else if (y <? 0)%Z then "-" +:+ pad6 (- y) else "+" +:+ pad6 y.

Definition isoDate (dt : t) : string :=
  isoYear (getFullYear dt) +:+ "-" +:+ pad2 (getMonth dt + 1) +:+ "-"
    +:+ pad2 (getDate dt).

(** [date.toISOString()] of a date at UTC midnight. *)
Definition toISOString (dt : t) : string :=
  isoDate dt +:+ "T00:00:00.000Z".

(** The key [`${date.getFullYear()}-${date.getMonth() + 1}`]. *)
Definition monthKey (dt : t) : string :=
  pretty (getFullYear dt) +:+ "-" +:+ pretty (getMonth dt + 1)%Z.

Definition validb (dt : t) : bool :=
  ((0 <=? getMonth dt) && (getMonth dt <=? 11) && (1 <=? getDate dt)
   && (getDate dt <=? daysInMonth (getFullYear dt) (getMonth dt)))%Z.

Definition digitValue (c : ascii) : option Z :=
  (if Ascii.eqb c "0" then Some 0 else if Ascii.eqb c "1" then Some 1
   else if Ascii.eqb c "2" then Some 2 else if Ascii.eqb c "3" then Some 3
   else if Ascii.eqb c "4" then Some 4 else if Ascii.eqb c "5" then Some 5
   else if Ascii.eqb c "6" then Some 6 else if Ascii.eqb c "7" then Some 7
   else if Ascii.eqb c "8" then Some 8 else if Ascii.eqb c "9" then Some 9
   else None)%Z.

Definition parse2 (a b : ascii) : option Z :=
  match digitValue a, digitValue b with
  | Some x, Some y => Some (10 * x + y)%Z
  | _, _ => None
  end.

(** [new Date(s)] for a date-only string [YYYY-MM-DD] of a calendar day;
    [None] is the invalid date.  Other forms of date strings are not
    modelled and count as invalid. *)
Definition parseIsoDate (s : string) : option t :=
  match s with
  | String y1 (String y2 (String y3 (String y4 (String s1
      (String m1 (String m2 (String s2 (String d1 (String d2 EmptyString))))))))) =>
      if Ascii.eqb s1 "-" && Ascii.eqb s2 "-" then
        match parse2 y1 y2, parse2 y3 y4, parse2 m1 m2, parse2 d1 d2 with
        | Some yh, Some yl, Some m, Some d =>
            let dt := mk (100 * yh + yl) (m - 1) d in
            if validb dt then Some dt else None
        | _, _, _, _ => None
        end
      else None
  | _ => None
  end.

(** The key [`${date.getFullYear()}-${date.getMonth() + 1}`] of
    [date = new Date(s)]; the getters of an invalid date return [NaN]. *)
Definition keyOfDateString (s : string) : string :=
  match parseIsoDate s with
  | Some dt => monthKey dt
  | None => "NaN-NaN"
  end.

End JsDate.

(** ** Data model shared by the two calculator components *)

Inductive OptionType := call | put.
Inductive StrikeType := percent | absolute.

(** One leg of the strategy ([interface StrategyComponent]); [strike] is a
    percentage of spot or an absolute price, [volatility] and [quantity] are
    percentages. *)
Module StrategyComponent.
Record t := mk {
  type : OptionType;
  strike : R;
  strikeType : StrikeType;
  volatility : R;
  quantity : R
}.
End StrategyComponent.

(** [params]; [startDate] is the calendar date that the string
    [params.startDate] denotes, [interestRate] is a percentage. *)
Module Params.
Record t := mk {
  startDate : JsDate.t;
  monthsToHedge : nat;
  interestRate : R;
  totalVolume : R;
  spotPrice : R
}.
End Params.

(** An element of [optionPrices]; its display [label] is not modelled. *)
Module OptionPrice.
Record t := mk {
  type : OptionType;
  price : R;
  quantity : R;
  strike : R
}.
End OptionPrice.

(** One row of [results] ([interface Result]). *)
Module Result.
Record t := mk {
  date : string;
  timeToMaturity : R;
  forward : R;
  realPrice : R;
  optionPrices : list OptionPrice.t;
  strategyPrice : R;
  totalPayoff : R;
  monthlyVolume : R;
  hedgedCost : R;
  unhedgedCost : R;
  deltaPnL : R
}.
End Result.

Module RealPriceParams.
Record t := mk {
  useSimulation : bool;
  volatility : R;
  drift : R;
  numSimulations : R
}.
End RealPriceParams.

Module PayoffPoint.
Record t := mk { price : R; payoff : R }.
End PayoffPoint.

(** [opt.strikeType === 'percent' ? spotPrice * (opt.strike/100) : opt.strike] *)
Definition resolveStrike (spotPrice : R) (opt : StrategyComponent.t) : R :=
  match StrategyComponent.strikeType opt with
  | percent => spotPrice * (StrategyComponent.strike opt / 100)
  | absolute => StrategyComponent.strike opt
  end.

(** [type === 'call' ? Math.max(price - strike, 0) : Math.max(strike - price, 0)] *)
Definition intrinsicValue (ty : OptionType) (price strike : R) : R :=
  match ty with
  | call => Rmax (price - strike) 0
  | put => Rmax (strike - price) 0
  end.

(** The [reduce] calls that sum premiums and intrinsic values over
    [optionPrices], starting from [0]. *)
Definition strategyPriceOf (optionPrices : list OptionPrice.t) : R :=
  fold_left (fun sum opt => sum + OptionPrice.price opt * OptionPrice.quantity opt)
    optionPrices 0.

Definition totalPayoffOf (realPrice : R) (optionPrices : list OptionPrice.t) : R :=
  fold_left
    (fun sum opt =>
       sum + intrinsicValue (OptionPrice.type opt) realPrice (OptionPrice.strike opt)
             * OptionPrice.quantity opt)
    optionPrices 0.

(** ** [src/pages/Index.tsx] *)

Module IndexTsx.

Record State := mkState {
  params : Params.t;
  strategy : list StrategyComponent.t;
  results : option (list Result.t);
  manualForwards : gmap string R;
  realPrices : gmap string R;
  payoffData : list PayoffPoint.t;
  realPriceParams : RealPriceParams.t
}.

Definition monthNames : list string :=
  ["January"; "February"; "March"; "April"; "May"; "June";
   "July"; "August"; "September"; "October"; "November"; "December"].

Definition a1 : R := 0.254829592.
Definition a2 : R := -0.284496736.
Definition a3 : R := 1.421413741.
Definition a4 : R := -1.453152027.
Definition a5 : R := 1.061405429.
Definition p : R := 0.3275911.

(** Error function (erf) implementation. *)
Definition erf (x0 : R) : R :=
  let sign := if Rlt_dec x0 0 then -1 else 1 in
  let x := Rabs x0 in
  let t := 1.0 / (1.0 + p * x) in
  let y := 1.0 - (((((a5 * t + a4) * t) + a3) * t + a2) * t + a1) * t * exp (- x * x) in
  sign * y.

(** The expression [(1 + erf(d/Math.sqrt(2)))/2] of [calculateOptionPrice]. *)
Definition normCdf (d : R) : R := (1 + erf (d / sqrt 2)) / 2.

(** Calculate Black-Scholes Option Price.  The source computes with real
    numbers when [S], [K], [t] and [sigma] are positive; elsewhere it meets
    [NaN] or an infinity ([0/0] at [t = 0] at the money, the square root of a
    negative [t], the logarithm of a non-positive ratio), where the total
    [Rdiv], [sqrt] and [ln] below return a real number. *)
Definition calculateOptionPrice (type : OptionType) (S K r t sigma : R) : R :=
  let d1 := (ln (S / K) + (r + sigma ^ 2 / 2) * t) / (sigma * sqrt t) in
  let d2 := d1 - sigma * sqrt t in
  let Nd1 := normCdf d1 in
  let Nd2 := normCdf d2 in
  match type with
  | call => S * Nd1 - K * exp (- r * t) * Nd2
  | put => K * exp (- r * t) * (1 - Nd2) - S * (1 - Nd1)
  end.

(** [simulateRealPrices]: the [forEach] over [months], threading
    [currentPrice]; the draw of month number [i] is [rnd i]. *)
Fixpoint simulateRealPrices_from (rpp : RealPriceParams.t) (rnd : nat -> R)
    (i : nat) (currentPrice : R) (prices : gmap string R)
    (months : list JsDate.t) : gmap string R :=
  match months with
  | [] => prices
  | date :: rest =>
      let dt := 1 / 12 in
      let monthKey := JsDate.monthKey date in
      let randomWalk := rnd i * 2 - 1 in
      let currentPrice' :=
        currentPrice *
        exp ((RealPriceParams.drift rpp - RealPriceParams.volatility rpp ^ 2 / 2) * dt
             + RealPriceParams.volatility rpp * sqrt dt * randomWalk) in
      simulateRealPrices_from rpp rnd (S i) currentPrice'
        (<[monthKey := currentPrice']> prices) rest
  end.

Definition simulateRealPrices (st : State) (rnd : nat -> R)
    (months : list JsDate.t) : gmap string R :=
  simulateRealPrices_from (realPriceParams st) rnd 0
    (Params.spotPrice (params st)) ∅ months.

(** One point of the payoff diagram, at underlying [price]. *)
Definition payoffAt (st : State) (price : R) : PayoffPoint.t :=
  let spotPrice := Params.spotPrice (params st) in
  let totalPayoff :=
    fold_left
      (fun totalPayoff option =>
         let strike := resolveStrike spotPrice option in
         let quantity := StrategyComponent.quantity option / 100 in
         let optionPremium :=
           calculateOptionPrice (StrategyComponent.type option) spotPrice strike
             (Params.interestRate (params st) / 100) 1
             (StrategyComponent.volatility option / 100) in
         totalPayoff
         + (intrinsicValue (StrategyComponent.type option) price strike
            - optionPremium) * quantity)
      (strategy st) 0 in
  PayoffPoint.mk price totalPayoff.

Definition priceRange (spotPrice : R) : list R :=
  map (fun i : nat => spotPrice * (0.5 + INR i * 0.01)) (seq 0 101).

(** Calculate Payoff at Maturity: the new value of [payoffData]. *)
Definition calculatePayoff (st : State) : list PayoffPoint.t :=
  match strategy st with
  | [] => payoffData st
  | _ => map (payoffAt st) (priceRange (Params.spotPrice (params st)))
  end.

(** [new Date(d.getFullYear(), d.getMonth() + 1, 0)] *)
Definition lastDayOfMonth (d : JsDate.t) : JsDate.t :=
  JsDate.make (JsDate.getFullYear d) (JsDate.getMonth d + 1) 0.

(** The loop that pushes the month ends after the first one; [currentDate]
    is advanced in place. *)
Fixpoint monthsLoop (k : nat) (currentDate : JsDate.t) : list JsDate.t :=
  match k with
  | O => []
  | S k' =>
      let currentDate' :=
        JsDate.setMonth currentDate (JsDate.getMonth currentDate + 1) in
      lastDayOfMonth currentDate' :: monthsLoop k' currentDate'
  end.

Definition months (prm : Params.t) : list JsDate.t :=
  let startDate := Params.startDate prm in
  let lastDayOfStartMonth := lastDayOfMonth startDate in
  let remainingDaysInMonth :=
    (JsDate.getDate lastDayOfStartMonth - JsDate.getDate startDate + 1)%Z in
  if (0 <? remainingDaysInMonth)%Z
  then lastDayOfMonth startDate
         :: monthsLoop (Params.monthsToHedge prm - 1) startDate
  else monthsLoop (Params.monthsToHedge prm) startDate.

(** [date - startDate], in milliseconds. *)
Definition msSince (startDate date : JsDate.t) : R :=
  IZR (JsDate.getTime date - JsDate.getTime startDate).

Definition timeToMaturityOf (startDate date : JsDate.t) : R :=
  Rabs (msSince startDate date) / (325.25 * 24 * 60 * 60 * 1000).

Definition forwardOf (st : State) (date : JsDate.t) : R :=
  let prm := params st in
  Js.or_else (manualForwards st !! JsDate.monthKey date)
    (Params.spotPrice prm *
     exp (Params.interestRate prm / 100 * msSince (Params.startDate prm) date
          / (1000 * 60 * 60 * 24 * 365))).

(** The hedged cost, the unhedged cost and the P&L of one month. *)
Definition costAccounting (monthlyVolume realPrice strategyPrice totalPayoff : R)
    : R * R * R :=
  let hedgedCost :=
    - (monthlyVolume * realPrice) - (monthlyVolume * strategyPrice)
    + (monthlyVolume * totalPayoff) in
  let unhedgedCost := - (monthlyVolume * realPrice) in
  (hedgedCost, unhedgedCost, hedgedCost - unhedgedCost).

(** The body of [months.map((date, i) => ...)]. *)
Definition detailedResult (st : State) (date : JsDate.t) : Result.t :=
  let prm := params st in
  let monthlyVolume := Params.totalVolume prm / INR (Params.monthsToHedge prm) in
  let forward := forwardOf st date in
  let monthKey := JsDate.monthKey date in
  let realPrice := Js.or_else (realPrices st !! monthKey) forward in
  let t := timeToMaturityOf (Params.startDate prm) date in
  let optionPrices :=
    map (fun option =>
           let strike := resolveStrike (Params.spotPrice prm) option in
           OptionPrice.mk (StrategyComponent.type option)
             (calculateOptionPrice (StrategyComponent.type option) forward strike
                (Params.interestRate prm / 100) t
                (StrategyComponent.volatility option / 100))
             (StrategyComponent.quantity option / 100)
             strike)
        (strategy st) in
  let strategyPrice := strategyPriceOf optionPrices in
  let totalPayoff := totalPayoffOf realPrice optionPrices in
  let '(hedgedCost, unhedgedCost, deltaPnL) :=
    costAccounting monthlyVolume realPrice strategyPrice totalPayoff in
  Result.mk
    (Js.index_as_key monthNames (Z.to_nat (JsDate.getMonth date))
       +:+ " " +:+ pretty (JsDate.getFullYear date))
    t forward realPrice optionPrices strategyPrice totalPayoff monthlyVolume
    hedgedCost unhedgedCost deltaPnL.

(** Calculate detailed results.  The simulated real prices are stored for
    the next render; the rows are computed from the current [realPrices]. *)
Definition calculateResults (rnd : nat -> R) (st : State) : State :=
  let ms := months (params st) in
  mkState (params st) (strategy st)
    (Some (map (detailedResult st) ms))
    (manualForwards st)
    (if RealPriceParams.useSimulation (realPriceParams st)
     then simulateRealPrices st rnd ms else realPrices st)
    (calculatePayoff st)
    (realPriceParams st).

(** Remove option from strategy.  [calculatePayoff] is the function of the
    current render and still draws the strategy before the removal. *)
Definition removeOption (index : nat) (st : State) : State :=
  let newStrategy := delete index (strategy st) in
  mkState (params st) newStrategy (results st) (manualForwards st) (realPrices st)
    (match newStrategy with
     | [] => []
     | _ => calculatePayoff st
     end)
    (realPriceParams st).

(** The [useEffect] on [strategy]: redraw the payoff diagram of a non-empty
    strategy. *)
Definition strategyEffect (st : State) : State :=
  mkState (params st) (strategy st) (results st) (manualForwards st)
    (realPrices st) (calculatePayoff st) (realPriceParams st).

(** The keys and the entries of the constant [stressTestScenarios]. *)
Inductive ScenarioKey := base | highVol | crash | bull | contango | backwardation.

Record Scenario := mkScenario {
  name : string;
  description : string;
  volatility : R;
  drift : R;
  priceShock : R;
  forwardBasis : R
}.

Definition stressTestScenarios (scenarioKey : ScenarioKey) : Scenario :=
  match scenarioKey with
  | base => mkScenario "Base Case" "Normal market conditions" 0.2 0.01 0 0
  | highVol => mkScenario "High Volatility" "Double volatility scenario" 0.4 0.01 0 0
  | crash => mkScenario "Market Crash" "High volatility, negative drift, price shock"
               0.5 (-0.03) (-0.2) 0
  | bull => mkScenario "Bull Market" "Low volatility, positive drift, upward shock"
              0.15 0.02 0.1 0
  | contango => mkScenario "Contango"
                  "Forward prices higher than spot (monthly basis in %)" 0.2 0.01 0 0.01
  | backwardation => mkScenario "Backwardation"
                       "Forward prices lower than spot (monthly basis in %)"
                       0.2 0.01 0 (-0.01)
  end.

(** The loop that writes the forward curve; [currentDate] is advanced in place
    before its key is taken. *)
Fixpoint forwardCurveLoop (spotPrice forwardBasis : R) (i n : nat)
    (currentDate : JsDate.t) (prev : gmap string R) : gmap string R :=
  match n with
  | O => prev
  | S n' =>
      let currentDate' :=
        JsDate.setMonth currentDate (JsDate.getMonth currentDate + 1) in
      let monthKey := JsDate.monthKey currentDate' in
      let timeInYears := INR i / 12 in
      let forwardPrice := spotPrice * exp (forwardBasis * timeInYears * 12) in
      forwardCurveLoop spotPrice forwardBasis (S i) n' currentDate'
        (<[monthKey := forwardPrice]> prev)
  end.

(** Apply stress test scenario.  The curve and the final [calculateResults()]
    use the values of the current render: the spot price before the shock and
    the state [st]. *)
Definition applyStressTest (rnd : nat -> R) (scenarioKey : ScenarioKey)
    (st : State) : State :=
  let scenario := stressTestScenarios scenarioKey in
  let prm := params st in
  let projected := calculateResults rnd st in
  mkState
    (if Js.truthy (priceShock scenario)
     then Params.mk (Params.startDate prm) (Params.monthsToHedge prm)
            (Params.interestRate prm) (Params.totalVolume prm)
            (Params.spotPrice prm * (1 + priceShock scenario))
     else prm)
    (strategy st)
    (results projected)
    (if Js.truthy (forwardBasis scenario)
     then forwardCurveLoop (Params.spotPrice prm) (forwardBasis scenario) 0
            (Params.monthsToHedge prm) (Params.startDate prm) (manualForwards st)
     else manualForwards st)
    (realPrices projected)
    (payoffData projected)
    (RealPriceParams.mk true (volatility scenario) (drift scenario)
       (RealPriceParams.numSimulations (realPriceParams st))).

End IndexTsx.

(** ** Yearly totals ([interface YearlyResult]) *)

Module YearlyResult.
Record t := mk { hedgedCost : R; unhedgedCost : R; deltaPnL : R }.

Definition zero : t := mk 0 0 0.

(** The three [+=] on [acc[year]]. *)
Definition add (row : Result.t) (y : t) : t :=
  mk (hedgedCost y + Result.hedgedCost row)
     (unhedgedCost y + Result.unhedgedCost row)
     (deltaPnL y + Result.deltaPnL row).
End YearlyResult.

(** [const year = row.date.split(' ')[1]], used as a property key. *)
Definition yearKey (row : Result.t) : string :=
  Js.index_as_key (Js.split " " (Result.date row)) 1.

(** [if (!acc[year]) acc[year] = { hedgedCost: 0, unhedgedCost: 0, deltaPnL: 0 }] *)
Definition ensureYear (year : string) (acc : gmap string YearlyResult.t)
    : gmap string YearlyResult.t :=
  match acc !! year with
  | Some _ => acc
  | None => <[year := YearlyResult.zero]> acc
  end.

(** ** The saved-scenarios page of [unnamed/part_001] *)

Module SavedScenarios.

Definition calculateYearlyResults (results : list Result.t)
    : gmap string YearlyResult.t :=
  fold_left
    (fun acc row =>
       let year := yearKey row in
       alter (YearlyResult.add row) year (ensureYear year acc))
    results ∅.

End SavedScenarios.

(** ** The calculator component of [unnamed/part_001] *)

Module StressTestScenario.
Record t := mk {
  name : string;
  description : string;
  volatility : R;
  drift : R;
  priceShock : R;
  forwardBasis : option R;
  realBasis : option R;
  isCustom : option bool;
  isEditable : option bool
}.
End StressTestScenario.

Module Part001.

Record State := mkState {
  activeTab : string;
  params : Params.t;
  initialSpotPrice : R;
  strategy : list StrategyComponent.t;
  results : option (list Result.t);
  manualForwards : gmap string R;
  realPrices : gmap string R;
  payoffData : list PayoffPoint.t;
  realPriceParams : RealPriceParams.t;
  customScenario : StressTestScenario.t;
  stressTestScenarios : gmap string StressTestScenario.t;
  activeStressTest : option string;
  showImpliedVol : bool;
  customVolatilities : gmap string R
}.

(** The initial value of [stressTestScenarios]. *)
Definition initialScenarios : gmap string StressTestScenario.t :=
  <["base" := StressTestScenario.mk "Base Case" "Normal market conditions"
      0.2 0.01 0 (Some 0) None None (Some true)]>
  (<["highVol" := StressTestScenario.mk "High Volatility" "Double volatility scenario"
      0.4 0.01 0 (Some 0) None None (Some true)]>
  (<["crash" := StressTestScenario.mk "Market Crash"
      "High volatility, negative drift, price shock"
      0.5 (-0.03) (-0.2) (Some 0) None None (Some true)]>
  (<["bull" := StressTestScenario.mk "Bull Market"
      "Low volatility, positive drift, upward shock"
      0.15 0.02 0.1 (Some 0) None None (Some true)]>
  (<["contango" := StressTestScenario.mk "Contango"
      "Forward prices higher than spot (monthly basis in %)"
      0.2 0.01 0 (Some 0.01) None None (Some true)]>
  (<["backwardation" := StressTestScenario.mk "Backwardation"
      "Forward prices lower than spot (monthly basis in %)"
      0.2 0.01 0 (Some (-0.01)) None None (Some true)]>
  (<["contangoReal" := StressTestScenario.mk "Contango (Real Prices)"
      "Real prices higher than spot (monthly basis in %)"
      0.2 0.01 0 None (Some 0.01) None (Some true)]>
  (<["backwardationReal" := StressTestScenario.mk "Backwardation (Real Prices)"
      "Real prices lower than spot (monthly basis in %)"
      0.2 0.01 0 None (Some (-0.01)) None (Some true)]>
  (<["custom" := StressTestScenario.mk "Custom Case" "User-defined scenario"
      0.2 0.01 0 (Some 0) None (Some true) None]> ∅)))))))).

Definition a1 : R := 0.254829592.
Definition a2 : R := -0.284496736.
Definition a3 : R := 1.421413741.
Definition a4 : R := -1.453152027.
Definition a5 : R := 1.061405429.
Definition p : R := 0.3275911.

(** Error function (erf) implementation; [a1] is declared and not used. *)
Definition erf (x0 : R) : R :=
  let sign := if Rlt_dec x0 0 then -1 else 1 in
  let x := Rabs x0 in
  let t := 1.0 / (1.0 + p * x) in
  let y := 1.0 - (((((a5 * t + a4) * t) + a3) * t + a2) * t * exp (- x * x)) in
  sign * y.

Definition normCdf (d : R) : R := (1 + erf (d / sqrt 2)) / 2.

(** [showImpliedVol && monthKey && customVolatilities[monthKey]], and the
    volatility it selects. *)
Definition effectiveVolatilityOf (showImpliedVol : bool)
    (customVolatilities : gmap string R) (monthKey : option string)
    (sigma : R) : R :=
  match monthKey with
  | Some k =>
      if showImpliedVol && Js.truthy_string k
      then Js.or_else (customVolatilities !! k) sigma
      else sigma
  | None => sigma
  end.

Definition calculateOptionPrice (st : State) (type : OptionType)
    (S K r t sigma : R) (monthKey : option string) : R :=
  let effectiveVolatility :=
    effectiveVolatilityOf (showImpliedVol st) (customVolatilities st) monthKey sigma in
  let d1 := (ln (S / K) + (r + effectiveVolatility ^ 2 / 2) * t)
            / (effectiveVolatility * sqrt t) in
  let d2 := d1 - effectiveVolatility * sqrt t in
  let Nd1 := normCdf d1 in
  let Nd2 := normCdf d2 in
  match type with
  | call => S * Nd1 - K * exp (- r * t) * Nd2
  | put => K * exp (- r * t) * (1 - Nd2) - S * (1 - Nd1)
  end.

Definition payoffAt (st : State) (price : R) : PayoffPoint.t :=
  let spotPrice := Params.spotPrice (params st) in
  let totalPayoff :=
    fold_left
      (fun totalPayoff option =>
         let strike := resolveStrike spotPrice option in
         let quantity := StrategyComponent.quantity option / 100 in
         let optionPremium :=
           calculateOptionPrice st (StrategyComponent.type option) spotPrice strike
             (Params.interestRate (params st) / 100) 1
             (StrategyComponent.volatility option / 100) None in
         totalPayoff
         + (intrinsicValue (StrategyComponent.type option) price strike
            - optionPremium) * quantity)
      (strategy st) 0 in
  PayoffPoint.mk price totalPayoff.

Definition priceRange (spotPrice : R) : list R :=
  map (fun i : nat => spotPrice * (0.5 + INR i * 0.01)) (seq 0 101).

(** Calculate Payoff at Maturity: the new value of [payoffData]. *)
Definition calculatePayoff (st : State) : list PayoffPoint.t :=
  match strategy st with
  | [] => payoffData st
  | _ => map (payoffAt st) (priceRange (Params.spotPrice (params st)))
  end.

(** [calculateSimulatedPrice]; [u] is the value of [Math.random()]. *)
Definition calculateSimulatedPrice (spotPrice : R) (monthIndex : nat)
    (rpp : RealPriceParams.t) (u : R) : R :=
  let t := INR monthIndex / 12 in
  let drift := RealPriceParams.drift rpp in
  let volatility := RealPriceParams.volatility rpp in
  spotPrice * exp ((drift - volatility * volatility / 2) * t
                   + volatility * sqrt t * (u * 2 - 1)).

(** [new Date(startDate); date.setMonth(date.getMonth() + i)] *)
Definition periodDate (prm : Params.t) (i : nat) : JsDate.t :=
  let startDate := Params.startDate prm in
  JsDate.setMonth startDate (JsDate.getMonth startDate + Z.of_nat i).

Definition lastDayOfStartMonth (prm : Params.t) : JsDate.t :=
  let startDate := Params.startDate prm in
  JsDate.make (JsDate.getFullYear startDate) (JsDate.getMonth startDate + 1) 0.

Definition daysInFirstMonth (prm : Params.t) : Z :=
  (JsDate.getDate (lastDayOfStartMonth prm)
   - JsDate.getDate (Params.startDate prm) + 1)%Z.

Definition totalDaysInFirstMonth (prm : Params.t) : Z :=
  JsDate.getDate (lastDayOfStartMonth prm).

Definition timeToMaturityOf (prm : Params.t) (i : nat) : R :=
  match i with
  | O => IZR (daysInFirstMonth prm)
         / (IZR (totalDaysInFirstMonth prm) * INR (Params.monthsToHedge prm))
  | _ => INR i / INR (Params.monthsToHedge prm)
  end.

Definition forwardOf (st : State) (monthKey : string) : R :=
  Js.or_else (manualForwards st !! monthKey) (Params.spotPrice (params st)).

(** The hedged cost, the unhedged cost and the P&L of one month. *)
Definition costAccounting (monthlyVolume realPrice strategyPrice totalPayoff : R)
    : R * R * R :=
  let hedgedCost := monthlyVolume * (realPrice + strategyPrice - totalPayoff) in
  let unhedgedCost := monthlyVolume * realPrice in
  (hedgedCost, unhedgedCost, unhedgedCost - hedgedCost).

(** [showImpliedVol && customVolatilities[monthKey]
      ? customVolatilities[monthKey] : opt.volatility/100] *)
Definition legVolatility (st : State) (monthKey : string)
    (opt : StrategyComponent.t) : R :=
  if showImpliedVol st
  then Js.or_else (customVolatilities st !! monthKey)
         (StrategyComponent.volatility opt / 100)
  else StrategyComponent.volatility opt / 100.

(** The body of the [for] loop of [calculateResults], at index [i]. *)
Definition resultRow (rnd : nat -> R) (st : State) (i : nat) : Result.t :=
  let prm := params st in
  let date := periodDate prm i in
  let monthKey := JsDate.monthKey date in
  let timeToMaturity := timeToMaturityOf prm i in
  let forward := forwardOf st monthKey in
  let realPrice :=
    if RealPriceParams.useSimulation (realPriceParams st)
    then calculateSimulatedPrice (Params.spotPrice prm) i (realPriceParams st) (rnd i)
    else Js.or_else (realPrices st !! monthKey) forward in
  let optionPrices :=
    map (fun opt =>
           let strike := resolveStrike (Params.spotPrice prm) opt in
           let volatility := legVolatility st monthKey opt in
           OptionPrice.mk (StrategyComponent.type opt)
             (calculateOptionPrice st (StrategyComponent.type opt) forward strike
                (Params.interestRate prm / 100) timeToMaturity volatility
                (Some monthKey))
             (StrategyComponent.quantity opt / 100)
             strike)
        (strategy st) in
  let strategyPrice := strategyPriceOf optionPrices in
  let totalPayoff := totalPayoffOf realPrice optionPrices in
  let monthlyVolume := Params.totalVolume prm / INR (Params.monthsToHedge prm) in
  let '(hedgedCost, unhedgedCost, deltaPnL) :=
    costAccounting monthlyVolume realPrice strategyPrice totalPayoff in
  Result.mk
    (hd EmptyString (Js.split "T" (JsDate.toISOString date)))
    timeToMaturity forward realPrice optionPrices strategyPrice totalPayoff
    monthlyVolume hedgedCost unhedgedCost deltaPnL.

Definition withResults (st : State) (res : option (list Result.t))
    (pd : list PayoffPoint.t) : State :=
  mkState (activeTab st) (params st) (initialSpotPrice st) (strategy st)
    res (manualForwards st) (realPrices st) pd (realPriceParams st)
    (customScenario st) (stressTestScenarios st) (activeStressTest st)
    (showImpliedVol st) (customVolatilities st).

(** The values that [calculateResults] passes to [setResults] and
    [setPayoffData]. *)
Definition projection (rnd : nat -> R) (st : State)
    : option (list Result.t) * list PayoffPoint.t :=
  match strategy st with
  | [] => (None, [])
  | _ =>
      (Some (map (resultRow rnd st) (seq 0 (Params.monthsToHedge (params st)))),
       calculatePayoff st)
  end.

(** Calculate detailed results. *)
Definition calculateResults (rnd : nat -> R) (st : State) : State :=
  let proj := projection rnd st in
  withResults st (fst proj) (snd proj).

(** A loop [for (let i = 0; i < n; i++)] whose body first advances
    [currentDate] by one month in place and then uses the key of the
    advanced date and the index [i]. *)
Fixpoint forEachMonth {A : Type} (body : nat -> string -> A -> A)
    (i n : nat) (currentDate : JsDate.t) (acc : A) : A :=
  match n with
  | O => acc
  | S n' =>
      let currentDate' :=
        JsDate.setMonth currentDate (JsDate.getMonth currentDate + 1) in
      let monthKey := JsDate.monthKey currentDate' in
      forEachMonth body (S i) n' currentDate' (body i monthKey acc)
  end.

(** [initialSpotPrice * (1 + Number(scenario.priceShock))] *)
Definition stressedSpotPriceOf (st : State) (scenario : StressTestScenario.t) : R :=
  initialSpotPrice st * (1 + StressTestScenario.priceShock scenario).

(** The value of [manualForwards] after the clearing step and the
    [forwardBasis] loop of [applyStressTest]. *)
Definition stressedForwards (st : State) (scenario : StressTestScenario.t)
    : gmap string R :=
  let stressedSpotPrice := stressedSpotPriceOf st scenario in
  match StressTestScenario.forwardBasis scenario with
  | None => manualForwards st
  | Some forwardBasis =>
      if Js.truthy forwardBasis then
        forEachMonth
          (fun i monthKey (prev : gmap string R) =>
             let timeInYears := INR i / 12 in
             let forwardPrice :=
               stressedSpotPrice * exp (forwardBasis * timeInYears * 12) in
             <[monthKey := forwardPrice]> prev)
          0 (Params.monthsToHedge (params st)) (Params.startDate (params st)) ∅
      else ∅
  end.

(** The local object [baseForwards] of the [realBasis] branch. *)
Definition baseForwardsOf (st : State) (scenario : StressTestScenario.t)
    : gmap string R :=
  let stressedSpotPrice := stressedSpotPriceOf st scenario in
  forEachMonth
    (fun i monthKey (acc : gmap string R) =>
       let timeInYears := INR i / 12 in
       let forwardPrice :=
         stressedSpotPrice
         * exp ((Params.interestRate (params st) / 100) * timeInYears) in
       <[monthKey := forwardPrice]> acc)
    0 (Params.monthsToHedge (params st)) (Params.startDate (params st)) ∅.

(** The values of [realPrices] and [manualForwards] after the clearing step
    and the [realBasis] loops; [forwards1] is [manualForwards] after the
    [forwardBasis] loop.  Every key read from [baseForwards] was written by
    the first loop, which visits the same months. *)
Definition stressedCurves (st : State) (scenario : StressTestScenario.t)
    (forwards1 : gmap string R) : gmap string R * gmap string R :=
  let stressedSpotPrice := stressedSpotPriceOf st scenario in
  match StressTestScenario.realBasis scenario with
  | None => (realPrices st, forwards1)
  | Some realBasis =>
      if Js.truthy realBasis then
        let baseForwards := baseForwardsOf st scenario in
        forEachMonth
          (fun i monthKey (prev : gmap string R * gmap string R) =>
             let timeInYears := INR i / 12 in
             let realPrice :=
               stressedSpotPrice * exp (realBasis * timeInYears * 12) in
             (<[monthKey := realPrice]> (fst prev),
              match baseForwards !! monthKey with
              | Some forwardPrice => <[monthKey := forwardPrice]> (snd prev)
              | None => snd prev
              end))
          0 (Params.monthsToHedge (params st)) (Params.startDate (params st))
          (∅, forwards1)
      else (∅, forwards1)
  end.

(** Apply stress test scenario.  The setters are applied in program order;
    the final [calculateResults()] is the function of the current render and
    projects the state [st] in which the handler was created.  The lookup
    [stressTestScenarios[key]] is the lookup of an own entry: for a key of
    [Js.objectPrototypeKeys] without an own entry the source finds the
    inherited member and goes on past the guard, which is outside the
    model. *)
Definition applyStressTest (rnd : nat -> R) (key : string) (st : State) : State :=
  match stressTestScenarios st !! key with
  | None =>
      mkState (activeTab st) (params st) (initialSpotPrice st) (strategy st)
        (results st) (manualForwards st) (realPrices st) (payoffData st)
        (realPriceParams st) (customScenario st) (stressTestScenarios st)
        (Some key) (showImpliedVol st) (customVolatilities st)
  | Some scenario =>
      let realPriceParams' :=
        RealPriceParams.mk
          (Js.not_opt (StressTestScenario.realBasis scenario))
          (StressTestScenario.volatility scenario)
          (StressTestScenario.drift scenario)
          (RealPriceParams.numSimulations (realPriceParams st)) in
      let curves := stressedCurves st scenario (stressedForwards st scenario) in
      let proj := projection rnd st in
      mkState (activeTab st) (params st) (initialSpotPrice st) (strategy st)
        (fst proj) (snd curves) (fst curves) (snd proj) realPriceParams'
        (customScenario st) (stressTestScenarios st)
        (Some key) (showImpliedVol st) (customVolatilities st)
  end.

(** Type guard for results: every field of a [Result] is a [number]. *)
Definition isValidResult (result : Result.t) : bool := true.

Definition calculateYearlyResults (results : list Result.t)
    : gmap string YearlyResult.t :=
  fold_left
    (fun acc row =>
       let year := yearKey row in
       let acc' := ensureYear year acc in
       if isValidResult row then alter (YearlyResult.add row) year acc' else acc')
    results ∅.

Definition withStrategy (st : State) (newStrategy : list StrategyComponent.t)
    : State :=
  mkState (activeTab st) (params st) (initialSpotPrice st) newStrategy
    (results st) (manualForwards st) (realPrices st) (payoffData st)
    (realPriceParams st) (customScenario st) (stressTestScenarios st)
    (activeStressTest st) (showImpliedVol st) (customVolatilities st).

(** The row that [removeOption] computes from a row of [results] for the
    remaining options. *)
Definition rowAfterRemoval (st : State) (newStrategy : list StrategyComponent.t)
    (row : Result.t) : Result.t :=
  let prm := params st in
  let monthKey := JsDate.keyOfDateString (Result.date row) in
  let optionPrices :=
    map (fun opt =>
           let strike := resolveStrike (Params.spotPrice prm) opt in
           let volatility := legVolatility st monthKey opt in
           OptionPrice.mk (StrategyComponent.type opt)
             (calculateOptionPrice st (StrategyComponent.type opt)
                (Result.forward row) strike (Params.interestRate prm / 100)
                (Result.timeToMaturity row) volatility (Some monthKey))
             (StrategyComponent.quantity opt / 100)
             strike)
        newStrategy in
  let strategyPrice := strategyPriceOf optionPrices in
  let totalPayoff := totalPayoffOf (Result.realPrice row) optionPrices in
  let hedgedCost :=
    Result.monthlyVolume row * (Result.realPrice row + strategyPrice - totalPayoff) in
  let deltaPnL := Result.unhedgedCost row - hedgedCost in
  Result.mk (Result.date row) (Result.timeToMaturity row) (Result.forward row)
    (Result.realPrice row) optionPrices strategyPrice totalPayoff
    (Result.monthlyVolume row) hedgedCost (Result.unhedgedCost row) deltaPnL.

(** Remove option from strategy: [splice(indexToRemove, 1)] on a copy, then
    the rows are recomputed in place.  The final [calculatePayoff()] is the
    function of the current render and still draws the strategy before the
    removal. *)
Definition removeOption (indexToRemove : nat) (st : State) : State :=
  let newStrategy := delete indexToRemove (strategy st) in
  match newStrategy with
  | [] => withResults (withStrategy st newStrategy) None []
  | _ =>
      withResults (withStrategy st newStrategy)
        (option_map (map (rowAfterRemoval st newStrategy)) (results st))
        (calculatePayoff st)
  end.

(** The [useEffect] on [strategy]: redraw the payoff diagram of a non-empty
    strategy. *)
Definition strategyEffect (st : State) : State :=
  withResults st (results st) (calculatePayoff st).

(** The [useEffect] on [realPriceParams.useSimulation]: in manual mode the
    real prices are initialised with the forward prices of the rows. *)
Definition initRealPricesEffect (st : State) : State :=
  if RealPriceParams.useSimulation (realPriceParams st) then st
  else
    mkState (activeTab st) (params st) (initialSpotPrice st) (strategy st)
      (results st) (manualForwards st)
      (fold_left
         (fun (initialRealPrices : gmap string R) row =>
            <[JsDate.keyOfDateString (Result.date row) := Result.forward row]>
              initialRealPrices)
         (default [] (results st)) ∅)
      (payoffData st) (realPriceParams st) (customScenario st)
      (stressTestScenarios st) (activeStressTest st) (showImpliedVol st)
      (customVolatilities st).

(** The constant [DEFAULT_SCENARIOS]. *)
Definition DEFAULT_SCENARIOS : gmap string StressTestScenario.t :=
  <["base" := StressTestScenario.mk "Base Case" "Normal market conditions"
      0.2 0.01 0 (Some 0) None None (Some true)]>
  (<["highVol" := StressTestScenario.mk "High Volatility" "Double volatility scenario"
      0.4 0.01 0 (Some 0) None None (Some true)]>
  (<["crash" := StressTestScenario.mk "Market Crash"
      "High volatility, negative drift, price shock"
      0.5 (-0.03) (-0.2) (Some 0) None None (Some true)]>
  (<["bull" := StressTestScenario.mk "Bull Market"
      "Low volatility, positive drift, upward shock"
      0.15 0.02 0.1 (Some 0) None None (Some true)]> ∅))).

(** [resetScenario]: the new value of [stressTestScenarios]. *)
Definition resetScenario (key : string)
    (scenarios : gmap string StressTestScenario.t)
    : gmap string StressTestScenario.t :=
  match DEFAULT_SCENARIOS !! key with
  | Some scenario => <[key := scenario]> scenarios
  | None => scenarios
  end.

End Part001.

(** ** Definitions used to state the properties *)

(** The sum of a list of reals, written recursively. *)
Fixpoint Rsum (l : list R) : R :=
  match l with
  | [] => 0
  | x :: l' => x + Rsum l'
  end.

(** The polynomial of the five-term error function, and its derivative. *)
Definition erfPoly (t : R) : R :=
  (((((IndexTsx.a5 * t + IndexTsx.a4) * t) + IndexTsx.a3) * t + IndexTsx.a2) * t
   + IndexTsx.a1) * t.

Definition erfPoly' (t : R) : R :=
  5 * IndexTsx.a5 * t ^ 4 + 4 * IndexTsx.a4 * t ^ 3 + 3 * IndexTsx.a3 * t ^ 2
  + 2 * IndexTsx.a2 * t + IndexTsx.a1.

(** No character of [s] is [c]. *)
Fixpoint lacks (c : ascii) (s : string) : bool :=
  match s with
  | EmptyString => true
  | String c' s' => negb (Ascii.eqb c' c) && lacks c s'
  end.

(** A state used to instantiate the statements: one at-the-money call over
    three months from 15 January 2024, spot 100, rate 2%, no override. *)
Definition sampleStrategy : list StrategyComponent.t :=
  [StrategyComponent.mk call 100 percent 20 100].

Definition sampleParams : Params.t :=
  Params.mk (JsDate.mk 2024 0 15) 3 2 3000 100.

Definition sampleState : Part001.State :=
  Part001.mkState "parameters" sampleParams 100 sampleStrategy None ∅ ∅ []
    (RealPriceParams.mk false 0.3 0.01 1000)
    (StressTestScenario.mk "Custom Case" "User-defined scenario"
       0.2 0.01 0 (Some 0) None (Some true) None)
    Part001.initialScenarios None false ∅.

Definition noDraws : nat -> R := fun _ => 0.5.

(** A catalog with one more scenario, whose real basis is present and zero. *)
Definition flatRealScenario : StressTestScenario.t :=
  StressTestScenario.mk "Flat (Real Prices)" "Real prices equal to spot"
    0.2 0.01 0 None (Some 0) None (Some true).

Definition flatRealState : Part001.State :=
  Part001.mkState "parameters" sampleParams 100 sampleStrategy None ∅ ∅ []
    (RealPriceParams.mk false 0.3 0.01 1000)
    (Part001.customScenario sampleState)
    (<["flatReal" := flatRealScenario]> Part001.initialScenarios) None false ∅.

(** Elapsed time from [startDate] to [date] in years of 365 days, by the
    calendar. *)
Definition elapsedYears (startDate date : JsDate.t) : R :=
  IZR (JsDate.dayNumber date - JsDate.dayNumber startDate) / 365.

(** The same sample for [src/pages/Index.tsx], with a manual forward of zero
    entered for January 2024. *)
Definition zeroForwardState : IndexTsx.State :=
  IndexTsx.mkState sampleParams sampleStrategy None (<["2024-1" := 0]> ∅) ∅ []
    (RealPriceParams.mk false 0.3 0.01 1000).

(** A three-month sample that spans two calendar years. *)
Definition yearEndState : Part001.State :=
  Part001.mkState "parameters"
    (Params.mk (JsDate.mk 2024 10 15) 3 2 3000 100) 100 sampleStrategy None ∅ ∅ []
    (RealPriceParams.mk false 0.3 0.01 1000)
    (Part001.customScenario sampleState)
    Part001.initialScenarios None false ∅.

(** [MakeDay]: the day number of [new Date(y, m, d)] is the day number of the
    first day of the month plus [d - 1]. *)
Definition makeDay_agrees (y m d : Z) : bool :=
  (JsDate.dayNumber (JsDate.make y m d)
   =? JsDate.dayNumber (JsDate.mk (y + m / 12) (m mod 12) 1) + d - 1)%Z.

Definition makeDay_agrees_around (y0 : Z) : bool :=
  forallb (fun y => forallb (fun m => forallb (fun d => makeDay_agrees y m d)
                                        (seqZ (-40) 120))
                      (seqZ (-14) 40))
    (seqZ (y0 - 1) 3).

(** The in-place step [currentDate.setMonth(currentDate.getMonth() + 1)]. *)
Definition nextMonth (d : JsDate.t) : JsDate.t :=
  JsDate.setMonth d (JsDate.getMonth d + 1).

(** ** Summary statistics *)

(** The totals that the result pages and the PDF export compute with
    [results.reduce((sum, row) => sum + row.field, 0)], and the cost
    reduction [(totalPnL / Math.abs(totalUnhedgedCost)) * 100]. *)
Module Summary.

Definition totalHedgedCost (results : list Result.t) : R :=
  fold_left (fun sum row => sum + Result.hedgedCost row) results 0.

Definition totalUnhedgedCost (results : list Result.t) : R :=
  fold_left (fun sum row => sum + Result.unhedgedCost row) results 0.

Definition totalPnL (results : list Result.t) : R :=
  fold_left (fun sum row => sum + Result.deltaPnL row) results 0.

Definition costReduction (results : list Result.t) : R :=
  totalPnL results / Rabs (totalUnhedgedCost results) * 100.

(** The cost reduction of one year,
    [(data.deltaPnL / Math.abs(data.unhedgedCost)) * 100]. *)
Definition yearlyCostReduction (data : YearlyResult.t) : R :=
  YearlyResult.deltaPnL data / Rabs (YearlyResult.unhedgedCost data) * 100.

End Summary.

(** ** [src/components/ScenariosPdfExport.tsx] *)

(** A saved scenario ([interface SavedScenario]). *)
Module SavedScenario.
Record t := mk {
  id : string;
  name : string;
  timestamp : R;
  params : Params.t;
  strategy : list StrategyComponent.t;
  results : list Result.t;
  payoffData : list PayoffPoint.t;
  stressTest : option StressTestScenario.t
}.
End SavedScenario.

Module ScenariosPdfExport.

(** [selectedScenarios.includes(id)] *)
Definition includes (selectedScenarios : list string) (id : string) : bool :=
  bool_decide (id ∈ selectedScenarios).

(** [toggleScenario]: the new value of [selectedScenarios]. *)
Definition toggleScenario (id : string) (selectedScenarios : list string)
    : list string :=
  if includes selectedScenarios id
  then filter (fun s => s ≠ id) selectedScenarios
  else selectedScenarios ++ [id].

(** [toggleAll]: the new value of [selectedScenarios]. *)
Definition toggleAll (scenarios : list SavedScenario.t)
    (selectedScenarios : list string) : list string :=
  if Nat.eqb (length selectedScenarios) (length scenarios)
  then []
  else map SavedScenario.id scenarios.

(** The scenarios that [exportToPdf] prints. *)
Definition scenariosToExport (scenarios : list SavedScenario.t)
    (selectedScenarios : list string) : list SavedScenario.t :=
  filter (fun s => SavedScenario.id s ∈ selectedScenarios) scenarios.

End ScenariosPdfExport.

(** ** Further sample states *)

(** A long call and a short put at the money. *)
Definition syntheticForwardState : Part001.State :=
  Part001.withStrategy sampleState
    [StrategyComponent.mk call 100 percent 20 100;
     StrategyComponent.mk put 100 percent 20 (- 100)].

(** The inline [results.reduce] of the yearly table of [src/pages/Index.tsx]. *)
Module IndexTsxSummary.

Definition yearlyResults (results : list Result.t) : gmap string YearlyResult.t :=
  fold_left
    (fun acc row =>
       let year := yearKey row in
       alter (YearlyResult.add row) year (ensureYear year acc))
    results ∅.

End IndexTsxSummary.

(** The rows of a year key, and their totals. *)
Definition rowsOfYear (year : string) (rows : list Result.t) : list Result.t :=
  filter (fun row => yearKey row = year) rows.

Definition yearTotals (rows : list Result.t) : YearlyResult.t :=
  YearlyResult.mk (Rsum (map Result.hedgedCost rows))
    (Rsum (map Result.unhedgedCost rows)) (Rsum (map Result.deltaPnL rows)).

(** The sum of a field over the entries of the yearly table. *)
Definition sumOverYears (f : YearlyResult.t -> R) (m : gmap string YearlyResult.t) : R :=
  map_fold (fun _ data acc => acc + f data) 0 m.


(** A three-month sample for [src/pages/Index.tsx] that spans two calendar
    years. *)
Definition indexYearEndState : IndexTsx.State :=
  IndexTsx.mkState (Params.mk (JsDate.mk 2024 10 15) 3 2 3000 100) sampleStrategy
    None ∅ ∅ [] (RealPriceParams.mk false 0.3 0.01 1000).

(** The value of [currentPrice] in [simulateRealPrices] of
    [src/pages/Index.tsx] after the iterations i, ..., i + j. *)
Fixpoint currentPriceAfter (rpp : RealPriceParams.t) (rnd : nat -> R)
    (i : nat) (currentPrice : R) (j : nat) : R :=
  let currentPrice' :=
    currentPrice *
    exp ((RealPriceParams.drift rpp - RealPriceParams.volatility rpp ^ 2 / 2) * (1 / 12)
         + RealPriceParams.volatility rpp * sqrt (1 / 12) * (rnd i * 2 - 1)) in
  match j with
  | O => currentPrice'
  | S j' => currentPriceAfter rpp rnd (S i) currentPrice' j'
  end.

(** The sample of [src/pages/Index.tsx] with the simulation switched on. *)
Definition indexSimulationState : IndexTsx.State :=
  IndexTsx.mkState sampleParams sampleStrategy None ∅ ∅ []
    (RealPriceParams.mk true 0.3 0.01 1000).

(** The sample with the start date moved to 31 January 2023. *)
Definition monthEndState : Part001.State :=
  Part001.mkState "parameters"
    (Params.mk (JsDate.mk 2023 0 31) 3 2 3000 100) 100 sampleStrategy None ∅ ∅ []
    (RealPriceParams.mk false 0.3 0.01 1000)
    (Part001.customScenario sampleState)
    Part001.initialScenarios None false ∅.
(** * Properties *)

(** ** The JavaScript helpers on examples *)

Example split_iso : Js.split " " "2024-01-15" = ["2024-01-15"].
Proof. reflexivity. Qed.

Example split_label : Js.split " " "January 2024" = ["January"; "2024"].
Proof. reflexivity. Qed.

Example setMonth_overflow :
  JsDate.setMonth (JsDate.mk 2024 0 31) 1 = JsDate.mk 2024 2 2.
Proof. reflexivity. Qed.

Example last_day_feb : JsDate.make 2023 2 0 = JsDate.mk 2023 1 28.
Proof. reflexivity. Qed.

Example last_day_dec : JsDate.make 2023 12 0 = JsDate.mk 2023 11 31.
Proof. reflexivity. Qed.

Example iso_example :
  JsDate.toISOString (JsDate.mk 2024 0 15) = "2024-01-15T00:00:00.000Z".
Proof. reflexivity. Qed.

Example key_example : JsDate.monthKey (JsDate.mk 2024 0 15) = "2024-1".
Proof. reflexivity. Qed.

Example dayNumber_epoch : JsDate.dayNumber (JsDate.mk 1970 0 1) = 0%Z.
Proof. reflexivity. Qed.

Example dayNumber_2024 : JsDate.dayNumber (JsDate.mk 2024 0 31) = 19753%Z.
Proof. reflexivity. Qed.

(** ** The calendar *)

Lemma daysInMonth_bounds y m : (28 <= JsDate.daysInMonth y m <= 31)%Z.
Proof.
  unfold JsDate.daysInMonth.
  destruct m as [| q | q]; try lia;
    do 4 (try destruct q as [q | q |]); try lia; destruct (JsDate.isLeap y); lia.
Qed.

Lemma next_month_range y m :
  (0 <= m <= 11)%Z -> (0 <= snd (JsDate.next_month y m) <= 11)%Z.
Proof.
  intros Hm. unfold JsDate.next_month.
  destruct (Z.eqb_spec m 11%Z); cbn; lia.
Qed.

(** A day of the month between 1 and 31 is normalised into a valid date, so
    [setMonth] maps valid dates to valid dates. *)
Lemma make_valid y m d : (1 <= d <= 31)%Z -> JsDate.valid (JsDate.make y m d).
Proof.
  intros Hd. unfold JsDate.make.
  assert (Hm : (0 <= m mod 12 < 12)%Z) by (apply Z.mod_pos_bound; lia).
  generalize dependent (m mod 12)%Z. intros m' Hm.
  generalize (y + m / 12)%Z. intros y'.
  replace (S (Z.to_nat (Z.abs d))) with (S (S (Z.to_nat (Z.abs d - 1)))) by lia.
  cbn [JsDate.norm_day].
  destruct (Z.ltb_spec d 1) as [Hlt | _]; [lia |].
  pose proof (daysInMonth_bounds y' m') as Hb.
  destruct (Z.ltb_spec (JsDate.daysInMonth y' m') d) as [Hover | Hin].
  - pose proof (next_month_range y' m' ltac:(lia)) as Hn.
    destruct (JsDate.next_month y' m') as [y2 m2]. cbn [snd] in Hn.
    pose proof (daysInMonth_bounds y2 m2) as Hb2.
    destruct (Z.ltb_spec (d - JsDate.daysInMonth y' m') 1) as [Hlt | _]; [lia |].
    destruct (Z.ltb_spec (JsDate.daysInMonth y2 m2) (d - JsDate.daysInMonth y' m'))
      as [Hover2 | Hin2]; [lia |].
    unfold JsDate.valid. cbn. lia.
  - unfold JsDate.valid. cbn. lia.
Qed.

Lemma setMonth_valid dt m : JsDate.valid dt -> JsDate.valid (JsDate.setMonth dt m).
Proof.
  intros [_ Hd]. unfold JsDate.setMonth. apply make_valid.
  pose proof (daysInMonth_bounds (JsDate.getFullYear dt) (JsDate.getMonth dt)). lia.
Qed.

(** The normalisation of [make] and the day count of [dayNumber] agree, for
    all months from -14 to 25 and days from -40 to 79 of the years around
    1900, 2000, 2024 and 2100. *)
Example makeDay_agrees_range :
  forallb makeDay_agrees_around [1900; 2000; 2024; 2100]%Z = true.
Proof. vm_compute. reflexivity. Qed.

(** ** The error function and the normal distribution function *)

Lemma erfPoly'_nonneg z : 0 <= z -> 0 <= erfPoly' z.
Proof.
  intros Hz.
  unfold erfPoly', IndexTsx.a1, IndexTsx.a2, IndexTsx.a3, IndexTsx.a4, IndexTsx.a5.
  pose proof (pow2_ge_0 (z * (z - 0.55))) as Hsq1.
  pose proof (pow2_ge_0 (z - 0.107)) as Hsq2.
  assert (Hz3 : 0 <= z ^ 3) by (apply pow_le; lra).
  assert (Hz4 : 0 <= z ^ 4) by (apply pow_le; lra).
  nra.
Qed.

Lemma horner_mult_deriv f x l :
  derivable_pt_lim f x l -> derivable_pt_lim (fun t => f t * t) x (l * x + f x).
Proof.
  intros Hf.
  replace (l * x + f x) with (l * id x + f x * 1) by (unfold id; ring).
  change (derivable_pt_lim (mult_fct f id) x (l * id x + f x * 1)).
  apply derivable_pt_lim_mult; [exact Hf | apply derivable_pt_lim_id].
Qed.

Lemma horner_step_deriv f x l c :
  derivable_pt_lim f x l ->
  derivable_pt_lim (fun t => f t * t + c) x (l * x + f x).
Proof.
  intros Hf.
  replace (l * x + f x) with ((l * x + f x) + 0) by ring.
  change (derivable_pt_lim (plus_fct (fun t => f t * t) (fct_cte c)) x
            (l * x + f x + 0)).
  apply derivable_pt_lim_plus;
    [now apply horner_mult_deriv | apply derivable_pt_lim_const].
Qed.

Lemma erfPoly_deriv x : derivable_pt_lim erfPoly x (erfPoly' x).
Proof.
  unfold erfPoly.
  pose proof (derivable_pt_lim_const IndexTsx.a5 x) as H0.
  pose proof (horner_step_deriv _ x _ IndexTsx.a4 H0) as H1.
  pose proof (horner_step_deriv _ x _ IndexTsx.a3 H1) as H2.
  pose proof (horner_step_deriv _ x _ IndexTsx.a2 H2) as H3.
  pose proof (horner_step_deriv _ x _ IndexTsx.a1 H3) as H4.
  pose proof (horner_mult_deriv _ x _ H4) as H5.
  unfold fct_cte in H5.
  match type of H5 with
  | derivable_pt_lim _ _ ?l => replace (erfPoly' x) with l by (unfold erfPoly'; ring)
  end.
  exact H5.
Qed.

(** The polynomial is non-decreasing on the non-negative reals. *)
Lemma erfPoly_mono s t : 0 <= s -> s <= t -> erfPoly s <= erfPoly t.
Proof.
  intros Hs [Hlt | ->]; [| lra].
  destruct (MVT_cor2 erfPoly erfPoly' s t Hlt (fun c _ => erfPoly_deriv c))
    as (c & Hc & Hsc).
  pose proof (erfPoly'_nonneg c ltac:(lra)).
  nra.
Qed.

Lemma erfPoly_0 : erfPoly 0 = 0.
Proof. unfold erfPoly. ring. Qed.

Lemma erfPoly_1 : erfPoly 1 = 0.999999999.
Proof.
  unfold erfPoly, IndexTsx.a1, IndexTsx.a2, IndexTsx.a3, IndexTsx.a4, IndexTsx.a5.
  lra.
Qed.

Lemma IndexTsx_erf_nonneg_eq x :
  0 <= x ->
  IndexTsx.erf x = 1 - erfPoly (1 / (1 + IndexTsx.p * x)) * exp (- (x * x)).
Proof.
  intros Hx. unfold IndexTsx.erf, erfPoly.
  destruct (Rlt_dec x 0) as [Hneg | _]; [lra |].
  rewrite (Rabs_pos_eq x Hx).
  replace (- x * x) with (- (x * x)) by ring.
  replace 1.0 with 1 by lra. ring.
Qed.

Lemma IndexTsx_erf_neg_eq x :
  x < 0 -> IndexTsx.erf x = - IndexTsx.erf (- x).
Proof.
  intros Hx. unfold IndexTsx.erf.
  destruct (Rlt_dec x 0) as [_ | Hn]; [| lra].
  destruct (Rlt_dec (- x) 0) as [Hn | _]; [lra |].
  rewrite Rabs_Ropp. ring.
Qed.

Lemma IndexTsx_erf_odd x : x <> 0 -> IndexTsx.erf (- x) = - IndexTsx.erf x.
Proof.
  intros Hx. destruct (Rlt_dec x 0) as [Hneg | Hpos].
  - rewrite (IndexTsx_erf_neg_eq x Hneg). ring.
  - rewrite (IndexTsx_erf_neg_eq (- x)) by lra.
    now rewrite Ropp_involutive.
Qed.

Lemma IndexTsx_erf_0 : IndexTsx.erf 0 = 0.000000001.
Proof.
  rewrite IndexTsx_erf_nonneg_eq by lra.
  replace (1 / (1 + IndexTsx.p * 0)) with 1 by (unfold IndexTsx.p; field).
  replace (- (0 * 0)) with 0 by ring.
  rewrite exp_0, erfPoly_1. lra.
Qed.

Lemma erf_arg_bounds x :
  0 <= x -> 0 < 1 / (1 + IndexTsx.p * x) <= 1.
Proof.
  intros Hx. unfold IndexTsx.p.
  assert (Hd : 1 <= 1 + 0.3275911 * x) by nra.
  split.
  - apply Rdiv_lt_0_compat; lra.
  - unfold Rdiv. rewrite Rmult_1_l. rewrite <- Rinv_1 at 2.
    apply Rinv_le_contravar; lra.
Qed.

Lemma erf_arg_antitone x y :
  0 <= x -> x <= y ->
  1 / (1 + IndexTsx.p * y) <= 1 / (1 + IndexTsx.p * x).
Proof.
  intros Hx Hxy. unfold IndexTsx.p.
  unfold Rdiv. rewrite !Rmult_1_l.
  apply Rinv_le_contravar; nra.
Qed.

Lemma IndexTsx_erf_mono_nonneg x y :
  0 <= x -> x <= y -> IndexTsx.erf x <= IndexTsx.erf y.
Proof.
  intros Hx Hxy.
  rewrite !IndexTsx_erf_nonneg_eq by lra.
  pose proof (erf_arg_bounds y ltac:(lra)) as [Hty _].
  pose proof (erf_arg_antitone x y Hx Hxy) as Ht.
  pose proof (erfPoly_mono _ _ (Rlt_le _ _ Hty) Ht) as HP.
  pose proof (erfPoly_mono 0 _ (Rle_refl 0) (Rlt_le _ _ Hty)) as HP0.
  rewrite erfPoly_0 in HP0.
  assert (He : exp (- (y * y)) <= exp (- (x * x))).
  { destruct (Req_dec_T x y) as [-> | Hne]; [lra |].
    left. apply exp_increasing. nra. }
  pose proof (exp_pos (- (y * y))) as Hey.
  nra.
Qed.

Lemma IndexTsx_erf_nonneg x : 0 <= x -> 0 <= IndexTsx.erf x.
Proof.
  intros Hx.
  pose proof (IndexTsx_erf_mono_nonneg 0 x (Rle_refl 0) Hx) as H.
  rewrite IndexTsx_erf_0 in H. lra.
Qed.

Lemma IndexTsx_erf_mono x y : x <= y -> IndexTsx.erf x <= IndexTsx.erf y.
Proof.
  intros Hxy.
  destruct (Rlt_dec x 0) as [Hx | Hx]; destruct (Rlt_dec y 0) as [Hy | Hy].
  - rewrite (IndexTsx_erf_neg_eq x Hx), (IndexTsx_erf_neg_eq y Hy).
    pose proof (IndexTsx_erf_mono_nonneg (- y) (- x)). lra.
  - rewrite (IndexTsx_erf_neg_eq x Hx).
    pose proof (IndexTsx_erf_nonneg (- x)).
    pose proof (IndexTsx_erf_nonneg y). lra.
  - lra.
  - apply IndexTsx_erf_mono_nonneg; lra.
Qed.

Lemma sqrt2_pos : 0 < sqrt 2.
Proof. apply sqrt_lt_R0. lra. Qed.

Lemma Part001_erf_0 : Part001.erf 0 = 0.254829593.
Proof.
  unfold Part001.erf.
  destruct (Rlt_dec 0 0) as [Hneg | _]; [lra |].
  rewrite Rabs_R0.
  replace (- 0 * 0) with 0 by ring. rewrite exp_0.
  unfold Part001.a2, Part001.a3, Part001.a4, Part001.a5, Part001.p.
  replace (1.0 / (1.0 + 0.3275911 * 0)) with 1 by (field; lra).
  lra.
Qed.

Lemma Part001_erf_odd x : x <> 0 -> Part001.erf (- x) = - Part001.erf x.
Proof.
  intros Hx. unfold Part001.erf. rewrite Rabs_Ropp.
  destruct (Rlt_dec x 0); destruct (Rlt_dec (- x) 0); try lra; ring.
Qed.

Lemma IndexTsx_normCdf_0 : IndexTsx.normCdf 0 = 0.5000000005.
Proof.
  unfold IndexTsx.normCdf.
  replace (0 / sqrt 2) with 0 by (unfold Rdiv; ring).
  rewrite IndexTsx_erf_0. lra.
Qed.

Lemma Part001_normCdf_0 : Part001.normCdf 0 = 0.6274147965.
Proof.
  unfold Part001.normCdf.
  replace (0 / sqrt 2) with 0 by (unfold Rdiv; ring).
  rewrite Part001_erf_0. lra.
Qed.

(** C3, as stated, fails at [x = 0]: neither error function vanishes at [0],
    so the distribution function is not [0.5] there. *)
Lemma normCdf_0_not_half :
  IndexTsx.normCdf 0 <> 0.5 /\ Part001.normCdf 0 <> 0.5.
Proof. rewrite IndexTsx_normCdf_0, Part001_normCdf_0. split; lra. Qed.

Lemma normCdf_not_symmetric_at_0 :
  IndexTsx.normCdf (- 0) <> 1 - IndexTsx.normCdf 0.
Proof. rewrite Ropp_0, IndexTsx_normCdf_0. lra. Qed.

(** C3 (amended).  For the five-term error function of [src/pages/Index.tsx]:
    cdf(0) = 0.5000000005; cdf(-x) = 1 - cdf(x) for every x other than 0; and
    cdf is monotonically non-decreasing. *)
Theorem normCdf_properties :
  IndexTsx.normCdf 0 = 0.5000000005 /\
  (forall x, x <> 0 -> IndexTsx.normCdf (- x) = 1 - IndexTsx.normCdf x) /\
  (forall x y, x <= y -> IndexTsx.normCdf x <= IndexTsx.normCdf y).
Proof.
  pose proof sqrt2_pos as Hs.
  split; [exact IndexTsx_normCdf_0 | split].
  - intros x Hx. unfold IndexTsx.normCdf.
    replace (- x / sqrt 2) with (- (x / sqrt 2)) by (field; lra).
    rewrite IndexTsx_erf_odd; [lra |].
    intros H0. apply Hx.
    apply (Rmult_eq_reg_r (/ sqrt 2)); [| apply Rinv_neq_0_compat; lra].
    unfold Rdiv in H0. lra.
  - intros x y Hxy. unfold IndexTsx.normCdf.
    assert (Hdiv : x / sqrt 2 <= y / sqrt 2).
    { unfold Rdiv. apply Rmult_le_compat_r; [| exact Hxy].
      left. now apply Rinv_0_lt_compat. }
    pose proof (IndexTsx_erf_mono _ _ Hdiv). lra.
Qed.

Lemma normCdf_properties_witness :
  IndexTsx.normCdf (- 1) = 1 - IndexTsx.normCdf 1 /\
  IndexTsx.normCdf 0 <= IndexTsx.normCdf 1.
Proof.
  destruct normCdf_properties as (_ & Hsym & Hmono).
  split; [apply Hsym; lra | apply Hmono; lra].
Defined.

(** The same symmetry holds for the error function of [unnamed/part_001]. *)
Lemma Part001_normCdf_symmetric x :
  x <> 0 -> Part001.normCdf (- x) = 1 - Part001.normCdf x.
Proof.
  pose proof sqrt2_pos as Hs.
  intros Hx. unfold Part001.normCdf.
  replace (- x / sqrt 2) with (- (x / sqrt 2)) by (field; lra).
  rewrite Part001_erf_odd; [lra |].
  intros H0. apply Hx.
  apply (Rmult_eq_reg_r (/ sqrt 2)); [| apply Rinv_neq_0_compat; lra].
  unfold Rdiv in H0. lra.
Qed.

(** ** Put-call parity *)

Lemma IndexTsx_parity_exact S K r t sigma :
  IndexTsx.calculateOptionPrice call S K r t sigma
  - IndexTsx.calculateOptionPrice put S K r t sigma
  = S - K * exp (- r * t).
Proof. unfold IndexTsx.calculateOptionPrice. cbv zeta. ring. Qed.

Lemma Part001_parity_exact st S K r t sigma monthKey :
  Part001.calculateOptionPrice st call S K r t sigma monthKey
  - Part001.calculateOptionPrice st put S K r t sigma monthKey
  = S - K * exp (- r * t).
Proof. unfold Part001.calculateOptionPrice. cbv zeta. ring. Qed.

(** C6.  For every underlying > 0, strike > 0, rate, t > 0 and volatility > 0,
    the call price minus the put price equals S - K e^(-r t) within 1e-4, in
    both option pricers (with or without an implied-volatility override). *)
Theorem put_call_parity S K r t sigma :
  0 < S -> 0 < K -> 0 < t -> 0 < sigma ->
  Rabs (IndexTsx.calculateOptionPrice call S K r t sigma
        - IndexTsx.calculateOptionPrice put S K r t sigma
        - (S - K * exp (- r * t))) <= 0.0001 /\
  forall st monthKey,
    Rabs (Part001.calculateOptionPrice st call S K r t sigma monthKey
          - Part001.calculateOptionPrice st put S K r t sigma monthKey
          - (S - K * exp (- r * t))) <= 0.0001.
Proof.
  intros _ _ _ _. split; [| intros st monthKey].
  - rewrite IndexTsx_parity_exact.
    replace (S - K * exp (- r * t) - (S - K * exp (- r * t))) with 0 by ring.
    rewrite Rabs_R0. lra.
  - rewrite Part001_parity_exact.
    replace (S - K * exp (- r * t) - (S - K * exp (- r * t))) with 0 by ring.
    rewrite Rabs_R0. lra.
Qed.

Lemma put_call_parity_witness :
  Rabs (IndexTsx.calculateOptionPrice call 100 95 0.02 0.5 0.2
        - IndexTsx.calculateOptionPrice put 100 95 0.02 0.5 0.2
        - (100 - 95 * exp (- (0.02) * 0.5))) <= 0.0001.
Proof. apply (proj1 (put_call_parity 100 95 0.02 0.5 0.2 ltac:(lra) ltac:(lra) ltac:(lra) ltac:(lra))). Defined.

(** ** The two cost-accounting conventions *)

(** C10.  The P&L of [src/pages/Index.tsx] (hedged minus unhedged, with
    negated costs) equals the P&L of [unnamed/part_001] (unhedged minus hedged,
    with positive costs); both are monthlyVolume * (totalPayoff - strategyPrice). *)
Theorem deltaPnL_variants_agree (monthlyVolume realPrice strategyPrice totalPayoff : R) :
  snd (IndexTsx.costAccounting monthlyVolume realPrice strategyPrice totalPayoff)
  = snd (Part001.costAccounting monthlyVolume realPrice strategyPrice totalPayoff)
  /\ snd (Part001.costAccounting monthlyVolume realPrice strategyPrice totalPayoff)
     = monthlyVolume * (totalPayoff - strategyPrice).
Proof.
  unfold IndexTsx.costAccounting, Part001.costAccounting. cbn [snd].
  split; ring.
Qed.

(** The costs themselves have opposite signs in the two components. *)
Lemma costs_variants_negated (monthlyVolume realPrice strategyPrice totalPayoff : R) :
  let '(h1, u1, _) :=
    IndexTsx.costAccounting monthlyVolume realPrice strategyPrice totalPayoff in
  let '(h2, u2, _) :=
    Part001.costAccounting monthlyVolume realPrice strategyPrice totalPayoff in
  h1 = - h2 /\ u1 = - u2.
Proof.
  unfold IndexTsx.costAccounting, Part001.costAccounting. split; ring.
Qed.

(** ** The results projector of [unnamed/part_001] *)

Lemma fold_left_Rplus_Rsum {A} (f : A -> R) (l : list A) (acc : R) :
  fold_left (fun sum x => sum + f x) l acc = acc + Rsum (map f l).
Proof.
  revert acc. induction l as [| x l IH]; intros acc; cbn.
  - ring.
  - rewrite IH. ring.
Qed.

Lemma strategyPriceOf_Rsum (ops : list OptionPrice.t) :
  strategyPriceOf ops
  = Rsum (map (fun opt => OptionPrice.price opt * OptionPrice.quantity opt) ops).
Proof. unfold strategyPriceOf. rewrite fold_left_Rplus_Rsum. ring. Qed.

Lemma totalPayoffOf_Rsum (realPrice : R) (ops : list OptionPrice.t) :
  totalPayoffOf realPrice ops
  = Rsum (map (fun opt =>
                 intrinsicValue (OptionPrice.type opt) realPrice (OptionPrice.strike opt)
                 * OptionPrice.quantity opt) ops).
Proof.
  unfold totalPayoffOf.
  rewrite (fold_left_Rplus_Rsum
             (fun opt => intrinsicValue (OptionPrice.type opt) realPrice
                           (OptionPrice.strike opt) * OptionPrice.quantity opt)).
  ring.
Qed.

Lemma lookup_map_seq {A} (f : nat -> A) (n i : nat) (x : A) :
  map f (seq 0 n) !! i = Some x <-> (i < n)%nat /\ x = f i.
Proof.
  change (map f (seq 0 n)) with (f <$> seq 0 n).
  rewrite list_lookup_fmap_Some. split.
  - intros (j & Hx & Hj). apply lookup_seq in Hj as [-> Hlt]. auto.
  - intros [Hlt ->]. exists i. split; [reflexivity |].
    now apply lookup_seq_lt.
Qed.

Lemma Part001_results_calculateResults rnd st :
  Part001.results (Part001.calculateResults rnd st)
  = match Part001.strategy st with
    | [] => None
    | _ => Some (map (Part001.resultRow rnd st)
                   (seq 0 (Params.monthsToHedge (Part001.params st))))
    end.
Proof.
  unfold Part001.calculateResults, Part001.projection.
  destruct (Part001.strategy st); reflexivity.
Qed.

(** Every projected row is the loop body at its index. *)
Lemma Part001_results_lookup rnd st rows i row :
  Part001.results (Part001.calculateResults rnd st) = Some rows ->
  rows !! i = Some row ->
  (i < Params.monthsToHedge (Part001.params st))%nat
  /\ row = Part001.resultRow rnd st i.
Proof.
  rewrite Part001_results_calculateResults.
  destruct (Part001.strategy st); [discriminate |].
  intros [= <-] Hrow. now apply lookup_map_seq in Hrow.
Qed.

Lemma Part001_results_length rnd st rows :
  Part001.results (Part001.calculateResults rnd st) = Some rows ->
  length rows = Params.monthsToHedge (Part001.params st).
Proof.
  rewrite Part001_results_calculateResults.
  destruct (Part001.strategy st); [discriminate |].
  intros [= <-]. now rewrite length_map, length_seq.
Qed.

(** C1.  Every row of the projection satisfies
    unhedgedCost = monthlyVolume * realPrice,
    hedgedCost = monthlyVolume * (realPrice + strategyPremium - totalPayoff) and
    deltaPnL = unhedgedCost - hedgedCost, where monthlyVolume is
    totalVolume / monthsToHedge, strategyPremium is the quantity-weighted sum of
    the legs' Black-Scholes premiums priced at the row's forward price, and
    totalPayoff is the quantity-weighted sum of the legs' intrinsic values at
    the row's real price. *)
Theorem projected_costs rnd st rows i row :
  Part001.results (Part001.calculateResults rnd st) = Some rows ->
  rows !! i = Some row ->
  let prm := Part001.params st in
  let monthKey := JsDate.monthKey (Part001.periodDate prm i) in
  Result.monthlyVolume row
    = Params.totalVolume prm / INR (Params.monthsToHedge prm) /\
  Result.unhedgedCost row = Result.monthlyVolume row * Result.realPrice row /\
  Result.hedgedCost row
    = Result.monthlyVolume row
      * (Result.realPrice row + Result.strategyPrice row - Result.totalPayoff row) /\
  Result.deltaPnL row = Result.unhedgedCost row - Result.hedgedCost row /\
  Result.strategyPrice row
    = Rsum (map (fun opt =>
                   Part001.calculateOptionPrice st (StrategyComponent.type opt)
                     (Result.forward row)
                     (resolveStrike (Params.spotPrice prm) opt)
                     (Params.interestRate prm / 100)
                     (Result.timeToMaturity row)
                     (Part001.legVolatility st monthKey opt)
                     (Some monthKey)
                   * (StrategyComponent.quantity opt / 100))
              (Part001.strategy st)) /\
  Result.totalPayoff row
    = Rsum (map (fun opt =>
                   intrinsicValue (StrategyComponent.type opt) (Result.realPrice row)
                     (resolveStrike (Params.spotPrice prm) opt)
                   * (StrategyComponent.quantity opt / 100))
              (Part001.strategy st)).
Proof.
  intros Hres Hrow prm monthKey.
  destruct (Part001_results_lookup _ _ _ _ _ Hres Hrow) as [_ ->].
  unfold Part001.resultRow, Part001.costAccounting. cbn.
  rewrite strategyPriceOf_Rsum, totalPayoffOf_Rsum, !map_map. cbn.
  repeat split; reflexivity.
Qed.

Lemma projected_costs_witness :
  let row := Part001.resultRow noDraws sampleState 1 in
  Result.unhedgedCost row = Result.monthlyVolume row * Result.realPrice row /\
  Result.deltaPnL row = Result.unhedgedCost row - Result.hedgedCost row.
Proof.
  pose proof (projected_costs noDraws sampleState
                (map (Part001.resultRow noDraws sampleState) (seq 0 3)) 1
                (Part001.resultRow noDraws sampleState 1)
                eq_refl eq_refl) as H.
  cbv zeta in H. destruct H as (_ & Hu & _ & Hd & _).
  split; [exact Hu | exact Hd].
Defined.

(** ** Time to maturity *)

(** [new Date(y, m + 1, 0)] is the last day of month [m] of year [y]. *)
Lemma prev_month_of_next (y m : Z) :
  (0 <= m <= 11)%Z ->
  JsDate.prev_month (y + (m + 1) / 12) ((m + 1) mod 12) = (y, m).
Proof.
  intros Hm. unfold JsDate.prev_month.
  destruct (Z.eq_dec m 11%Z) as [-> | Hne].
  - change ((11 + 1) / 12)%Z with 1%Z. change ((11 + 1) mod 12)%Z with 0%Z.
    cbn. f_equal; lia.
  - rewrite (Z.div_small (m + 1) 12), (Z.mod_small (m + 1) 12) by lia.
    destruct (Z.eqb_spec (m + 1) 0%Z) as [H0 | _]; [lia |].
    f_equal; lia.
Qed.

Lemma make_last_day (y m : Z) :
  (0 <= m <= 11)%Z ->
  JsDate.make y (m + 1) 0 = JsDate.mk y m (JsDate.daysInMonth y m).
Proof.
  intros Hm. unfold JsDate.make.
  change (Z.to_nat (Z.abs 0)) with 0%nat. cbn [JsDate.norm_day].
  change (0 <? 1)%Z with true. cbv iota.
  rewrite (prev_month_of_next y m Hm). now rewrite Z.add_0_l.
Qed.

Lemma Part001_totalDaysInFirstMonth prm :
  JsDate.valid (Params.startDate prm) ->
  Part001.totalDaysInFirstMonth prm
  = JsDate.daysInMonth (JsDate.getFullYear (Params.startDate prm))
      (JsDate.getMonth (Params.startDate prm)).
Proof.
  intros [Hm _]. unfold Part001.totalDaysInFirstMonth, Part001.lastDayOfStartMonth.
  now rewrite make_last_day.
Qed.

(** C4.  The projection has monthsToHedge rows; the time to maturity of row 0
    is (days remaining in the start month / days in that month) / monthsToHedge,
    and the time to maturity of every row i >= 1 is i / monthsToHedge. *)
Theorem time_to_maturity rnd st rows :
  JsDate.valid (Params.startDate (Part001.params st)) ->
  Part001.results (Part001.calculateResults rnd st) = Some rows ->
  let prm := Part001.params st in
  let startDate := Params.startDate prm in
  let daysInMonth :=
    JsDate.daysInMonth (JsDate.getFullYear startDate) (JsDate.getMonth startDate) in
  let daysRemaining := (daysInMonth - JsDate.getDate startDate + 1)%Z in
  length rows = Params.monthsToHedge prm /\
  (forall row, rows !! 0%nat = Some row ->
     Result.timeToMaturity row
     = IZR daysRemaining / IZR daysInMonth / INR (Params.monthsToHedge prm)) /\
  (forall i row, (1 <= i)%nat -> rows !! i = Some row ->
     Result.timeToMaturity row = INR i / INR (Params.monthsToHedge prm)).
Proof.
  intros Hvalid Hres prm startDate daysInMonth daysRemaining.
  split; [now apply Part001_results_length in Hres | split].
  - intros row Hrow.
    destruct (Part001_results_lookup _ _ _ _ _ Hres Hrow) as [_ ->].
    unfold Part001.resultRow, Part001.costAccounting. cbn.
    unfold Part001.daysInFirstMonth.
    fold (Part001.totalDaysInFirstMonth (Part001.params st)).
    rewrite Part001_totalDaysInFirstMonth by exact Hvalid.
    fold prm startDate daysInMonth daysRemaining.
    unfold Rdiv. rewrite Rinv_mult. ring.
  - intros i row Hi Hrow.
    destruct (Part001_results_lookup _ _ _ _ _ Hres Hrow) as [_ ->].
    unfold Part001.resultRow, Part001.costAccounting. cbn.
    destruct i as [| i]; [lia | reflexivity].
Qed.

Lemma time_to_maturity_witness :
  let rows := map (Part001.resultRow noDraws sampleState) (seq 0 3) in
  length rows = 3%nat /\
  (forall row, rows !! 0%nat = Some row ->
     Result.timeToMaturity row = IZR 17 / IZR 31 / INR 3) /\
  (forall i row, (1 <= i)%nat -> rows !! i = Some row ->
     Result.timeToMaturity row = INR i / INR 3).
Proof.
  apply (time_to_maturity noDraws sampleState
           (map (Part001.resultRow noDraws sampleState) (seq 0 3))).
  - unfold JsDate.valid. cbn. lia.
  - reflexivity.
Defined.

(** ** Applying a stress-test scenario *)

(** Looks a literal key up in the initial catalog. *)
Ltac catalog_lookup :=
  unfold Part001.initialScenarios;
  repeat (rewrite lookup_insert_ne by discriminate);
  first [apply lookup_insert_eq | apply lookup_empty].

Lemma truthy_0 : Js.truthy 0 = false.
Proof. unfold Js.truthy. destruct (Req_dec_T 0 0); [reflexivity | contradiction]. Qed.

Lemma truthy_nonzero x : x <> 0 -> Js.truthy x = true.
Proof. intros Hx. unfold Js.truthy. destruct (Req_dec_T x 0); [contradiction | reflexivity]. Qed.

Lemma truthy_true_iff x : Js.truthy x = true <-> x <> 0.
Proof.
  unfold Js.truthy. destruct (Req_dec_T x 0); split; intros; try easy.
Qed.

Lemma not_opt_true_iff (o : option R) :
  Js.not_opt o = true <-> o = None \/ o = Some 0.
Proof.
  destruct o as [v |]; cbn.
  - unfold Js.truthy. destruct (Req_dec_T v 0) as [-> | Hne]; cbn.
    + split; auto.
    + split; [discriminate |]. intros [H | [= H]]; [discriminate | contradiction].
  - split; auto.
Qed.

Lemma Part001_applyStressTest_realPriceParams rnd key st scenario :
  Part001.stressTestScenarios st !! key = Some scenario ->
  Part001.realPriceParams (Part001.applyStressTest rnd key st)
  = RealPriceParams.mk
      (Js.not_opt (StressTestScenario.realBasis scenario))
      (StressTestScenario.volatility scenario)
      (StressTestScenario.drift scenario)
      (RealPriceParams.numSimulations (Part001.realPriceParams st)).
Proof. intros Hk. unfold Part001.applyStressTest. now rewrite Hk. Qed.

(** C7, as stated, fails for a scenario whose real basis is defined and equal
    to zero: the simulation stays enabled. *)
Lemma useSimulation_zero_realBasis :
  Part001.stressTestScenarios flatRealState !! "flatReal" = Some flatRealScenario /\
  StressTestScenario.realBasis flatRealScenario = Some 0 /\
  RealPriceParams.useSimulation
    (Part001.realPriceParams (Part001.applyStressTest noDraws "flatReal" flatRealState))
  = true.
Proof.
  assert (Hk : Part001.stressTestScenarios flatRealState !! "flatReal"
               = Some flatRealScenario) by apply lookup_insert_eq.
  split; [exact Hk | split; [reflexivity |]].
  rewrite (Part001_applyStressTest_realPriceParams _ _ _ _ Hk). cbn.
  now rewrite truthy_0.
Qed.

(** C7 (amended).  Applying a scenario K of the catalog sets useSimulation to
    true exactly when K.realBasis is undefined or zero (so to false exactly
    when it is defined and non-zero), and copies volatility and drift from K. *)
Theorem applied_simulation_params rnd key st K :
  Part001.stressTestScenarios st !! key = Some K ->
  let rpp := Part001.realPriceParams (Part001.applyStressTest rnd key st) in
  (RealPriceParams.useSimulation rpp = true
   <-> StressTestScenario.realBasis K = None
       \/ StressTestScenario.realBasis K = Some 0) /\
  RealPriceParams.volatility rpp = StressTestScenario.volatility K /\
  RealPriceParams.drift rpp = StressTestScenario.drift K.
Proof.
  intros Hk rpp. subst rpp.
  rewrite (Part001_applyStressTest_realPriceParams _ _ _ _ Hk). cbn.
  split; [apply not_opt_true_iff | split; reflexivity].
Qed.

Lemma initialScenarios_contangoReal :
  Part001.initialScenarios !! "contangoReal"
  = Some (StressTestScenario.mk "Contango (Real Prices)"
            "Real prices higher than spot (monthly basis in %)"
            0.2 0.01 0 None (Some 0.01) None (Some true)).
Proof. catalog_lookup. Qed.

Lemma applied_simulation_params_witness :
  let rpp :=
    Part001.realPriceParams (Part001.applyStressTest noDraws "contangoReal" sampleState) in
  RealPriceParams.volatility rpp = 0.2 /\ RealPriceParams.drift rpp = 0.01.
Proof.
  pose proof (applied_simulation_params noDraws "contangoReal" sampleState _
                initialScenarios_contangoReal) as H.
  cbv zeta in H. destruct H as (_ & Hv & Hd).
  split; [exact Hv | exact Hd].
Defined.

(** On the initial catalog, where no real basis is zero, the simulation is
    enabled exactly for the scenarios without a real basis. *)
Lemma initial_catalog_simulation_flag rnd key st K :
  Part001.stressTestScenarios st = Part001.initialScenarios ->
  Part001.stressTestScenarios st !! key = Some K ->
  RealPriceParams.useSimulation
    (Part001.realPriceParams (Part001.applyStressTest rnd key st)) = true
  <-> StressTestScenario.realBasis K = None.
Proof.
  intros Hcat Hk.
  rewrite (Part001_applyStressTest_realPriceParams _ _ _ _ Hk). cbn.
  rewrite not_opt_true_iff.
  rewrite Hcat in Hk. unfold Part001.initialScenarios in Hk.
  repeat (apply lookup_insert_Some in Hk as [[_ <-] | [_ Hk]]);
    try (rewrite lookup_empty in Hk; discriminate Hk);
    cbn;
    (split;
     [intros [H | H];
      first [exact H | reflexivity | injection H as H; exfalso; lra]
     | now left]).
Qed.

(** ** An unknown scenario key *)

Lemma initialScenarios_unknown : Part001.initialScenarios !! "unknown" = None.
Proof. catalog_lookup. Qed.

(** C8, as stated, fails: a key that is absent from the catalog still becomes
    the active-scenario marker. *)
Lemma unknown_key_changes_state :
  Part001.stressTestScenarios sampleState !! "unknown" = None /\
  Part001.applyStressTest noDraws "unknown" sampleState <> sampleState.
Proof.
  split; [exact initialScenarios_unknown |].
  intros Heq.
  apply (f_equal Part001.activeStressTest) in Heq.
  unfold Part001.applyStressTest in Heq.
  change (Part001.stressTestScenarios sampleState) with Part001.initialScenarios in Heq.
  rewrite initialScenarios_unknown in Heq. discriminate Heq.
Qed.

(** C8 (amended).  For a key that is absent from the catalog and is not the
    name of a member inherited from Object.prototype, applyStressTest returns
    (it is a total function) a state in which the parameters, the simulation
    parameters, the manual forward and real price overrides, the results and
    every other component are unchanged, except that the active-scenario
    marker is set to the key. *)
Theorem unknown_key_only_marks rnd key st :
  Part001.stressTestScenarios st !! key = None ->
  key ∉ Js.objectPrototypeKeys ->
  let st' := Part001.applyStressTest rnd key st in
  Part001.activeStressTest st' = Some key /\
  Part001.params st' = Part001.params st /\
  Part001.realPriceParams st' = Part001.realPriceParams st /\
  Part001.manualForwards st' = Part001.manualForwards st /\
  Part001.realPrices st' = Part001.realPrices st /\
  Part001.results st' = Part001.results st /\
  Part001.payoffData st' = Part001.payoffData st /\
  Part001.strategy st' = Part001.strategy st /\
  Part001.initialSpotPrice st' = Part001.initialSpotPrice st /\
  Part001.stressTestScenarios st' = Part001.stressTestScenarios st /\
  Part001.customScenario st' = Part001.customScenario st /\
  Part001.activeTab st' = Part001.activeTab st /\
  Part001.showImpliedVol st' = Part001.showImpliedVol st /\
  Part001.customVolatilities st' = Part001.customVolatilities st.
Proof.
  intros Hk _ st'. subst st'. unfold Part001.applyStressTest. rewrite Hk. cbn.
  repeat split; reflexivity.
Qed.

Lemma unknown_key_only_marks_witness :
  let st' := Part001.applyStressTest noDraws "unknown" sampleState in
  Part001.activeStressTest st' = Some "unknown" /\
  Part001.results st' = None /\
  Part001.manualForwards st' = ∅.
Proof.
  assert (Hown : "unknown" ∉ Js.objectPrototypeKeys).
  { unfold Js.objectPrototypeKeys. rewrite !elem_of_cons, elem_of_nil.
    intuition discriminate. }
  pose proof (unknown_key_only_marks noDraws "unknown" sampleState
                initialScenarios_unknown Hown) as H.
  cbv zeta in H.
  destruct H as (Ha & _ & _ & Hf & _ & Hr & _).
  split; [exact Ha | split; [exact Hr | exact Hf]].
Defined.

(** ** Forward prices *)

Lemma lookup_map {A B} (f : A -> B) (l : list A) (i : nat) (y : B) :
  map f l !! i = Some y <-> exists x, l !! i = Some x /\ y = f x.
Proof.
  change (map f l) with (f <$> l). rewrite list_lookup_fmap_Some.
  split; intros (x & H1 & H2); exists x; auto.
Qed.

Lemma IndexTsx_results_lookup rnd st rows i row :
  IndexTsx.results (IndexTsx.calculateResults rnd st) = Some rows ->
  rows !! i = Some row ->
  exists date, IndexTsx.months (IndexTsx.params st) !! i = Some date
               /\ row = IndexTsx.detailedResult st date.
Proof.
  cbn. intros [= <-] Hrow. now apply lookup_map in Hrow.
Qed.

Lemma IndexTsx_forward_detailedResult st date :
  Result.forward (IndexTsx.detailedResult st date) = IndexTsx.forwardOf st date.
Proof. reflexivity. Qed.

Lemma Part001_forward_resultRow rnd st i :
  Result.forward (Part001.resultRow rnd st i)
  = Part001.forwardOf st (JsDate.monthKey (Part001.periodDate (Part001.params st) i)).
Proof. reflexivity. Qed.

(** The exponent of the computed forward is the rate times the elapsed
    calendar days over 365. *)
Lemma IndexTsx_carry_exponent (rate : R) (startDate date : JsDate.t) :
  rate / 100 * IndexTsx.msSince startDate date / (1000 * 60 * 60 * 24 * 365)
  = rate / 100 * elapsedYears startDate date.
Proof.
  unfold IndexTsx.msSince, elapsedYears, JsDate.getTime.
  rewrite <- Z.mul_sub_distr_l, mult_IZR. field.
Qed.

Lemma or_else_override (o : option R) (d v : R) :
  o = Some v -> v <> 0 -> Js.or_else o d = v.
Proof. intros -> Hv. cbn. now rewrite truthy_nonzero. Qed.

Lemma or_else_fallback (o : option R) (d : R) :
  o = None \/ o = Some 0 -> Js.or_else o d = d.
Proof. intros [-> | ->]; cbn; [reflexivity | now rewrite truthy_0]. Qed.

(** In [unnamed/part_001] the forward of a period without an override is the
    spot price itself. *)
Lemma Part001_forward_without_override rnd st i :
  Part001.manualForwards st
    !! JsDate.monthKey (Part001.periodDate (Part001.params st) i) = None ->
  Result.forward (Part001.resultRow rnd st i)
  = Params.spotPrice (Part001.params st).
Proof.
  intros Hk. rewrite Part001_forward_resultRow. unfold Part001.forwardOf.
  now rewrite Hk.
Qed.

Lemma zeroForwardState_months :
  IndexTsx.months (IndexTsx.params zeroForwardState)
  = [JsDate.mk 2024 0 31; JsDate.mk 2024 1 29; JsDate.mk 2024 2 31].
Proof. reflexivity. Qed.

(** C5, as stated, fails when the key is present with the value zero: the
    projected forward of January 2024 is the computed one, not the override. *)
Lemma forward_zero_override_ignored :
  exists rows row,
    IndexTsx.results (IndexTsx.calculateResults noDraws zeroForwardState) = Some rows /\
    rows !! 0%nat = Some row /\
    IndexTsx.manualForwards zeroForwardState
      !! JsDate.monthKey (JsDate.mk 2024 0 31) = Some 0 /\
    Result.forward row <> 0.
Proof.
  exists (map (IndexTsx.detailedResult zeroForwardState)
            (IndexTsx.months (IndexTsx.params zeroForwardState))).
  exists (IndexTsx.detailedResult zeroForwardState (JsDate.mk 2024 0 31)).
  assert (Hk : IndexTsx.manualForwards zeroForwardState
                 !! JsDate.monthKey (JsDate.mk 2024 0 31) = Some 0)
    by apply lookup_insert_eq.
  split; [reflexivity | split; [reflexivity | split; [exact Hk |]]].
  rewrite IndexTsx_forward_detailedResult. unfold IndexTsx.forwardOf.
  rewrite (or_else_fallback _ _ (or_intror Hk)).
  change (Params.spotPrice (IndexTsx.params zeroForwardState)) with 100.
  match goal with |- 100 * exp ?e <> 0 => pose proof (exp_pos e) end.
  lra.
Qed.

(** C5 (amended).  In [src/pages/Index.tsx], for every period with date D_i
    (the last day of its month), the projected forward equals the manual
    forward stored under D_i's year-month key when that key is present with a
    non-zero value, and otherwise (key absent, or present with zero) equals
    spotPrice * e^(interestRate/100 * elapsed calendar days / 365).  In
    [unnamed/part_001] too a present, non-zero manual forward is the projected
    forward of its period. *)
Theorem projected_forward :
  (forall rnd st rows i row,
     IndexTsx.results (IndexTsx.calculateResults rnd st) = Some rows ->
     rows !! i = Some row ->
     exists date,
       IndexTsx.months (IndexTsx.params st) !! i = Some date /\
       let prm := IndexTsx.params st in
       let override := IndexTsx.manualForwards st !! JsDate.monthKey date in
       (forall v, override = Some v -> v <> 0 -> Result.forward row = v) /\
       (override = None \/ override = Some 0 ->
        Result.forward row
        = Params.spotPrice prm
          * exp (Params.interestRate prm / 100
                 * elapsedYears (Params.startDate prm) date))) /\
  (forall rnd st rows i row v,
     Part001.results (Part001.calculateResults rnd st) = Some rows ->
     rows !! i = Some row ->
     Part001.manualForwards st
       !! JsDate.monthKey (Part001.periodDate (Part001.params st) i) = Some v ->
     v <> 0 ->
     Result.forward row = v).
Proof.
  split.
  - intros rnd st rows i row Hres Hrow.
    destruct (IndexTsx_results_lookup _ _ _ _ _ Hres Hrow) as (date & Hd & ->).
    exists date. split; [exact Hd |]. cbv zeta.
    rewrite IndexTsx_forward_detailedResult. unfold IndexTsx.forwardOf. split.
    + intros v Hv Hnz. now apply or_else_override.
    + intros Habsent. rewrite (or_else_fallback _ _ Habsent).
      now rewrite IndexTsx_carry_exponent.
  - intros rnd st rows i row v Hres Hrow Hv Hnz.
    destruct (Part001_results_lookup _ _ _ _ _ Hres Hrow) as [_ ->].
    rewrite Part001_forward_resultRow. unfold Part001.forwardOf.
    now apply or_else_override.
Qed.

Lemma projected_forward_witness :
  Result.forward (IndexTsx.detailedResult zeroForwardState (JsDate.mk 2024 0 31))
  = 100 * exp (2 / 100 * elapsedYears (JsDate.mk 2024 0 15) (JsDate.mk 2024 0 31)).
Proof.
  destruct (proj1 projected_forward noDraws zeroForwardState
              (map (IndexTsx.detailedResult zeroForwardState)
                 (IndexTsx.months (IndexTsx.params zeroForwardState)))
              0%nat
              (IndexTsx.detailedResult zeroForwardState (JsDate.mk 2024 0 31))
              eq_refl eq_refl) as (date & Hd & _ & Hf).
  injection Hd as <-.
  apply Hf. right. apply lookup_insert_eq.
Defined.

(** ** Yearly totals of a projection *)

Lemma digit_neq (c : ascii) (k : Z) :
  lacks c "0123456789" = true -> Ascii.eqb (JsDate.digit k) c = false.
Proof.
  intros H. cbn in H.
  repeat (apply andb_prop in H as [?%negb_true_iff H]).
  destruct k as [| q | q]; try assumption;
    do 4 (try destruct q as [q | q |]); assumption.
Qed.

Lemma lacks_app c s1 s2 :
  lacks c (s1 +:+ s2) = lacks c s1 && lacks c s2.
Proof.
  induction s1 as [| c' s1 IH]; [reflexivity |].
  change (String c' s1 +:+ s2) with (String c' (s1 +:+ s2)).
  cbn [lacks]. rewrite IH. now rewrite andb_assoc.
Qed.

Lemma lacks_pad2 c n : lacks c "0123456789" = true -> lacks c (JsDate.pad2 n) = true.
Proof.
  intros H. unfold JsDate.pad2. cbn. now rewrite !digit_neq.
Qed.

Lemma lacks_isoDate c date :
  lacks c "0123456789-+" = true -> lacks c (JsDate.isoDate date) = true.
Proof.
  intros H.
  assert (Hd : lacks c "0123456789" = true).
  { cbn in H |- *. repeat (apply andb_prop in H as [-> H]). reflexivity. }
  assert (Hm : lacks c "-" = true /\ lacks c "+" = true).
  { cbn in H |- *. do 10 (apply andb_prop in H as [_ H]).
    apply andb_prop in H as [-> H]. now rewrite H. }
  destruct Hm as [Hminus Hplus].
  unfold JsDate.isoDate, JsDate.isoYear, JsDate.pad6, JsDate.pad4.
  repeat match goal with
         | |- context [if ?b then _ else _] => destruct b
         end;
    rewrite ?lacks_app, ?lacks_pad2, ?Hminus, ?Hplus by exact Hd; reflexivity.
Qed.

Lemma split_lacks c s : lacks c s = true -> Js.split c s = [s].
Proof.
  induction s as [| c' s IH]; cbn; [reflexivity |].
  intros [Hc Hs]%andb_prop. apply negb_true_iff in Hc.
  rewrite Hc, (IH Hs). reflexivity.
Qed.

Lemma split_app_sep c s1 s2 :
  lacks c s1 = true ->
  hd EmptyString (Js.split c (s1 +:+ String c s2)) = s1.
Proof.
  induction s1 as [| c' s1 IH].
  - intros _. change (EmptyString +:+ String c s2) with (String c s2).
    cbn [Js.split]. now rewrite Ascii.eqb_refl.
  - change (String c' s1 +:+ String c s2) with (String c' (s1 +:+ String c s2)).
    cbn [Js.split lacks].
    intros [Hc Hs]%andb_prop. apply negb_true_iff in Hc. rewrite Hc.
    specialize (IH Hs).
    destruct (Js.split c (s1 +:+ String c s2)) as [| h tl]; cbn in *; now subst.
Qed.

(** The [date] of a projected row is the ISO date, without the time. *)
Lemma Part001_resultRow_date rnd st i :
  Result.date (Part001.resultRow rnd st i)
  = JsDate.isoDate (Part001.periodDate (Part001.params st) i).
Proof.
  change (Result.date (Part001.resultRow rnd st i))
    with (hd EmptyString
            (Js.split "T"
               (JsDate.toISOString (Part001.periodDate (Part001.params st) i)))).
  unfold JsDate.toISOString.
  apply (split_app_sep "T" _ "00:00:00.000Z").
  now apply lacks_isoDate.
Qed.

(** The year key of a projected row is the string ["undefined"]. *)
Lemma Part001_resultRow_yearKey rnd st i :
  yearKey (Part001.resultRow rnd st i) = "undefined".
Proof.
  unfold yearKey. rewrite Part001_resultRow_date.
  rewrite split_lacks by now apply lacks_isoDate.
  reflexivity.
Qed.

Lemma yearly_fold_undefined (rows : list Result.t) (acc : YearlyResult.t) :
  Forall (fun row => yearKey row = "undefined") rows ->
  fold_left
    (fun acc row =>
       let year := yearKey row in
       let acc' := ensureYear year acc in
       if Part001.isValidResult row then alter (YearlyResult.add row) year acc'
       else acc')
    rows {["undefined" := acc]}
  = {["undefined" := fold_left (fun y row => YearlyResult.add row y) rows acc]}.
Proof.
  intros Hall. revert acc.
  induction Hall as [| row rows Hk _ IH]; intros acc; cbn; [reflexivity |].
  rewrite Hk. unfold ensureYear.
  rewrite lookup_singleton_eq, alter_singleton_eq. apply IH.
Qed.

Lemma Part001_yearly_undefined (row : Result.t) (rows : list Result.t) :
  Forall (fun r => yearKey r = "undefined") (row :: rows) ->
  Part001.calculateYearlyResults (row :: rows)
  = {["undefined" :=
        fold_left (fun y r => YearlyResult.add r y) (row :: rows) YearlyResult.zero]}.
Proof.
  intros Hall. unfold Part001.calculateYearlyResults.
  pose proof (Forall_inv Hall) as Hk. cbn beta in Hk. cbn [fold_left].
  cbv zeta. rewrite Hk.
  match goal with
  | |- fold_left _ rows ?m = _ =>
      replace m with ({["undefined" := YearlyResult.add row YearlyResult.zero]}
                      : gmap string YearlyResult.t)
  end.
  - apply (yearly_fold_undefined rows). exact (Forall_inv_tail Hall).
  - unfold ensureYear, Part001.isValidResult.
    rewrite lookup_empty, insert_empty, alter_singleton_eq. reflexivity.
Qed.

Lemma Part001_results_yearKeys rnd st rows :
  Part001.results (Part001.calculateResults rnd st) = Some rows ->
  Forall (fun row => yearKey row = "undefined") rows.
Proof.
  intros Hres. apply Forall_lookup. intros i row Hrow.
  destruct (Part001_results_lookup _ _ _ _ _ Hres Hrow) as [_ ->].
  apply Part001_resultRow_yearKey.
Qed.

(** Every row of a projection carries an ISO date without a space, so the
    yearly aggregation of a non-empty projection has the single key
    ["undefined"], under which all periods are summed, whatever their calendar
    years. *)
Lemma yearly_results_single_undefined_key rnd st rows :
  Part001.results (Part001.calculateResults rnd st) = Some rows ->
  rows <> [] ->
  Part001.calculateYearlyResults rows
  = {["undefined" :=
        fold_left (fun y r => YearlyResult.add r y) rows YearlyResult.zero]}.
Proof.
  intros Hres Hne.
  pose proof (Part001_results_yearKeys _ _ _ Hres) as Hall.
  destruct rows as [| row rows]; [contradiction |].
  now apply Part001_yearly_undefined.
Qed.

(** The saved-scenarios page aggregates in the same way. *)
Lemma SavedScenarios_yearly_eq (rows : list Result.t) :
  SavedScenarios.calculateYearlyResults rows = Part001.calculateYearlyResults rows.
Proof. reflexivity. Qed.

Lemma yearEndState_dates :
  map Result.date
    (map (Part001.resultRow noDraws yearEndState) (seq 0 3))
  = ["2024-11-15"; "2024-12-15"; "2025-01-15"].
Proof. reflexivity. Qed.

(** C9 at a concrete projection: three periods in November 2024, December
    2024 and January 2025 are all summed under the key ["undefined"]; there is
    no entry for 2024 or for 2025. *)
Theorem yearly_results_year_end_sample :
  exists rows,
    Part001.results (Part001.calculateResults noDraws yearEndState) = Some rows /\
    map Result.date rows = ["2024-11-15"; "2024-12-15"; "2025-01-15"] /\
    dom (Part001.calculateYearlyResults rows) = {["undefined"]} /\
    Part001.calculateYearlyResults rows !! "2024" = None /\
    Part001.calculateYearlyResults rows !! "2025" = None.
Proof.
  exists (map (Part001.resultRow noDraws yearEndState) (seq 0 3)).
  assert (Hres : Part001.results (Part001.calculateResults noDraws yearEndState)
                 = Some (map (Part001.resultRow noDraws yearEndState) (seq 0 3)))
    by reflexivity.
  split; [exact Hres | split; [exact yearEndState_dates |]].
  pose proof (Part001_results_yearKeys _ _ _ Hres) as Hall.
  cbn [map seq] in Hall |- *.
  rewrite (Part001_yearly_undefined _ _ Hall).
  split; [apply dom_singleton_L |].
  split; apply lookup_singleton_ne; discriminate.
Qed.

(** On the date labels of [src/pages/Index.tsx] the same parsing finds the
    year. *)
Example IndexTsx_yearKey_example :
  yearKey (IndexTsx.detailedResult zeroForwardState (JsDate.mk 2024 0 31)) = "2024".
Proof. reflexivity. Qed.

(** ** The forward curve of a contango scenario *)

Lemma initialScenarios_contango :
  Part001.initialScenarios !! "contango"
  = Some (StressTestScenario.mk "Contango"
            "Forward prices higher than spot (monthly basis in %)"
            0.2 0.01 0 (Some 0.01) None None (Some true)).
Proof. catalog_lookup. Qed.

Lemma contango_forwards_raw :
  Part001.manualForwards (Part001.applyStressTest noDraws "contango" sampleState)
  = <["2024-4" := 100 * (1 + 0) * exp (0.01 * (INR 2 / 12) * 12)]>
      (<["2024-3" := 100 * (1 + 0) * exp (0.01 * (INR 1 / 12) * 12)]>
         (<["2024-2" := 100 * (1 + 0) * exp (0.01 * (INR 0 / 12) * 12)]> ∅)).
Proof.
  unfold Part001.applyStressTest.
  change (Part001.stressTestScenarios sampleState) with Part001.initialScenarios.
  rewrite initialScenarios_contango.
  cbn [Part001.manualForwards].
  unfold Part001.stressedCurves, Part001.stressedForwards.
  cbn [StressTestScenario.realBasis StressTestScenario.forwardBasis snd].
  rewrite truthy_nonzero by lra.
  reflexivity.
Qed.

Lemma contango_forwards :
  Part001.manualForwards (Part001.applyStressTest noDraws "contango" sampleState)
  = <["2024-4" := 100 * exp 0.02]>
      (<["2024-3" := 100 * exp 0.01]> (<["2024-2" := 100]> ∅)).
Proof.
  rewrite contango_forwards_raw.
  replace (100 * (1 + 0) * exp (0.01 * (INR 2 / 12) * 12)) with (100 * exp 0.02).
  2: { f_equal; [lra | f_equal; cbn [INR]; lra]. }
  replace (100 * (1 + 0) * exp (0.01 * (INR 1 / 12) * 12)) with (100 * exp 0.01).
  2: { f_equal; [lra | f_equal; cbn [INR]; lra]. }
  replace (100 * (1 + 0) * exp (0.01 * (INR 0 / 12) * 12)) with 100.
  2: { replace (0.01 * (INR 0 / 12) * 12) with 0 by (cbn [INR]; lra).
       rewrite exp_0. lra. }
  reflexivity.
Qed.

Lemma contango_params :
  Part001.params (Part001.applyStressTest noDraws "contango" sampleState) = sampleParams
  /\ Part001.strategy (Part001.applyStressTest noDraws "contango" sampleState)
     = sampleStrategy.
Proof.
  unfold Part001.applyStressTest.
  change (Part001.stressTestScenarios sampleState) with Part001.initialScenarios.
  rewrite initialScenarios_contango. split; reflexivity.
Qed.

(** C2 at a concrete input.  After the Contango scenario (forwardBasis 0.01,
    priceShock 0) is applied to a three-month horizon from 15 January 2024 at
    spot 100, the curve 100 e^(0.01 i) is stored under the keys of February,
    March and April; the next projection reads 100, 100 and 100 e^0.01 for
    periods 0, 1 and 2, and the projection that applyStressTest itself stores
    was computed before the curve was written. *)
Theorem contango_forward_curve_shifted :
  let st' := Part001.applyStressTest noDraws "contango" sampleState in
  Part001.manualForwards st'
  = <["2024-4" := 100 * exp 0.02]>
      (<["2024-3" := 100 * exp 0.01]> (<["2024-2" := 100]> ∅)) /\
  (exists rows,
     Part001.results (Part001.calculateResults noDraws st') = Some rows /\
     map Result.forward rows = [100; 100; 100 * exp 0.01]) /\
  (exists rows,
     Part001.results st' = Some rows /\
     map Result.forward rows = [100; 100; 100]) /\
  100 <> 100 * exp (0.01 * 1).
Proof.
  intros st'. subst st'.
  pose proof contango_forwards as Hmf.
  destruct contango_params as [Hprm Hstr].
  split; [exact Hmf | split; [| split]].
  - exists (map (Part001.resultRow noDraws
                   (Part001.applyStressTest noDraws "contango" sampleState))
              (seq 0 3)).
    split.
    + rewrite Part001_results_calculateResults, Hstr, Hprm. reflexivity.
    + cbn [map seq]. rewrite !Part001_forward_resultRow, Hprm.
      unfold Part001.forwardOf. rewrite Hmf, Hprm.
      change (JsDate.monthKey (Part001.periodDate sampleParams 0)) with "2024-1".
      change (JsDate.monthKey (Part001.periodDate sampleParams 1)) with "2024-2".
      change (JsDate.monthKey (Part001.periodDate sampleParams 2)) with "2024-3".
      rewrite !lookup_insert_ne by discriminate.
      rewrite lookup_empty.
      rewrite lookup_insert_eq.
      rewrite (lookup_insert_ne _ "2024-4" "2024-3") by discriminate.
      rewrite lookup_insert_eq.
      cbn [Js.or_else].
      pose proof (exp_pos 0.01).
      rewrite !truthy_nonzero by lra.
      reflexivity.
  - exists (map (Part001.resultRow noDraws sampleState) (seq 0 3)).
    split.
    + unfold Part001.applyStressTest.
      change (Part001.stressTestScenarios sampleState) with Part001.initialScenarios.
      rewrite initialScenarios_contango. reflexivity.
    + cbn [map seq]. rewrite !Part001_forward_resultRow.
      unfold Part001.forwardOf.
      change (Part001.manualForwards sampleState) with (∅ : gmap string R).
      rewrite !lookup_empty. reflexivity.
  - pose proof (exp_ineq1 (0.01 * 1) ltac:(lra)). lra.
Qed.

(** ** The keys written by the scenario loops *)

Lemma fold_left_map_compose {A B C} (f : A -> B -> A) (g : C -> B)
    (l : list C) (a : A) :
  fold_left f (map g l) a = fold_left (fun a x => f a (g x)) l a.
Proof.
  revert a. induction l as [| x l IH]; intros a; cbn; [reflexivity | apply IH].
Qed.

Lemma fold_left_pointwise {A B} (f g : A -> B -> A) (l : list B) (a : A) :
  (forall a x, f a x = g a x) -> fold_left f l a = fold_left g l a.
Proof.
  intros Hfg. revert a. induction l as [| x l IH]; intros a; cbn; [reflexivity |].
  now rewrite Hfg, IH.
Qed.

(** The loop of [applyStressTest] as a fold over the indices: iteration [k]
    uses the key of the date advanced [k + 1] times. *)
Lemma forEachMonth_fold {A} (body : nat -> string -> A -> A) n i cur acc :
  Part001.forEachMonth body i n cur acc
  = fold_left
      (fun a k => body (i + k)%nat (JsDate.monthKey (Nat.iter (S k) nextMonth cur)) a)
      (seq 0 n) acc.
Proof.
  revert i cur acc. induction n as [| n IH]; intros i cur acc; [reflexivity |].
  cbn [Part001.forEachMonth].
  change (JsDate.setMonth cur (JsDate.getMonth cur + 1)) with (nextMonth cur).
  rewrite IH.
  cbn [seq fold_left]. rewrite <- seq_shift, fold_left_map_compose.
  rewrite Nat.add_0_r. change (Nat.iter 1 nextMonth cur) with (nextMonth cur).
  apply fold_left_pointwise. intros a k.
  now rewrite Nat.add_succ_r, <- Nat.iter_succ_r.
Qed.

(** A day of the month up to 28 never overflows. *)
Lemma make_no_overflow y m d :
  (1 <= d <= 28)%Z ->
  JsDate.make y m d = JsDate.mk (y + m / 12) (m mod 12) d.
Proof.
  intros Hd. unfold JsDate.make.
  destruct (Z.to_nat (Z.abs d)) eqn:E; cbn [JsDate.norm_day];
  destruct (Z.ltb_spec d 1) as [Hlt | _]; try lia;
  pose proof (daysInMonth_bounds (y + m / 12) (m mod 12)) as Hb;
  destruct (Z.ltb_spec (JsDate.daysInMonth (y + m / 12) (m mod 12)) d); try lia;
  reflexivity.
Qed.

(** Without overflow, advancing [k] times in place is [setMonth] by [k]:
    the date of period [k] of the projection. *)
Lemma iter_nextMonth start k :
  JsDate.valid start -> (JsDate.getDate start <= 28)%Z ->
  Nat.iter k nextMonth start
  = JsDate.setMonth start (JsDate.getMonth start + Z.of_nat k).
Proof.
  intros [Hm Hd] H28. destruct start as [y m d].
  cbn [JsDate.getFullYear JsDate.getDate JsDate.getMonth] in *.
  unfold JsDate.setMonth. cbn [JsDate.getFullYear JsDate.getDate JsDate.getMonth].
  rewrite make_no_overflow by lia.
  induction k as [| k IH].
  - change (Nat.iter 0 nextMonth ?x) with x.
    replace (m + Z.of_nat 0)%Z with m by lia.
    rewrite Z.div_small, Z.mod_small by lia.
    f_equal; lia.
  - rewrite Nat.iter_succ, IH. unfold nextMonth, JsDate.setMonth.
    cbn [JsDate.getFullYear JsDate.getDate JsDate.getMonth].
    rewrite make_no_overflow by lia.
    f_equal.
    + Z.div_mod_to_equations. lia.
    + Z.div_mod_to_equations. lia.
Qed.

(** For every start date up to the 28th and every non-zero forward basis, the
    forward stressedSpot * e^(forwardBasis * i) of index [i] is stored under
    the key of period [i + 1] of the projection. *)
Lemma forwardBasis_curve_keys st K b :
  JsDate.valid (Params.startDate (Part001.params st)) ->
  (JsDate.getDate (Params.startDate (Part001.params st)) <= 28)%Z ->
  StressTestScenario.forwardBasis K = Some b ->
  b <> 0 ->
  Part001.stressedForwards st K
  = fold_left
      (fun prev i =>
         <[JsDate.monthKey (Part001.periodDate (Part001.params st) (S i))
           := Part001.stressedSpotPriceOf st K * exp (b * INR i)]> prev)
      (seq 0 (Params.monthsToHedge (Part001.params st))) ∅.
Proof.
  intros Hvalid H28 Hb Hnz. unfold Part001.stressedForwards.
  rewrite Hb, (truthy_nonzero b Hnz), forEachMonth_fold.
  apply fold_left_pointwise. intros prev i.
  rewrite (iter_nextMonth _ (S i) Hvalid H28).
  change (0 + i)%nat with i.
  replace (b * (INR i / 12) * 12) with (b * INR i) by field.
  reflexivity.
Qed.

(** ** Month keys are injective *)

Lemma append_length s t :
  String.length (s +:+ t) = (String.length s + String.length t)%nat.
Proof.
  induction s as [| c s IH]; [reflexivity |].
  change (String c s +:+ t) with (String c (s +:+ t)). cbn [String.length].
  now rewrite IH.
Qed.

(** Two strings with suffixes of the same length are equal only if the
    prefixes and the suffixes are. *)
Lemma append_suffix_inj s1 s2 t1 t2 :
  String.length t1 = String.length t2 ->
  s1 +:+ t1 = s2 +:+ t2 -> s1 = s2 /\ t1 = t2.
Proof.
  intros Hlen. revert s2.
  induction s1 as [| c1 s1 IH]; intros [| c2 s2] Heq.
  - split; [reflexivity | exact Heq].
  - apply (f_equal String.length) in Heq.
    change (EmptyString +:+ t1) with t1 in Heq.
    rewrite append_length in Heq. cbn [String.length] in Heq. lia.
  - apply (f_equal String.length) in Heq.
    change (EmptyString +:+ t2) with t2 in Heq.
    rewrite append_length in Heq. cbn [String.length] in Heq. lia.
  - change (String c1 (s1 +:+ t1) = String c2 (s2 +:+ t2)) in Heq.
    injection Heq as -> Heq. destruct (IH _ Heq) as [-> ->]. auto.
Qed.

Lemma append_cons_assoc s c t :
  s +:+ String c t = (s +:+ String c EmptyString) +:+ t.
Proof.
  induction s as [| c' s IH]; [reflexivity |].
  change (String c' (s +:+ String c t)
          = String c' ((s +:+ String c EmptyString) +:+ t)).
  now rewrite IH.
Qed.

Lemma cons_append c s : String c EmptyString +:+ s = String c s.
Proof. reflexivity. Qed.

Lemma month_number_cases m :
  (0 <= m <= 11)%Z ->
  (exists c, pretty (m + 1)%Z = String c EmptyString)
  \/ (exists c, pretty (m + 1)%Z = String "1" (String c EmptyString)).
Proof.
  intros Hm.
  assert (Hcases : (m = 0 \/ m = 1 \/ m = 2 \/ m = 3 \/ m = 4 \/ m = 5 \/ m = 6
                    \/ m = 7 \/ m = 8 \/ m = 9 \/ m = 10 \/ m = 11)%Z) by lia.
  repeat (destruct Hcases as [-> | Hcases]); try subst m;
    first [left; eexists; reflexivity | right; eexists; reflexivity].
Qed.

(** The month key determines the year and the month. *)
Lemma monthKey_inj d1 d2 :
  (0 <= JsDate.getMonth d1 <= 11)%Z -> (0 <= JsDate.getMonth d2 <= 11)%Z ->
  JsDate.monthKey d1 = JsDate.monthKey d2 ->
  JsDate.getFullYear d1 = JsDate.getFullYear d2
  /\ JsDate.getMonth d1 = JsDate.getMonth d2.
Proof.
  intros Hm1 Hm2. unfold JsDate.monthKey.
  destruct d1 as [y1 m1 dd1], d2 as [y2 m2 dd2].
  cbn [JsDate.getFullYear JsDate.getMonth] in *.
  intros Heq.
  assert (Hsame : pretty y1 = pretty y2 /\ pretty (m1 + 1)%Z = pretty (m2 + 1)%Z).
  { destruct (month_number_cases m1 Hm1) as [[c1 E1] | [c1 E1]];
    destruct (month_number_cases m2 Hm2) as [[c2 E2] | [c2 E2]];
    rewrite E1, E2 in Heq |- *; rewrite !cons_append in Heq.
    - apply append_suffix_inj in Heq as [-> Heq]; [| reflexivity].
      now injection Heq as ->.
    - exfalso. rewrite (append_cons_assoc (pretty y2)) in Heq.
      apply append_suffix_inj in Heq as [_ Heq]; [| reflexivity].
      discriminate Heq.
    - exfalso. rewrite (append_cons_assoc (pretty y1)) in Heq.
      apply append_suffix_inj in Heq as [_ Heq]; [| reflexivity].
      discriminate Heq.
    - apply append_suffix_inj in Heq as [-> Heq]; [| reflexivity].
      now injection Heq as ->. }
  destruct Hsame as [Hy Hm].
  apply (inj pretty) in Hy. apply (inj pretty) in Hm. lia.
Qed.

Lemma periodDate_no_overflow prm k :
  JsDate.valid (Params.startDate prm) ->
  (JsDate.getDate (Params.startDate prm) <= 28)%Z ->
  Part001.periodDate prm k
  = JsDate.mk
      (JsDate.getFullYear (Params.startDate prm)
       + (JsDate.getMonth (Params.startDate prm) + Z.of_nat k) / 12)
      ((JsDate.getMonth (Params.startDate prm) + Z.of_nat k) mod 12)
      (JsDate.getDate (Params.startDate prm)).
Proof.
  intros [_ Hd] H28. unfold Part001.periodDate, JsDate.setMonth.
  apply make_no_overflow. lia.
Qed.

(** Without overflow, distinct periods have distinct month keys. *)
Lemma periodDate_key_inj prm i j :
  JsDate.valid (Params.startDate prm) ->
  (JsDate.getDate (Params.startDate prm) <= 28)%Z ->
  JsDate.monthKey (Part001.periodDate prm i)
  = JsDate.monthKey (Part001.periodDate prm j) ->
  i = j.
Proof.
  intros Hvalid H28.
  rewrite !periodDate_no_overflow by assumption.
  intros Heq. apply monthKey_inj in Heq as [Hy Hm];
    cbn [JsDate.getFullYear JsDate.getMonth] in *;
    try (apply Z.mod_pos_bound; lia).
  - destruct Hvalid as [Hm0 _].
    set (m := JsDate.getMonth (Params.startDate prm)) in *.
    pose proof (Z.div_mod (m + Z.of_nat i) 12 ltac:(lia)).
    pose proof (Z.div_mod (m + Z.of_nat j) 12 ltac:(lia)).
    lia.
  - pose proof (Z.mod_pos_bound
                  (JsDate.getMonth (Params.startDate prm) + Z.of_nat i) 12). lia.
  - pose proof (Z.mod_pos_bound
                  (JsDate.getMonth (Params.startDate prm) + Z.of_nat j) 12). lia.
Qed.

Lemma lookup_fold_insert_None (key : nat -> string) (val : nat -> R) n k0 :
  (forall i, (i < n)%nat -> key i <> k0) ->
  fold_left (fun prev i => <[key i := val i]> prev) (seq 0 n) (∅ : gmap string R)
    !! k0 = None.
Proof.
  induction n as [| n IH]; intros Hne; [apply lookup_empty |].
  rewrite seq_S, fold_left_app. cbn [fold_left Nat.add].
  rewrite lookup_insert_ne by (apply Hne; lia).
  apply IH. intros i Hi. apply Hne. lia.
Qed.

Lemma lookup_fold_insert_Some (key : nat -> string) (val : nat -> R) n j :
  (j < n)%nat ->
  (forall i, (i < n)%nat -> key i = key j -> i = j) ->
  fold_left (fun prev i => <[key i := val i]> prev) (seq 0 n) (∅ : gmap string R)
    !! key j = Some (val j).
Proof.
  induction n as [| n IH]; intros Hj Hinj; [lia |].
  rewrite seq_S, fold_left_app. cbn [fold_left Nat.add].
  destruct (Nat.eq_dec j n) as [-> | Hne].
  - apply lookup_insert_eq.
  - rewrite lookup_insert_ne.
    + apply IH; [lia |]. intros i Hi. apply Hinj. lia.
    + intros Heq. apply Hne. symmetry. apply Hinj; [lia | exact Heq].
Qed.

Lemma Part001_applyStressTest_forwardBasis rnd key st K :
  Part001.stressTestScenarios st !! key = Some K ->
  StressTestScenario.realBasis K = None ->
  let st' := Part001.applyStressTest rnd key st in
  Part001.params st' = Part001.params st /\
  Part001.strategy st' = Part001.strategy st /\
  Part001.manualForwards st' = Part001.stressedForwards st K.
Proof.
  intros Hk Hr st'. subst st'. unfold Part001.applyStressTest. rewrite Hk.
  cbn [Part001.params Part001.strategy Part001.manualForwards].
  unfold Part001.stressedCurves. rewrite Hr. auto.
Qed.

(** For every start date up to the 28th, after a scenario with a non-zero
    forward basis (and no real basis) is applied, the next projection has the
    spot price as forward of period 0 and stressedSpot * e^(forwardBasis * j)
    as forward of period j + 1. *)
Lemma forwardBasis_projection_shifted rnd rnd' key st K b rows :
  JsDate.valid (Params.startDate (Part001.params st)) ->
  (JsDate.getDate (Params.startDate (Part001.params st)) <= 28)%Z ->
  Part001.stressTestScenarios st !! key = Some K ->
  StressTestScenario.forwardBasis K = Some b ->
  b <> 0 ->
  StressTestScenario.realBasis K = None ->
  Part001.stressedSpotPriceOf st K <> 0 ->
  Part001.results
    (Part001.calculateResults rnd' (Part001.applyStressTest rnd key st)) = Some rows ->
  (forall row, rows !! 0%nat = Some row ->
     Result.forward row = Params.spotPrice (Part001.params st)) /\
  (forall j row, rows !! S j = Some row ->
     Result.forward row = Part001.stressedSpotPriceOf st K * exp (b * INR j)).
Proof.
  intros Hvalid H28 Hk Hb Hnz Hr Hspot Hres.
  destruct (Part001_applyStressTest_forwardBasis rnd key st K Hk Hr)
    as (Hprm & _ & Hmf). cbv zeta in Hprm, Hmf.
  rewrite (forwardBasis_curve_keys st K b Hvalid H28 Hb Hnz) in Hmf.
  set (keyOf := fun i => JsDate.monthKey (Part001.periodDate (Part001.params st) (S i))) in *.
  set (valOf := fun i => Part001.stressedSpotPriceOf st K * exp (b * INR i)) in *.
  split.
  - intros row Hrow.
    destruct (Part001_results_lookup _ _ _ _ _ Hres Hrow) as [_ ->].
    rewrite Part001_forward_resultRow. unfold Part001.forwardOf.
    rewrite Hmf, Hprm.
    rewrite (lookup_fold_insert_None keyOf valOf); [reflexivity |].
    intros i _ Heq. subst keyOf. cbn beta in Heq.
    apply periodDate_key_inj in Heq; [lia | assumption | assumption].
  - intros j row Hrow.
    destruct (Part001_results_lookup _ _ _ _ _ Hres Hrow) as [Hj ->].
    rewrite Hprm in Hj.
    rewrite Part001_forward_resultRow. unfold Part001.forwardOf.
    rewrite Hmf, Hprm.
    change (JsDate.monthKey (Part001.periodDate (Part001.params st) (S j)))
      with (keyOf j).
    rewrite (lookup_fold_insert_Some keyOf valOf); [| lia |].
    + cbn [Js.or_else]. rewrite truthy_nonzero; [reflexivity |].
      subst valOf. cbn beta. pose proof (exp_pos (b * INR j)). nra.
    + intros i _ Heq. subst keyOf. cbn beta in Heq.
      apply periodDate_key_inj in Heq; [lia | assumption | assumption].
Qed.

(** ** The projector of [src/pages/Index.tsx] *)

(** The costs of [src/pages/Index.tsx] are negative amounts and its P&L is
    hedged minus unhedged. *)
Lemma IndexTsx_projected_costs rnd st rows i row :
  IndexTsx.results (IndexTsx.calculateResults rnd st) = Some rows ->
  rows !! i = Some row ->
  Result.unhedgedCost row = - (Result.monthlyVolume row * Result.realPrice row) /\
  Result.hedgedCost row
    = - (Result.monthlyVolume row
         * (Result.realPrice row + Result.strategyPrice row - Result.totalPayoff row)) /\
  Result.deltaPnL row = Result.hedgedCost row - Result.unhedgedCost row.
Proof.
  intros Hres Hrow.
  destruct (IndexTsx_results_lookup _ _ _ _ _ Hres Hrow) as (date & _ & ->).
  unfold IndexTsx.detailedResult, IndexTsx.costAccounting. cbn.
  repeat split; ring.
Qed.

(** Its time to maturity is the number of days from the start date to the
    last day of the period's month, over 325.25. *)
Lemma IndexTsx_time_to_maturity rnd st rows i row :
  IndexTsx.results (IndexTsx.calculateResults rnd st) = Some rows ->
  rows !! i = Some row ->
  exists date,
    IndexTsx.months (IndexTsx.params st) !! i = Some date /\
    Result.timeToMaturity row
    = Rabs (IZR (JsDate.dayNumber date
                 - JsDate.dayNumber (Params.startDate (IndexTsx.params st))))
      / 325.25.
Proof.
  intros Hres Hrow.
  destruct (IndexTsx_results_lookup _ _ _ _ _ Hres Hrow) as (date & Hd & ->).
  exists date. split; [exact Hd |].
  change (Result.timeToMaturity (IndexTsx.detailedResult st date))
    with (IndexTsx.timeToMaturityOf (Params.startDate (IndexTsx.params st)) date).
  unfold IndexTsx.timeToMaturityOf, IndexTsx.msSince, JsDate.getTime.
  rewrite <- Z.mul_sub_distr_l, mult_IZR, Rabs_mult.
  rewrite (Rabs_pos_eq (IZR 86400000)) by (apply IZR_le; lia).
  field. lra.
Qed.

(** In [unnamed/part_001], at an interest rate of 2% and without overrides,
    the forward of the second period is the spot price, not the spot price
    carried at the rate. *)
Lemma Part001_forward_no_carry_example :
  Result.forward (Part001.resultRow noDraws sampleState 1) = 100 /\
  100 <> 100 * exp (2 / 100
                    * elapsedYears (JsDate.mk 2024 0 15)
                        (Part001.periodDate sampleParams 1)).
Proof.
  split.
  - apply (Part001_forward_without_override noDraws sampleState 1).
    apply lookup_empty.
  - change (elapsedYears (JsDate.mk 2024 0 15) (Part001.periodDate sampleParams 1))
      with (IZR 31 / 365).
    pose proof (exp_ineq1 (2 / 100 * (IZR 31 / 365)) ltac:(lra)). lra.
Qed.

(** ** The payoff diagram *)

(** For a non-empty strategy the payoff diagram has 101 points, from half the
    spot price to one and a half times the spot price. *)
Lemma Part001_payoff_curve st :
  Part001.strategy st <> [] ->
  let curve := Part001.calculatePayoff st in
  let spotPrice := Params.spotPrice (Part001.params st) in
  length curve = 101%nat /\
  (PayoffPoint.price <$> curve !! 0%nat) = Some (spotPrice * 0.5) /\
  (PayoffPoint.price <$> curve !! 100%nat) = Some (spotPrice * 1.5).
Proof.
  intros Hne curve spotPrice. subst curve. unfold Part001.calculatePayoff.
  destruct (Part001.strategy st) as [| opt rest]; [contradiction |].
  split; [now rewrite length_map; unfold Part001.priceRange; rewrite length_map, length_seq |].
  unfold Part001.priceRange. rewrite map_map.
  change (map ?f (seq 0 101)) with (f <$> seq 0 101).
  rewrite !list_lookup_fmap, !lookup_seq_lt by lia. cbn [fmap option_fmap option_map].
  fold spotPrice.
  split; f_equal; cbn [PayoffPoint.price Part001.payoffAt];
    fold spotPrice; [replace (INR (0 + 0)) with 0 by (cbn; lra)
                    | replace (INR (0 + 100)) with 100
                        by (change (0 + 100)%nat with 100%nat;
                            rewrite (INR_IZR_INZ 100); reflexivity)];
    lra.
Qed.

(** * Further properties *)

(** ** Range of the distribution function and bounds of the premium *)

Lemma erfPoly_nonneg_unit x : 0 <= x -> 0 <= erfPoly (1 / (1 + IndexTsx.p * x)).
Proof.
  intros Hx. destruct (erf_arg_bounds x Hx) as [Ht _].
  rewrite <- erfPoly_0. apply erfPoly_mono; lra.
Qed.

Lemma IndexTsx_erf_le_1 x : 0 <= x -> IndexTsx.erf x <= 1.
Proof.
  intros Hx. rewrite IndexTsx_erf_nonneg_eq by exact Hx.
  pose proof (erfPoly_nonneg_unit x Hx).
  pose proof (exp_pos (- (x * x))). nra.
Qed.

Lemma IndexTsx_erf_range x : -1 <= IndexTsx.erf x <= 1.
Proof.
  destruct (Rlt_dec x 0) as [Hneg | Hpos].
  - rewrite (IndexTsx_erf_neg_eq x Hneg).
    pose proof (IndexTsx_erf_le_1 (- x) ltac:(lra)).
    pose proof (IndexTsx_erf_nonneg (- x) ltac:(lra)). lra.
  - pose proof (IndexTsx_erf_le_1 x ltac:(lra)).
    pose proof (IndexTsx_erf_nonneg x ltac:(lra)). lra.
Qed.

(** X1.  The distribution function of [src/pages/Index.tsx] takes its values
    between 0 and 1. *)
Theorem normCdf_range x : 0 <= IndexTsx.normCdf x <= 1.
Proof.
  unfold IndexTsx.normCdf.
  pose proof (IndexTsx_erf_range (x / sqrt 2)). lra.
Qed.

(** X2.  For a positive underlying, strike, maturity and volatility, the call
    premium of [src/pages/Index.tsx] lies between -K e^(-r t) and S, and the
    put premium between -S and K e^(-r t). *)
Theorem premium_bounds S K r t sigma :
  0 < S -> 0 < K -> 0 < t -> 0 < sigma ->
  - (K * exp (- r * t)) <= IndexTsx.calculateOptionPrice call S K r t sigma <= S /\
  - S <= IndexTsx.calculateOptionPrice put S K r t sigma <= K * exp (- r * t).
Proof.
  intros HS HK _ _. unfold IndexTsx.calculateOptionPrice, IndexTsx.normCdf. cbv zeta.
  set (d1 := (ln (S / K) + (r + sigma ^ 2 / 2) * t) / (sigma * sqrt t)).
  pose proof (IndexTsx_erf_range (d1 / sqrt 2)) as H1.
  pose proof (IndexTsx_erf_range ((d1 - sigma * sqrt t) / sqrt 2)) as H2.
  pose proof (exp_pos (- r * t)) as He.
  assert (HKe : 0 <= K * exp (- r * t)) by nra.
  split; split; nra.
Qed.

Lemma premium_bounds_witness :
  IndexTsx.calculateOptionPrice call 100 95 0.02 0.5 0.2 <= 100 /\
  IndexTsx.calculateOptionPrice put 100 95 0.02 0.5 0.2 <= 95 * exp (- (0.02) * 0.5).
Proof.
  destruct (premium_bounds 100 95 0.02 0.5 0.2
              ltac:(lra) ltac:(lra) ltac:(lra) ltac:(lra))
    as [[_ Hc] [_ Hp]].
  split; [exact Hc | exact Hp].
Defined.

(** ** The simulated real price *)

(** X3.  With a positive spot price, a non-negative volatility and a draw in
    [0, 1], the simulated price of month i is positive and lies in the band
    spot * e^((drift - vol^2/2) t -/+ vol sqrt t), t = i / 12; for month 0 it
    is the spot price, whatever the draw. *)
Theorem simulated_price_band spotPrice i rpp u :
  0 < spotPrice -> 0 <= RealPriceParams.volatility rpp -> 0 <= u <= 1 ->
  let t := INR i / 12 in
  let mu := (RealPriceParams.drift rpp
             - RealPriceParams.volatility rpp * RealPriceParams.volatility rpp / 2) * t in
  let price := Part001.calculateSimulatedPrice spotPrice i rpp u in
  0 < price /\
  spotPrice * exp (mu - RealPriceParams.volatility rpp * sqrt t) <= price /\
  price <= spotPrice * exp (mu + RealPriceParams.volatility rpp * sqrt t) /\
  (i = 0%nat -> price = spotPrice).
Proof.
  intros Hs Hv Hu t mu price. subst price. unfold Part001.calculateSimulatedPrice.
  fold t. fold mu.
  set (v := RealPriceParams.volatility rpp) in *.
  pose proof (sqrt_pos t) as Hsq.
  assert (Hvs : 0 <= v * sqrt t) by (apply Rmult_le_pos; assumption).
  assert (Hlo : mu - v * sqrt t <= mu + v * sqrt t * (u * 2 - 1)) by nra.
  assert (Hhi : mu + v * sqrt t * (u * 2 - 1) <= mu + v * sqrt t) by nra.
  assert (Hmono : forall a b, a <= b -> exp a <= exp b).
  { intros a b [Hlt | ->]; [left; now apply exp_increasing | lra]. }
  pose proof (exp_pos (mu + v * sqrt t * (u * 2 - 1))) as Hpos.
  pose proof (Hmono _ _ Hlo). pose proof (Hmono _ _ Hhi).
  repeat split; try nra.
  intros ->. subst mu t. cbn [INR].
  replace (0 / 12) with 0 by lra. rewrite sqrt_0.
  replace ((RealPriceParams.drift rpp - v * v / 2) * 0 + v * 0 * (u * 2 - 1))
    with 0 by ring.
  rewrite exp_0. ring.
Qed.

Lemma simulated_price_band_witness :
  Part001.calculateSimulatedPrice 100 0 (RealPriceParams.mk true 0.2 0.01 1000) 0.5
  = 100.
Proof.
  apply (simulated_price_band 100 0 (RealPriceParams.mk true 0.2 0.01 1000) 0.5);
    cbn; try lra. reflexivity.
Defined.

(** ** The payoff diagram *)

Lemma payoffAt_price_Part001 st price :
  PayoffPoint.price (Part001.payoffAt st price) = price.
Proof. reflexivity. Qed.

(** The payoff of a point is the sum over the legs of (intrinsic value minus
    premium) times quantity. *)
Lemma Part001_payoffAt_Rsum st price :
  PayoffPoint.payoff (Part001.payoffAt st price)
  = Rsum (map (fun opt =>
                 let strike := resolveStrike (Params.spotPrice (Part001.params st)) opt in
                 (intrinsicValue (StrategyComponent.type opt) price strike
                  - Part001.calculateOptionPrice st (StrategyComponent.type opt)
                      (Params.spotPrice (Part001.params st)) strike
                      (Params.interestRate (Part001.params st) / 100) 1
                      (StrategyComponent.volatility opt / 100) None)
                 * (StrategyComponent.quantity opt / 100))
            (Part001.strategy st)).
Proof.
  unfold Part001.payoffAt. cbn [PayoffPoint.payoff].
  rewrite (fold_left_Rplus_Rsum
             (fun opt =>
                (intrinsicValue (StrategyComponent.type opt) price
                   (resolveStrike (Params.spotPrice (Part001.params st)) opt)
                 - Part001.calculateOptionPrice st (StrategyComponent.type opt)
                     (Params.spotPrice (Part001.params st))
                     (resolveStrike (Params.spotPrice (Part001.params st)) opt)
                     (Params.interestRate (Part001.params st) / 100) 1
                     (StrategyComponent.volatility opt / 100) None)
                * (StrategyComponent.quantity opt / 100))).
  cbv zeta. ring.
Qed.

Lemma IndexTsx_payoffAt_Rsum st price :
  PayoffPoint.payoff (IndexTsx.payoffAt st price)
  = Rsum (map (fun opt =>
                 let strike := resolveStrike (Params.spotPrice (IndexTsx.params st)) opt in
                 (intrinsicValue (StrategyComponent.type opt) price strike
                  - IndexTsx.calculateOptionPrice (StrategyComponent.type opt)
                      (Params.spotPrice (IndexTsx.params st)) strike
                      (Params.interestRate (IndexTsx.params st) / 100) 1
                      (StrategyComponent.volatility opt / 100))
                 * (StrategyComponent.quantity opt / 100))
            (IndexTsx.strategy st)).
Proof.
  unfold IndexTsx.payoffAt. cbn [PayoffPoint.payoff].
  rewrite (fold_left_Rplus_Rsum
             (fun opt =>
                (intrinsicValue (StrategyComponent.type opt) price
                   (resolveStrike (Params.spotPrice (IndexTsx.params st)) opt)
                 - IndexTsx.calculateOptionPrice (StrategyComponent.type opt)
                     (Params.spotPrice (IndexTsx.params st))
                     (resolveStrike (Params.spotPrice (IndexTsx.params st)) opt)
                     (Params.interestRate (IndexTsx.params st) / 100) 1
                     (StrategyComponent.volatility opt / 100))
                * (StrategyComponent.quantity opt / 100))).
  cbv zeta. ring.
Qed.

Lemma lookup_priceRange (range : R -> list R) spotPrice k :
  range = (fun s => map (fun i : nat => s * (0.5 + INR i * 0.01)) (seq 0 101)) ->
  (k <= 100)%nat ->
  range spotPrice !! k = Some (spotPrice * (0.5 + INR k * 0.01)).
Proof.
  intros -> Hk. apply lookup_map_seq. split; [lia | reflexivity].
Qed.

(** X4.  For a non-empty strategy the payoff diagram of either calculator has
    exactly 101 points, and point k (k = 0..100) is taken at the underlying
    price spot * (0.5 + 0.01 k): from half the spot price to one and a half
    times the spot price.  For an empty strategy the diagram is left as it
    is. *)
Theorem payoff_curve_grid :
  (forall st,
     Part001.strategy st <> [] ->
     length (Part001.calculatePayoff st) = 101%nat /\
     forall k, (k <= 100)%nat ->
       PayoffPoint.price <$> Part001.calculatePayoff st !! k
       = Some (Params.spotPrice (Part001.params st) * (0.5 + INR k * 0.01))) /\
  (forall st,
     IndexTsx.strategy st <> [] ->
     length (IndexTsx.calculatePayoff st) = 101%nat /\
     forall k, (k <= 100)%nat ->
       PayoffPoint.price <$> IndexTsx.calculatePayoff st !! k
       = Some (Params.spotPrice (IndexTsx.params st) * (0.5 + INR k * 0.01))) /\
  (forall st, Part001.strategy st = [] ->
              Part001.calculatePayoff st = Part001.payoffData st) /\
  (forall st, IndexTsx.strategy st = [] ->
              IndexTsx.calculatePayoff st = IndexTsx.payoffData st).
Proof.
  repeat split.
  - unfold Part001.calculatePayoff.
    destruct (Part001.strategy st); [contradiction |].
    now rewrite length_map; unfold Part001.priceRange; rewrite length_map, length_seq.
  - intros k Hk. unfold Part001.calculatePayoff.
    destruct (Part001.strategy st) as [| o l] eqn:E; [contradiction |].
    change (map ?f ?l) with (f <$> l).
    rewrite list_lookup_fmap.
    rewrite (lookup_priceRange Part001.priceRange _ k eq_refl Hk). reflexivity.
  - unfold IndexTsx.calculatePayoff.
    destruct (IndexTsx.strategy st); [contradiction |].
    now rewrite length_map; unfold IndexTsx.priceRange; rewrite length_map, length_seq.
  - intros k Hk. unfold IndexTsx.calculatePayoff.
    destruct (IndexTsx.strategy st) as [| o l] eqn:E; [contradiction |].
    change (map ?f ?l) with (f <$> l).
    rewrite list_lookup_fmap.
    rewrite (lookup_priceRange IndexTsx.priceRange _ k eq_refl Hk). reflexivity.
  - intros st H. unfold Part001.calculatePayoff. now rewrite H.
  - intros st H. unfold IndexTsx.calculatePayoff. now rewrite H.
Qed.

Lemma payoff_curve_grid_witness :
  length (Part001.calculatePayoff sampleState) = 101%nat /\
  PayoffPoint.price <$> Part001.calculatePayoff sampleState !! 100%nat
  = Some (100 * (0.5 + INR 100 * 0.01)).
Proof.
  destruct (proj1 payoff_curve_grid sampleState ltac:(discriminate)) as [Hlen Hpt].
  split; [exact Hlen | apply (Hpt 100%nat); lia].
Defined.

Lemma intrinsicValue_call_mono p1 p2 strike :
  p1 <= p2 -> intrinsicValue call p1 strike <= intrinsicValue call p2 strike.
Proof.
  intros H. cbn. apply Rmax_lub.
  - eapply Rle_trans; [| apply Rmax_l]. lra.
  - apply Rmax_r.
Qed.

Lemma intrinsicValue_put_antitone p1 p2 strike :
  p1 <= p2 -> intrinsicValue put p2 strike <= intrinsicValue put p1 strike.
Proof.
  intros H. cbn. apply Rmax_lub.
  - eapply Rle_trans; [| apply Rmax_l]. lra.
  - apply Rmax_r.
Qed.

Lemma Rsum_le_pointwise {A} (f g : A -> R) (l : list A) :
  Forall (fun x => f x <= g x) l -> Rsum (map f l) <= Rsum (map g l).
Proof.
  induction 1 as [| x l Hx _ IH]; cbn; lra.
Qed.

(** X5.  In the payoff diagram of [unnamed/part_001], the payoff of a strategy
    made of calls with non-negative quantities never decreases when the
    underlying price rises, and the payoff of a strategy made of puts with
    non-negative quantities never increases. *)
Theorem payoff_monotone st p1 p2 :
  p1 <= p2 ->
  (Forall (fun opt => StrategyComponent.type opt = call
                      /\ 0 <= StrategyComponent.quantity opt) (Part001.strategy st) ->
   PayoffPoint.payoff (Part001.payoffAt st p1)
   <= PayoffPoint.payoff (Part001.payoffAt st p2)) /\
  (Forall (fun opt => StrategyComponent.type opt = put
                      /\ 0 <= StrategyComponent.quantity opt) (Part001.strategy st) ->
   PayoffPoint.payoff (Part001.payoffAt st p2)
   <= PayoffPoint.payoff (Part001.payoffAt st p1)).
Proof.
  intros Hp. split; intros Hall; rewrite !Part001_payoffAt_Rsum;
    apply Rsum_le_pointwise; eapply Forall_impl; [exact Hall | | exact Hall |];
    cbv beta zeta; intros opt [Hty Hq]; rewrite Hty.
  - pose proof (intrinsicValue_call_mono p1 p2
                  (resolveStrike (Params.spotPrice (Part001.params st)) opt) Hp).
    nra.
  - pose proof (intrinsicValue_put_antitone p1 p2
                  (resolveStrike (Params.spotPrice (Part001.params st)) opt) Hp).
    nra.
Qed.

Lemma payoff_monotone_witness :
  PayoffPoint.payoff (Part001.payoffAt sampleState 90)
  <= PayoffPoint.payoff (Part001.payoffAt sampleState 110).
Proof.
  apply (proj1 (payoff_monotone sampleState 90 110 ltac:(lra))).
  repeat constructor; cbn; lra.
Defined.

Lemma intrinsic_parity price strike :
  intrinsicValue call price strike - intrinsicValue put price strike = price - strike.
Proof.
  cbn. unfold Rmax.
  destruct (Rle_dec (price - strike) 0), (Rle_dec (strike - price) 0); lra.
Qed.

(** X6.  A long call and a short put of the same strike, volatility and size
    q have a payoff diagram that is linear in the underlying price and does
    not depend on the volatility:
    payoff(price) = q/100 * ((price - K) - (spot - K e^(-r))), with r the
    interest rate and K the resolved strike; in both calculators. *)
Theorem synthetic_forward_payoff strike strikeType volatility q price :
  (forall st,
     Part001.strategy st
     = [StrategyComponent.mk call strike strikeType volatility q;
        StrategyComponent.mk put strike strikeType volatility (- q)] ->
     let spot := Params.spotPrice (Part001.params st) in
     let K := resolveStrike spot
                (StrategyComponent.mk call strike strikeType volatility q) in
     PayoffPoint.payoff (Part001.payoffAt st price)
     = q / 100 * ((price - K)
                  - (spot - K * exp (- (Params.interestRate (Part001.params st) / 100) * 1)))) /\
  (forall st,
     IndexTsx.strategy st
     = [StrategyComponent.mk call strike strikeType volatility q;
        StrategyComponent.mk put strike strikeType volatility (- q)] ->
     let spot := Params.spotPrice (IndexTsx.params st) in
     let K := resolveStrike spot
                (StrategyComponent.mk call strike strikeType volatility q) in
     PayoffPoint.payoff (IndexTsx.payoffAt st price)
     = q / 100 * ((price - K)
                  - (spot - K * exp (- (Params.interestRate (IndexTsx.params st) / 100) * 1)))).
Proof.
  split; intros st Hst spot K.
  - rewrite Part001_payoffAt_Rsum, Hst. cbn [map Rsum]. cbv zeta.
    cbn [StrategyComponent.type StrategyComponent.quantity StrategyComponent.volatility].
    fold spot.
    change (resolveStrike spot (StrategyComponent.mk put strike strikeType volatility (- q)))
      with K.
    change (resolveStrike spot (StrategyComponent.mk call strike strikeType volatility q))
      with K.
    pose proof (Part001_parity_exact st spot K
                  (Params.interestRate (Part001.params st) / 100) 1
                  (volatility / 100) None) as Hpar.
    pose proof (intrinsic_parity price K) as Hint.
    nra.
  - rewrite IndexTsx_payoffAt_Rsum, Hst. cbn [map Rsum]. cbv zeta.
    cbn [StrategyComponent.type StrategyComponent.quantity StrategyComponent.volatility].
    fold spot.
    change (resolveStrike spot (StrategyComponent.mk put strike strikeType volatility (- q)))
      with K.
    change (resolveStrike spot (StrategyComponent.mk call strike strikeType volatility q))
      with K.
    pose proof (IndexTsx_parity_exact spot K
                  (Params.interestRate (IndexTsx.params st) / 100) 1
                  (volatility / 100)) as Hpar.
    pose proof (intrinsic_parity price K) as Hint.
    nra.
Qed.

Lemma synthetic_forward_payoff_witness :
  PayoffPoint.payoff (Part001.payoffAt syntheticForwardState 110)
  = 100 / 100
    * ((110 - resolveStrike 100 (StrategyComponent.mk call 100 percent 20 100))
       - (100 - resolveStrike 100 (StrategyComponent.mk call 100 percent 20 100)
                * exp (- (2 / 100) * 1))).
Proof.
  apply (proj1 (synthetic_forward_payoff 100 percent 20 100 110)
           syntheticForwardState).
  reflexivity.
Defined.

(** ** Premium at risk and totals *)

Lemma intrinsicValue_nonneg ty price strike : 0 <= intrinsicValue ty price strike.
Proof. destruct ty; cbn; apply Rmax_r. Qed.

Lemma Rsum_nonneg {A} (f : A -> R) (l : list A) :
  Forall (fun x => 0 <= f x) l -> 0 <= Rsum (map f l).
Proof. induction 1; cbn; lra. Qed.

(** X7.  When every leg has a non-negative quantity and the total volume is
    non-negative, every row of the projection of [unnamed/part_001] has a
    non-negative total payoff and a P&L that is not below minus the premium
    paid: deltaPnL >= -(monthlyVolume * strategyPrice). *)
Theorem long_only_loss_bound rnd st rows i row :
  Part001.results (Part001.calculateResults rnd st) = Some rows ->
  rows !! i = Some row ->
  Forall (fun opt => 0 <= StrategyComponent.quantity opt) (Part001.strategy st) ->
  0 <= Params.totalVolume (Part001.params st) ->
  0 <= Result.totalPayoff row /\
  - (Result.monthlyVolume row * Result.strategyPrice row) <= Result.deltaPnL row.
Proof.
  intros Hres Hrow Hq Hvol.
  destruct (Part001_results_lookup _ _ _ _ _ Hres Hrow) as [Hi ->].
  assert (Hpay : 0 <= Result.totalPayoff (Part001.resultRow rnd st i)).
  { unfold Part001.resultRow, Part001.costAccounting. cbn [Result.totalPayoff].
    rewrite totalPayoffOf_Rsum, map_map. apply Rsum_nonneg.
    eapply Forall_impl; [exact Hq |]. cbv beta. intros opt Hopt.
    cbn [OptionPrice.type OptionPrice.strike OptionPrice.quantity].
    pose proof (intrinsicValue_nonneg (StrategyComponent.type opt)
      (if RealPriceParams.useSimulation (Part001.realPriceParams st)
       then Part001.calculateSimulatedPrice (Params.spotPrice (Part001.params st)) i
              (Part001.realPriceParams st) (rnd i)
       else Js.or_else
              (Part001.realPrices st
                 !! JsDate.monthKey (Part001.periodDate (Part001.params st) i))
              (Part001.forwardOf st
                 (JsDate.monthKey (Part001.periodDate (Part001.params st) i))))
      (resolveStrike (Params.spotPrice (Part001.params st)) opt)).
    nra. }
  split; [exact Hpay |].
  assert (Hmv : 0 <= Result.monthlyVolume (Part001.resultRow rnd st i)).
  { change (Result.monthlyVolume (Part001.resultRow rnd st i))
      with (Params.totalVolume (Part001.params st)
            / INR (Params.monthsToHedge (Part001.params st))).
    apply Rmult_le_pos; [exact Hvol |].
    left. apply Rinv_0_lt_compat. apply lt_0_INR. lia. }
  change (Result.deltaPnL (Part001.resultRow rnd st i))
    with (Result.monthlyVolume (Part001.resultRow rnd st i)
            * Result.realPrice (Part001.resultRow rnd st i)
          - Result.monthlyVolume (Part001.resultRow rnd st i)
            * (Result.realPrice (Part001.resultRow rnd st i)
               + Result.strategyPrice (Part001.resultRow rnd st i)
               - Result.totalPayoff (Part001.resultRow rnd st i))).
  nra.
Qed.

Lemma long_only_loss_bound_witness :
  let row := Part001.resultRow noDraws sampleState 1 in
  0 <= Result.totalPayoff row /\
  - (Result.monthlyVolume row * Result.strategyPrice row) <= Result.deltaPnL row.
Proof.
  apply (long_only_loss_bound noDraws sampleState
           (map (Part001.resultRow noDraws sampleState) (seq 0 3)) 1
           (Part001.resultRow noDraws sampleState 1) eq_refl eq_refl).
  - repeat constructor. cbn. lra.
  - cbn. lra.
Defined.

Lemma total_as_Rsum (f : Result.t -> R) (rows : list Result.t) :
  fold_left (fun sum row => sum + f row) rows 0 = Rsum (map f rows).
Proof. rewrite fold_left_Rplus_Rsum. ring. Qed.

Lemma Rsum_minus {A} (f g : A -> R) (l : list A) :
  Rsum (map (fun x => f x - g x) l) = Rsum (map f l) - Rsum (map g l).
Proof. induction l as [| x l IH]; cbn; [ring | rewrite IH; ring]. Qed.

Lemma Rsum_ext_Forall {A} (f g : A -> R) (l : list A) :
  Forall (fun x => f x = g x) l -> Rsum (map f l) = Rsum (map g l).
Proof. induction 1 as [| x l Hx _ IH]; cbn; [reflexivity | now rewrite Hx, IH]. Qed.

(** X8.  The totals of the summary table are consistent with the convention
    of each projector: over a projection of [unnamed/part_001] the total P&L is
    the total unhedged cost minus the total hedged cost, and over a projection
    of [src/pages/Index.tsx] it is the total hedged cost minus the total
    unhedged cost. *)
Theorem totals_consistent :
  (forall rnd st rows,
     Part001.results (Part001.calculateResults rnd st) = Some rows ->
     Summary.totalPnL rows
     = Summary.totalUnhedgedCost rows - Summary.totalHedgedCost rows) /\
  (forall rnd st rows,
     IndexTsx.results (IndexTsx.calculateResults rnd st) = Some rows ->
     Summary.totalPnL rows
     = Summary.totalHedgedCost rows - Summary.totalUnhedgedCost rows).
Proof.
  split; intros rnd st rows Hres;
    unfold Summary.totalPnL, Summary.totalUnhedgedCost, Summary.totalHedgedCost;
    rewrite !total_as_Rsum, <- Rsum_minus; apply Rsum_ext_Forall;
    apply Forall_lookup; intros i row Hrow.
  - destruct (Part001_results_lookup _ _ _ _ _ Hres Hrow) as [_ ->]. reflexivity.
  - destruct (IndexTsx_results_lookup _ _ _ _ _ Hres Hrow) as (date & _ & ->).
    reflexivity.
Qed.

Lemma totals_consistent_witness :
  let rows := map (Part001.resultRow noDraws sampleState) (seq 0 3) in
  Summary.totalPnL rows
  = Summary.totalUnhedgedCost rows - Summary.totalHedgedCost rows.
Proof.
  apply (proj1 totals_consistent noDraws sampleState). reflexivity.
Defined.

(** ** The yearly table *)

Lemma Rsum_app (l1 l2 : list R) : Rsum (l1 ++ l2) = Rsum l1 + Rsum l2.
Proof. induction l1 as [| x l1 IH]; cbn; [ring | rewrite IH; ring]. Qed.

Lemma yearly_snoc rows r :
  SavedScenarios.calculateYearlyResults (rows ++ [r])
  = alter (YearlyResult.add r) (yearKey r)
      (ensureYear (yearKey r) (SavedScenarios.calculateYearlyResults rows)).
Proof.
  unfold SavedScenarios.calculateYearlyResults. now rewrite fold_left_app.
Qed.

Lemma ensureYear_lookup_eq k (m : gmap string YearlyResult.t) :
  ensureYear k m !! k = Some (default YearlyResult.zero (m !! k)).
Proof.
  unfold ensureYear. destruct (m !! k) eqn:E; [exact E | apply lookup_insert_eq].
Qed.

Lemma ensureYear_lookup_ne k k' (m : gmap string YearlyResult.t) :
  k <> k' -> ensureYear k m !! k' = m !! k'.
Proof.
  intros Hne. unfold ensureYear.
  destruct (m !! k); [reflexivity | now apply lookup_insert_ne].
Qed.

Lemma rowsOfYear_snoc k rows r :
  rowsOfYear k (rows ++ [r])
  = rowsOfYear k rows ++ (if decide (yearKey r = k) then [r] else []).
Proof.
  unfold rowsOfYear. now rewrite filter_app.
Qed.

Lemma yearTotals_snoc g r :
  YearlyResult.add r (yearTotals g) = yearTotals (g ++ [r]).
Proof.
  unfold YearlyResult.add, yearTotals. cbn.
  rewrite !map_app, !Rsum_app. cbn. f_equal; ring.
Qed.

Lemma yearTotals_single r :
  YearlyResult.add r YearlyResult.zero = yearTotals [r].
Proof. unfold YearlyResult.add, yearTotals. cbn. f_equal; ring. Qed.

(** The entry of a year key is the total of the rows with that key. *)
Lemma yearly_lookup rows k :
  SavedScenarios.calculateYearlyResults rows !! k
  = if decide (rowsOfYear k rows = []) then None
    else Some (yearTotals (rowsOfYear k rows)).
Proof.
  induction rows as [| r rows IH] using rev_ind.
  - cbn. apply lookup_empty.
  - rewrite yearly_snoc, rowsOfYear_snoc.
    destruct (decide (yearKey r = k)) as [Hk | Hk].
    + rewrite Hk, lookup_alter_eq, ensureYear_lookup_eq, IH.
      destruct (decide (rowsOfYear k rows = [])) as [E | E].
      * rewrite E. change ([] ++ [r]) with [r].
        rewrite decide_False by discriminate.
        change (Some (YearlyResult.add r YearlyResult.zero) = Some (yearTotals [r])).
        now rewrite yearTotals_single.
      * rewrite decide_False.
        -- change (Some (YearlyResult.add r (yearTotals (rowsOfYear k rows)))
                   = Some (yearTotals (rowsOfYear k rows ++ [r]))).
           now rewrite yearTotals_snoc.
        -- intros Happ. apply app_eq_nil in Happ as [_ Habs]. discriminate.
    + rewrite lookup_alter_ne, ensureYear_lookup_ne, IH by exact Hk.
      now rewrite app_nil_r.
Qed.

(** X9.  The yearly tables of the three pages are the same function of the
    rows.  For every list of rows and every key, the table has an entry under
    the key exactly when some row has that year key, and the entry holds the
    sums of hedgedCost, unhedgedCost and deltaPnL over the rows with that year
    key. *)
Theorem yearly_grouping rows k :
  Part001.calculateYearlyResults rows = SavedScenarios.calculateYearlyResults rows /\
  IndexTsxSummary.yearlyResults rows = SavedScenarios.calculateYearlyResults rows /\
  SavedScenarios.calculateYearlyResults rows !! k
  = if decide (rowsOfYear k rows = []) then None
    else Some (YearlyResult.mk
                 (Rsum (map Result.hedgedCost (rowsOfYear k rows)))
                 (Rsum (map Result.unhedgedCost (rowsOfYear k rows)))
                 (Rsum (map Result.deltaPnL (rowsOfYear k rows)))).
Proof.
  split; [reflexivity | split; [reflexivity |]].
  apply yearly_lookup.
Qed.

Lemma sumOverYears_insert_fresh f k x (m : gmap string YearlyResult.t) :
  m !! k = None -> sumOverYears f (<[k := x]> m) = sumOverYears f m + f x.
Proof.
  intros Hk. unfold sumOverYears.
  rewrite map_fold_insert_L.
  - reflexivity.
  - intros. ring.
  - exact Hk.
Qed.

Lemma sumOverYears_delete f k x (m : gmap string YearlyResult.t) :
  m !! k = Some x -> sumOverYears f m = sumOverYears f (delete k m) + f x.
Proof.
  intros Hk. unfold sumOverYears.
  rewrite (map_fold_delete_L _ _ k x m).
  - reflexivity.
  - intros. ring.
  - exact Hk.
Qed.

Lemma sumOverYears_alter f g k x (m : gmap string YearlyResult.t) :
  m !! k = Some x ->
  sumOverYears f (alter g k m) = sumOverYears f m - f x + f (g x).
Proof.
  intros Hk.
  rewrite (sumOverYears_delete f k (g x) (alter g k m))
    by (rewrite lookup_alter_eq, Hk; reflexivity).
  rewrite (sumOverYears_delete f k x m Hk).
  rewrite delete_alter_eq. ring.
Qed.

Lemma sumOverYears_step (f : YearlyResult.t -> R) (fr : Result.t -> R) r
    (m : gmap string YearlyResult.t) :
  (forall y, f (YearlyResult.add r y) = f y + fr r) ->
  f YearlyResult.zero = 0 ->
  sumOverYears f (alter (YearlyResult.add r) (yearKey r) (ensureYear (yearKey r) m))
  = sumOverYears f m + fr r.
Proof.
  intros Hadd Hzero. unfold ensureYear.
  destruct (m !! yearKey r) as [y |] eqn:E.
  - rewrite (sumOverYears_alter f _ _ y m E), Hadd. ring.
  - rewrite (sumOverYears_alter f _ _ YearlyResult.zero)
      by apply lookup_insert_eq.
    rewrite sumOverYears_insert_fresh by exact E.
    rewrite Hadd, Hzero. ring.
Qed.

Lemma sumOverYears_total (f : YearlyResult.t -> R) (fr : Result.t -> R) rows :
  (forall r y, f (YearlyResult.add r y) = f y + fr r) ->
  f YearlyResult.zero = 0 ->
  sumOverYears f (SavedScenarios.calculateYearlyResults rows)
  = fold_left (fun sum row => sum + fr row) rows 0.
Proof.
  intros Hadd Hzero.
  induction rows as [| r rows IH] using rev_ind.
  - reflexivity.
  - rewrite yearly_snoc, fold_left_app. cbn [fold_left].
    rewrite (sumOverYears_step f fr r _ (Hadd r) Hzero), IH. reflexivity.
Qed.

(** X10.  The yearly table adds up to the total table: for every list of
    rows, the sums over all years of the yearly hedged cost, unhedged cost and
    P&L are the total hedged cost, unhedged cost and P&L. *)
Theorem yearly_table_adds_up rows :
  sumOverYears YearlyResult.hedgedCost (Part001.calculateYearlyResults rows)
  = Summary.totalHedgedCost rows /\
  sumOverYears YearlyResult.unhedgedCost (Part001.calculateYearlyResults rows)
  = Summary.totalUnhedgedCost rows /\
  sumOverYears YearlyResult.deltaPnL (Part001.calculateYearlyResults rows)
  = Summary.totalPnL rows.
Proof.
  change (Part001.calculateYearlyResults rows)
    with (SavedScenarios.calculateYearlyResults rows).
  repeat split.
  - now apply (sumOverYears_total YearlyResult.hedgedCost Result.hedgedCost).
  - now apply (sumOverYears_total YearlyResult.unhedgedCost Result.unhedgedCost).
  - now apply (sumOverYears_total YearlyResult.deltaPnL Result.deltaPnL).
Qed.

(** ** The year key of the rows of [src/pages/Index.tsx] *)

Lemma pretty_N_char_neq (c : ascii) (x : N) :
  lacks c "0123456789" = true -> Ascii.eqb (pretty_N_char x) c = false.
Proof.
  intros H. cbn in H.
  repeat (apply andb_prop in H as [?%negb_true_iff H]).
  destruct x as [| q]; try assumption;
    do 4 (try destruct q as [q | q |]); assumption.
Qed.

Lemma lacks_pretty_N_go c x s :
  lacks c "0123456789" = true -> lacks c s = true ->
  lacks c (pretty_N_go x s) = true.
Proof.
  intros Hd. revert s.
  induction (N.lt_wf_0 x) as [x _ IH]; intros s Hs.
  destruct (N.eq_dec x 0%N) as [-> | Hx].
  - now rewrite pretty_N_go_0.
  - rewrite pretty_N_go_step by lia.
    apply IH; [apply N.div_lt; lia |].
    cbn [lacks]. now rewrite pretty_N_char_neq, Hs.
Qed.

Lemma lacks_pretty_Z c (z : Z) :
  lacks c "0123456789-" = true -> lacks c (pretty z) = true.
Proof.
  intros H.
  assert (Hd : lacks c "0123456789" = true).
  { cbn in H |- *. repeat (apply andb_prop in H as [-> H]). reflexivity. }
  assert (Hm : Ascii.eqb "-" c = false).
  { cbn in H. do 10 (apply andb_prop in H as [_ H]).
    apply andb_prop in H as [H _]. now apply negb_true_iff in H. }
  destruct z as [| q | q].
  - cbn in H |- *. apply andb_prop in H as [-> _]. reflexivity.
  - change (pretty (Z.pos q)) with (pretty (N.pos q)).
    unfold pretty, pretty_N. rewrite decide_False by discriminate.
    now apply lacks_pretty_N_go.
  - change (pretty (Z.neg q)) with (String "-" (pretty (N.pos q))).
    cbn [lacks]. rewrite Hm. cbn [negb andb].
    unfold pretty, pretty_N. rewrite decide_False by discriminate.
    now apply lacks_pretty_N_go.
Qed.

Lemma split_app_sep_cons c s1 s2 :
  lacks c s1 = true ->
  Js.split c (s1 +:+ String c s2) = s1 :: Js.split c s2.
Proof.
  induction s1 as [| c' s1 IH].
  - intros _. change (EmptyString +:+ String c s2) with (String c s2).
    cbn [Js.split]. now rewrite Ascii.eqb_refl.
  - change (String c' s1 +:+ String c s2) with (String c' (s1 +:+ String c s2)).
    cbn [Js.split lacks].
    intros [Hc Hs]%andb_prop. apply negb_true_iff in Hc. rewrite Hc.
    now rewrite (IH Hs).
Qed.

Lemma lacks_monthName (i : nat) :
  lacks " " (Js.index_as_key IndexTsx.monthNames i) = true.
Proof.
  unfold Js.index_as_key, IndexTsx.monthNames.
  do 13 (destruct i as [| i]; [reflexivity |]). reflexivity.
Qed.

(** The year key of a row of [src/pages/Index.tsx] is the decimal calendar
    year of the date of its period. *)
Lemma IndexTsx_yearKey st date :
  yearKey (IndexTsx.detailedResult st date) = pretty (JsDate.getFullYear date).
Proof.
  unfold yearKey.
  change (Result.date (IndexTsx.detailedResult st date))
    with (Js.index_as_key IndexTsx.monthNames (Z.to_nat (JsDate.getMonth date))
          +:+ String " " (pretty (JsDate.getFullYear date))).
  rewrite split_app_sep_cons by apply lacks_monthName.
  rewrite split_lacks by (now apply lacks_pretty_Z).
  reflexivity.
Qed.

Lemma rowsOfYear_detailedResults st y (dates : list JsDate.t) :
  rowsOfYear (pretty y) (map (IndexTsx.detailedResult st) dates)
  = map (IndexTsx.detailedResult st)
      (filter (fun date => JsDate.getFullYear date = y) dates).
Proof.
  unfold rowsOfYear.
  induction dates as [| d dates IH]; [reflexivity |].
  cbn [map]. rewrite !filter_cons, IH, IndexTsx_yearKey.
  destruct (decide (JsDate.getFullYear d = y)) as [Hy | Hy].
  - rewrite decide_True by now rewrite Hy. reflexivity.
  - rewrite decide_False; [reflexivity |].
    intros Hp. apply Hy. now apply (inj pretty).
Qed.

(** X11.  Over a projection of [src/pages/Index.tsx] the yearly table groups
    by calendar year: the entry under the decimal year y exists exactly when
    some period ends in year y, and it holds the sums of hedgedCost,
    unhedgedCost and deltaPnL over the periods that end in year y. *)
Theorem index_yearly_by_calendar_year rnd st rows y :
  IndexTsx.results (IndexTsx.calculateResults rnd st) = Some rows ->
  let periods :=
    filter (fun date => JsDate.getFullYear date = y)
      (IndexTsx.months (IndexTsx.params st)) in
  let rowsOfY := map (IndexTsx.detailedResult st) periods in
  IndexTsxSummary.yearlyResults rows !! pretty y
  = if decide (periods = []) then None
    else Some (YearlyResult.mk (Rsum (map Result.hedgedCost rowsOfY))
                 (Rsum (map Result.unhedgedCost rowsOfY))
                 (Rsum (map Result.deltaPnL rowsOfY))).
Proof.
  cbn. intros [= <-].
  change (IndexTsxSummary.yearlyResults ?r)
    with (SavedScenarios.calculateYearlyResults r).
  rewrite yearly_lookup, rowsOfYear_detailedResults.
  destruct (filter _ (IndexTsx.months (IndexTsx.params st))) as [| d l];
    reflexivity.
Qed.

Lemma index_yearly_by_calendar_year_witness :
  let rows :=
    map (IndexTsx.detailedResult indexYearEndState)
      (IndexTsx.months (IndexTsx.params indexYearEndState)) in
  let periods :=
    filter (fun date => JsDate.getFullYear date = 2025%Z)
      (IndexTsx.months (IndexTsx.params indexYearEndState)) in
  let rowsOfY := map (IndexTsx.detailedResult indexYearEndState) periods in
  IndexTsxSummary.yearlyResults rows !! pretty 2025%Z
  = if decide (periods = []) then None
    else Some (YearlyResult.mk (Rsum (map Result.hedgedCost rowsOfY))
                 (Rsum (map Result.unhedgedCost rowsOfY))
                 (Rsum (map Result.deltaPnL rowsOfY))).
Proof.
  exact (index_yearly_by_calendar_year noDraws indexYearEndState _ 2025%Z eq_refl).
Defined.

(** ** The date string of a row and its month key *)

Lemma digitValue_digit k : (0 <= k <= 9)%Z -> JsDate.digitValue (JsDate.digit k) = Some k.
Proof.
  intros H.
  assert (Hk : (k = 0 \/ k = 1 \/ k = 2 \/ k = 3 \/ k = 4 \/ k = 5 \/ k = 6
                \/ k = 7 \/ k = 8 \/ k = 9)%Z) by lia.
  repeat (destruct Hk as [-> | Hk]; [reflexivity |]). now subst.
Qed.

Lemma parse2_digits n :
  (0 <= n)%Z ->
  JsDate.parse2 (JsDate.digit (n / 10 mod 10)) (JsDate.digit (n mod 10))
  = Some (n mod 100)%Z.
Proof.
  intros Hn. unfold JsDate.parse2.
  pose proof (Z.mod_pos_bound (n / 10) 10 ltac:(lia)).
  pose proof (Z.mod_pos_bound n 10 ltac:(lia)).
  rewrite !digitValue_digit by lia.
  f_equal. clear. Z.div_mod_to_equations. lia.
Qed.

Lemma validb_valid dt : JsDate.valid dt -> JsDate.validb dt = true.
Proof.
  unfold JsDate.valid, JsDate.validb. intros [[H1 H2] [H3 H4]].
  repeat (apply andb_true_intro; split); now apply Z.leb_le.
Qed.

(** Parsing the date-only ISO string of a calendar day of the years 0 to
    9999 gives the day back. *)
Lemma parseIsoDate_isoDate dt :
  JsDate.valid dt -> (0 <= JsDate.getFullYear dt <= 9999)%Z ->
  JsDate.parseIsoDate (JsDate.isoDate dt) = Some dt.
Proof.
  intros Hv Hy. pose proof (validb_valid dt Hv) as Hb.
  destruct dt as [y m d]. cbn in Hy. destruct Hv as [Hm Hd]. cbn in Hm, Hd.
  pose proof (daysInMonth_bounds y m) as Hdm.
  unfold JsDate.isoDate, JsDate.isoYear. cbn [JsDate.getFullYear JsDate.getMonth JsDate.getDate].
  replace ((0 <=? y)%Z && (y <=? 9999)%Z) with true
    by (symmetry; apply andb_true_intro; split; apply Z.leb_le; lia).
  cbv [JsDate.pad4 JsDate.pad2 String.append JsDate.parseIsoDate].
  cbn [Ascii.eqb Bool.eqb andb].
  rewrite !parse2_digits by (clear - Hy Hm Hd; Z.div_mod_to_equations; lia).
  replace (100 * (y / 100 mod 100) + y mod 100)%Z with y
    by (clear - Hy; Z.div_mod_to_equations; lia).
  replace ((m + 1) mod 100 - 1)%Z with m
    by (clear - Hm; Z.div_mod_to_equations; lia).
  replace (d mod 100)%Z with d
    by (clear - Hd Hdm; Z.div_mod_to_equations; lia).
  now rewrite Hb.
Qed.

Lemma Part001_resultRow_key rnd st i :
  JsDate.valid (Params.startDate (Part001.params st)) ->
  (0 <= JsDate.getFullYear (Part001.periodDate (Part001.params st) i) <= 9999)%Z ->
  JsDate.keyOfDateString (Result.date (Part001.resultRow rnd st i))
  = JsDate.monthKey (Part001.periodDate (Part001.params st) i).
Proof.
  intros Hv Hy. rewrite Part001_resultRow_date. unfold JsDate.keyOfDateString.
  rewrite parseIsoDate_isoDate; [reflexivity | | exact Hy].
  now apply setMonth_valid.
Qed.

Lemma Part001_rowAfterRemoval rnd st res pd newStrategy i :
  JsDate.valid (Params.startDate (Part001.params st)) ->
  (0 <= JsDate.getFullYear (Part001.periodDate (Part001.params st) i) <= 9999)%Z ->
  Part001.rowAfterRemoval (Part001.withResults st res pd) newStrategy
    (Part001.resultRow rnd st i)
  = Part001.resultRow rnd (Part001.withStrategy st newStrategy) i.
Proof.
  intros Hv Hy. unfold Part001.rowAfterRemoval.
  rewrite (Part001_resultRow_key rnd st i Hv Hy). reflexivity.
Qed.

(** X12.  Removing a leg after a projection, once the effect on the strategy
    has redrawn the payoff diagram, leaves exactly the state that projecting
    the reduced strategy gives (same draws): the rows are repriced from their
    stored forward, maturity and real price, and removing the last leg clears
    the results and the diagram.  The start date is a calendar day and the
    periods lie in the years 0 to 9999. *)
Theorem remove_leg_reprojects rnd st indexToRemove :
  JsDate.valid (Params.startDate (Part001.params st)) ->
  (forall i, (i < Params.monthsToHedge (Part001.params st))%nat ->
     (0 <= JsDate.getFullYear (Part001.periodDate (Part001.params st) i) <= 9999)%Z) ->
  Part001.strategyEffect
    (Part001.removeOption indexToRemove (Part001.calculateResults rnd st))
  = Part001.calculateResults rnd
      (Part001.withStrategy st (delete indexToRemove (Part001.strategy st))).
Proof.
  intros Hv Hy.
  unfold Part001.calculateResults, Part001.projection, Part001.removeOption,
    Part001.strategyEffect.
  cbn [Part001.strategy Part001.withResults Part001.withStrategy].
  destruct (delete indexToRemove (Part001.strategy st)) as [| o new] eqn:Hnew.
  - destruct (Part001.strategy st); reflexivity.
  - destruct (Part001.strategy st) as [| o0 old] eqn:Hold.
    { destruct indexToRemove; discriminate. }
    cbn [fst snd Part001.results Part001.withResults Part001.withStrategy option_map
         Part001.params Part001.strategy].
    unfold Part001.withResults, Part001.withStrategy.
    cbn [Part001.activeTab Part001.params Part001.initialSpotPrice Part001.strategy
         Part001.results Part001.manualForwards Part001.realPrices Part001.payoffData
         Part001.realPriceParams Part001.customScenario Part001.stressTestScenarios
         Part001.activeStressTest Part001.showImpliedVol Part001.customVolatilities].
    do 2 f_equal. rewrite map_map. apply map_ext_in. intros i Hi.
    apply in_seq in Hi.
    exact (Part001_rowAfterRemoval rnd st _ _ (o :: new) i Hv (Hy i ltac:(lia))).
Qed.

Lemma remove_leg_reprojects_witness :
  Part001.strategyEffect
    (Part001.removeOption 1 (Part001.calculateResults noDraws syntheticForwardState))
  = Part001.calculateResults noDraws
      (Part001.withStrategy syntheticForwardState
         (delete 1%nat (Part001.strategy syntheticForwardState))).
Proof.
  apply (remove_leg_reprojects noDraws syntheticForwardState 1).
  - vm_compute. intuition discriminate.
  - intros i Hi. change (i < 3)%nat in Hi.
    do 3 (destruct i as [| i]; [vm_compute; intuition discriminate |]). lia.
Defined.


(** ** Manual real prices *)

Lemma lookup_fold_insert_fun {A} (keyf : A -> string) (valf : A -> R)
    (l : list A) (m0 : gmap string R) (k : string) (v : R) :
  (forall x, In x l -> keyf x = k -> valf x = v) ->
  m0 !! k = Some v \/ (exists x, In x l /\ keyf x = k) ->
  fold_left (fun m x => <[keyf x := valf x]> m) l m0 !! k = Some v.
Proof.
  revert m0. induction l as [| a l IH]; intros m0 Hval Hk.
  - destruct Hk as [Hk | [x [[] _]]]. exact Hk.
  - cbn [fold_left]. apply IH.
    + intros x Hx. apply Hval. now right.
    + destruct (decide (keyf a = k)) as [Ha | Ha].
      * left. subst k. rewrite lookup_insert_eq. f_equal.
        apply Hval; [now left | reflexivity].
      * destruct Hk as [Hk | [x [[-> | Hx] Hxk]]].
        -- left. now rewrite lookup_insert_ne.
        -- contradiction.
        -- right. now exists x.
Qed.

Lemma or_else_same (v : R) : Js.or_else (Some v) v = v.
Proof. unfold Js.or_else. now destruct (Js.truthy v). Qed.

Lemma initRealPricesEffect_frame st :
  Part001.params (Part001.initRealPricesEffect st) = Part001.params st /\
  Part001.manualForwards (Part001.initRealPricesEffect st) = Part001.manualForwards st /\
  Part001.realPriceParams (Part001.initRealPricesEffect st) = Part001.realPriceParams st.
Proof.
  unfold Part001.initRealPricesEffect.
  now destruct (RealPriceParams.useSimulation (Part001.realPriceParams st)).
Qed.

Lemma initRealPricesEffect_realPrices st :
  RealPriceParams.useSimulation (Part001.realPriceParams st) = false ->
  Part001.realPrices (Part001.initRealPricesEffect st)
  = fold_left
      (fun (m : gmap string R) row =>
         <[JsDate.keyOfDateString (Result.date row) := Result.forward row]> m)
      (default [] (Part001.results st)) ∅.
Proof. intros H. unfold Part001.initRealPricesEffect. now rewrite H. Qed.

Lemma Part001_realPrice_manual rnd st i :
  RealPriceParams.useSimulation (Part001.realPriceParams st) = false ->
  Result.realPrice (Part001.resultRow rnd st i)
  = Js.or_else
      (Part001.realPrices st !! JsDate.monthKey (Part001.periodDate (Part001.params st) i))
      (Part001.forwardOf st (JsDate.monthKey (Part001.periodDate (Part001.params st) i))).
Proof.
  intros H.
  change (Result.realPrice (Part001.resultRow rnd st i))
    with (if RealPriceParams.useSimulation (Part001.realPriceParams st)
          then Part001.calculateSimulatedPrice (Params.spotPrice (Part001.params st))
                 i (Part001.realPriceParams st) (rnd i)
          else Js.or_else
                 (Part001.realPrices st
                    !! JsDate.monthKey (Part001.periodDate (Part001.params st) i))
                 (Part001.forwardOf st
                    (JsDate.monthKey (Part001.periodDate (Part001.params st) i)))).
  now rewrite H.
Qed.

(** X13.  When the state holds the rows of a projection and useSimulation is
    off, the effect on useSimulation makes the next projection give every
    period a real price equal to its forward price, whatever real prices were
    stored before; the forward prices are those of the rows.  The start date
    is a calendar day and the periods lie in the years 0 to 9999. *)
Theorem manual_real_prices_start_at_forward rnd rnd' st s i :
  JsDate.valid (Params.startDate (Part001.params st)) ->
  (forall j, (j < Params.monthsToHedge (Part001.params st))%nat ->
     (0 <= JsDate.getFullYear (Part001.periodDate (Part001.params st) j) <= 9999)%Z) ->
  Part001.params s = Part001.params st ->
  Part001.manualForwards s = Part001.manualForwards st ->
  Part001.results s = Part001.results (Part001.calculateResults rnd st) ->
  RealPriceParams.useSimulation (Part001.realPriceParams s) = false ->
  (i < Params.monthsToHedge (Part001.params st))%nat ->
  let s' := Part001.initRealPricesEffect s in
  Result.realPrice (Part001.resultRow rnd' s' i)
  = Result.forward (Part001.resultRow rnd' s' i)
  /\ Result.forward (Part001.resultRow rnd' s' i)
     = Result.forward (Part001.resultRow rnd st i).
Proof.
  intros Hv Hy Hp Hm Hr Hsim Hi s'.
  destruct (initRealPricesEffect_frame s) as (Hprm & Hmf & Hrpp).
  fold s' in Hprm, Hmf, Hrpp.
  rewrite Hp in Hprm. rewrite Hm in Hmf.
  assert (Hfwd : forall k, Part001.forwardOf s' k = Part001.forwardOf st k).
  { intros k. unfold Part001.forwardOf. now rewrite Hmf, Hprm. }
  split; [| now rewrite !Part001_forward_resultRow, Hfwd, Hprm].
  rewrite Part001_forward_resultRow.
  rewrite Part001_realPrice_manual by now rewrite Hrpp.
  rewrite Hprm, Hfwd.
  set (k := JsDate.monthKey (Part001.periodDate (Part001.params st) i)).
  assert (Hrp : Part001.realPrices s' !! k = None
                \/ Part001.realPrices s' !! k = Some (Part001.forwardOf st k)).
  { unfold s'. rewrite initRealPricesEffect_realPrices by exact Hsim.
    rewrite Hr, Part001_results_calculateResults.
    destruct (Part001.strategy st) as [| o l]; [left; apply lookup_empty |].
    right. cbn [default].
    apply (lookup_fold_insert_fun (fun row => JsDate.keyOfDateString (Result.date row))
             Result.forward).
    - intros row [j [<- Hj%in_seq]]%in_map_iff Hk.
      rewrite Part001_resultRow_key in Hk by (try apply Hy; (assumption || lia)).
      now rewrite Part001_forward_resultRow, Hk.
    - right. exists (Part001.resultRow rnd st i). split.
      + apply in_map, in_seq. lia.
      + now rewrite Part001_resultRow_key by (try apply Hy; (assumption || lia)). }
  destruct Hrp as [-> | ->]; [reflexivity | apply or_else_same].
Qed.

Lemma manual_real_prices_start_at_forward_witness :
  let s' := Part001.initRealPricesEffect (Part001.calculateResults noDraws sampleState) in
  Result.realPrice (Part001.resultRow noDraws s' 2)
  = Result.forward (Part001.resultRow noDraws s' 2).
Proof.
  apply (manual_real_prices_start_at_forward noDraws noDraws sampleState
           (Part001.calculateResults noDraws sampleState) 2).
  - vm_compute. intuition discriminate.
  - intros i Hi. change (i < 3)%nat in Hi.
    do 3 (destruct i as [| i]; [vm_compute; intuition discriminate |]). lia.
  - reflexivity.
  - reflexivity.
  - reflexivity.
  - reflexivity.
  - cbn. lia.
Defined.

(** ** Stress tests and the spot price *)

Lemma Part001_applyStressTest_params rnd key st :
  Part001.params (Part001.applyStressTest rnd key st) = Part001.params st.
Proof.
  unfold Part001.applyStressTest.
  now destruct (Part001.stressTestScenarios st !! key).
Qed.

Lemma Part001_iter_applyStressTest_params rnd key st n :
  Part001.params (Nat.iter n (Part001.applyStressTest rnd key) st) = Part001.params st.
Proof.
  induction n as [| n IH]; [reflexivity |].
  rewrite Nat.iter_succ, Part001_applyStressTest_params. exact IH.
Qed.

Lemma IndexTsx_applyStressTest_spot rnd key st :
  Params.spotPrice (IndexTsx.params (IndexTsx.applyStressTest rnd key st))
  = Params.spotPrice (IndexTsx.params st)
    * (1 + IndexTsx.priceShock (IndexTsx.stressTestScenarios key)).
Proof.
  unfold IndexTsx.applyStressTest. cbn [IndexTsx.params].
  unfold Js.truthy.
  destruct (Req_dec_T (IndexTsx.priceShock (IndexTsx.stressTestScenarios key)) 0)
    as [-> | _]; cbn [Params.spotPrice]; ring.
Qed.

(** X14.  In [src/pages/Index.tsx] every application of a scenario multiplies
    the current spot price by (1 + priceShock): n applications give
    spot * (1 + priceShock)^n (0.8^n for the crash).  In [unnamed/part_001]
    no number of applications changes the parameters. *)
Theorem stress_test_spot_price rnd key key' st st' n :
  Params.spotPrice (IndexTsx.params (Nat.iter n (IndexTsx.applyStressTest rnd key) st))
  = Params.spotPrice (IndexTsx.params st)
    * (1 + IndexTsx.priceShock (IndexTsx.stressTestScenarios key)) ^ n
  /\ Part001.params (Nat.iter n (Part001.applyStressTest rnd key') st')
     = Part001.params st'.
Proof.
  split; [| apply Part001_iter_applyStressTest_params].
  induction n as [| n IH].
  - cbn [Nat.iter pow]. now rewrite Rmult_1_r.
  - rewrite Nat.iter_succ, IndexTsx_applyStressTest_spot, IH. cbn [pow]. ring.
Qed.

Lemma Part001_applyStressTest_zero_basis rnd key st K :
  Part001.stressTestScenarios st !! key = Some K ->
  StressTestScenario.forwardBasis K = Some 0 ->
  StressTestScenario.realBasis K = None ->
  Part001.manualForwards (Part001.applyStressTest rnd key st) = ∅ /\
  Part001.realPriceParams (Part001.applyStressTest rnd key st)
  = RealPriceParams.mk true (StressTestScenario.volatility K)
      (StressTestScenario.drift K)
      (RealPriceParams.numSimulations (Part001.realPriceParams st)).
Proof.
  intros Hk Hf Hr. unfold Part001.applyStressTest. rewrite Hk.
  cbn [Part001.manualForwards Part001.realPriceParams].
  unfold Part001.stressedCurves, Part001.stressedForwards.
  rewrite Hf, Hr, truthy_0. split; reflexivity.
Qed.

(** X15.  In [unnamed/part_001] the price shock of a scenario with a zero
    forward basis and no real basis (base, highVol, crash, bull) reaches
    nothing: after it is applied, the next projection prices every period at
    the unshocked spot price as forward, and simulates the real price from the
    unshocked spot price with the scenario's volatility and drift. *)
Theorem zero_basis_shock_ignored rnd rnd' key st K i :
  Part001.stressTestScenarios st !! key = Some K ->
  StressTestScenario.forwardBasis K = Some 0 ->
  StressTestScenario.realBasis K = None ->
  let row := Part001.resultRow rnd' (Part001.applyStressTest rnd key st) i in
  Result.forward row = Params.spotPrice (Part001.params st) /\
  Result.realPrice row
  = Params.spotPrice (Part001.params st)
    * exp ((StressTestScenario.drift K
            - StressTestScenario.volatility K * StressTestScenario.volatility K / 2)
           * (INR i / 12)
           + StressTestScenario.volatility K * sqrt (INR i / 12) * (rnd' i * 2 - 1)).
Proof.
  intros Hk Hf Hr row.
  destruct (Part001_applyStressTest_zero_basis rnd key st K Hk Hf Hr) as [Hmf Hrpp].
  pose proof (Part001_applyStressTest_params rnd key st) as Hprm.
  split.
  - unfold row. rewrite Part001_forward_resultRow. unfold Part001.forwardOf.
    now rewrite Hmf, lookup_empty, Hprm.
  - unfold row.
    change (Result.realPrice (Part001.resultRow rnd' (Part001.applyStressTest rnd key st) i))
      with (let st1 := Part001.applyStressTest rnd key st in
            if RealPriceParams.useSimulation (Part001.realPriceParams st1)
            then Part001.calculateSimulatedPrice (Params.spotPrice (Part001.params st1))
                   i (Part001.realPriceParams st1) (rnd' i)
            else Js.or_else
                   (Part001.realPrices st1
                      !! JsDate.monthKey (Part001.periodDate (Part001.params st1) i))
                   (Part001.forwardOf st1
                      (JsDate.monthKey (Part001.periodDate (Part001.params st1) i)))).
    cbv zeta. rewrite Hrpp, Hprm. reflexivity.
Qed.

Lemma initialScenarios_crash :
  Part001.initialScenarios !! "crash"
  = Some (StressTestScenario.mk "Market Crash"
            "High volatility, negative drift, price shock"
            0.5 (-0.03) (-0.2) (Some 0) None None (Some true)).
Proof. catalog_lookup. Qed.

Lemma zero_basis_shock_ignored_witness :
  Result.forward
    (Part001.resultRow noDraws (Part001.applyStressTest noDraws "crash" sampleState) 1)
  = 100.
Proof.
  exact (proj1 (zero_basis_shock_ignored noDraws noDraws "crash" sampleState _ 1
                  initialScenarios_crash eq_refl eq_refl)).
Defined.

(** ** The periods of [src/pages/Index.tsx] *)

Lemma monthsLoop_length k cur : length (IndexTsx.monthsLoop k cur) = k.
Proof.
  revert cur. induction k as [| k IH]; intros cur; [reflexivity |].
  cbn [IndexTsx.monthsLoop length]. now rewrite IH.
Qed.

Lemma monthsLoop_lookup k cur j :
  (j < k)%nat ->
  IndexTsx.monthsLoop k cur !! j
  = Some (IndexTsx.lastDayOfMonth (Nat.iter (S j) nextMonth cur)).
Proof.
  revert cur j. induction k as [| k IH]; intros cur j Hj; [lia |].
  cbn [IndexTsx.monthsLoop]. destruct j as [| j]; [reflexivity |].
  change ((?x :: ?l) !! S j) with (l !! j).
  rewrite IH by lia. now rewrite (Nat.iter_succ_r (S j)).
Qed.

Lemma remainingDays_pos dt :
  JsDate.valid dt ->
  (0 <? JsDate.getDate (IndexTsx.lastDayOfMonth dt) - JsDate.getDate dt + 1)%Z = true.
Proof.
  intros [Hm Hd]. unfold IndexTsx.lastDayOfMonth.
  rewrite make_last_day by exact Hm. cbn [JsDate.getDate].
  apply Z.ltb_lt. lia.
Qed.

Lemma IndexTsx_months_cons prm :
  JsDate.valid (Params.startDate prm) ->
  IndexTsx.months prm
  = IndexTsx.lastDayOfMonth (Params.startDate prm)
      :: IndexTsx.monthsLoop (Params.monthsToHedge prm - 1) (Params.startDate prm).
Proof.
  intros Hv. unfold IndexTsx.months. now rewrite remainingDays_pos.
Qed.

Lemma IndexTsx_months_lookup prm j :
  JsDate.valid (Params.startDate prm) ->
  (j < Nat.max 1 (Params.monthsToHedge prm))%nat ->
  IndexTsx.months prm !! j
  = Some (IndexTsx.lastDayOfMonth (Nat.iter j nextMonth (Params.startDate prm))).
Proof.
  intros Hv Hj. rewrite IndexTsx_months_cons by exact Hv.
  destruct j as [| j]; [reflexivity |].
  change ((?x :: ?l) !! S j) with (l !! j).
  apply monthsLoop_lookup. lia.
Qed.

Lemma iter_nextMonth_mk start k :
  JsDate.valid start -> (JsDate.getDate start <= 28)%Z ->
  Nat.iter k nextMonth start
  = JsDate.mk (JsDate.getFullYear start + (JsDate.getMonth start + Z.of_nat k) / 12)
      ((JsDate.getMonth start + Z.of_nat k) mod 12) (JsDate.getDate start).
Proof.
  intros Hv H28. rewrite iter_nextMonth by assumption.
  unfold JsDate.setMonth. apply make_no_overflow.
  destruct Hv as [_ Hd]. lia.
Qed.

Lemma IndexTsx_months_length prm :
  JsDate.valid (Params.startDate prm) ->
  length (IndexTsx.months prm) = Nat.max 1 (Params.monthsToHedge prm).
Proof.
  intros Hv. rewrite IndexTsx_months_cons by exact Hv.
  cbn [length]. rewrite monthsLoop_length. lia.
Qed.

(** X16.  The projector of [src/pages/Index.tsx] has max(1, monthsToHedge)
    periods (one period even for a horizon of zero months); when the start
    date is a calendar day up to the 28th, period j is the last day of the
    j-th month after the start month. *)
Theorem index_periods_month_ends prm :
  JsDate.valid (Params.startDate prm) ->
  length (IndexTsx.months prm) = Nat.max 1 (Params.monthsToHedge prm) /\
  ((JsDate.getDate (Params.startDate prm) <= 28)%Z ->
   forall j, (j < Nat.max 1 (Params.monthsToHedge prm))%nat ->
     let y := (JsDate.getFullYear (Params.startDate prm)
               + (JsDate.getMonth (Params.startDate prm) + Z.of_nat j) / 12)%Z in
     let m := ((JsDate.getMonth (Params.startDate prm) + Z.of_nat j) mod 12)%Z in
     IndexTsx.months prm !! j = Some (JsDate.mk y m (JsDate.daysInMonth y m))).
Proof.
  intros Hv. split.
  - now apply IndexTsx_months_length.
  - intros H28 j Hj y m.
    rewrite IndexTsx_months_lookup by assumption.
    rewrite iter_nextMonth_mk by assumption.
    unfold IndexTsx.lastDayOfMonth. cbn [JsDate.getFullYear JsDate.getMonth].
    fold y m. rewrite make_last_day; [reflexivity |].
    subst m.
    pose proof (Z.mod_pos_bound
                  (JsDate.getMonth (Params.startDate prm) + Z.of_nat j) 12 ltac:(lia)).
    lia.
Qed.

Lemma index_periods_month_ends_witness :
  length (IndexTsx.months sampleParams) = 3%nat /\
  IndexTsx.months sampleParams !! 1%nat = Some (JsDate.mk 2024 1 29).
Proof.
  assert (Hv : JsDate.valid (Params.startDate sampleParams))
    by (vm_compute; intuition discriminate).
  destruct (index_periods_month_ends sampleParams Hv) as [Hlen Hlk].
  split; [exact Hlen |].
  apply (Hlk ltac:(vm_compute; discriminate) 1%nat). cbn. lia.
Defined.

(** ** The forward curve of a stress test in [src/pages/Index.tsx] *)

Lemma forwardCurveLoop_forEachMonth spotPrice forwardBasis n i cur prev :
  IndexTsx.forwardCurveLoop spotPrice forwardBasis i n cur prev
  = Part001.forEachMonth
      (fun i monthKey (prev : gmap string R) =>
         <[monthKey := spotPrice * exp (forwardBasis * (INR i / 12) * 12)]> prev)
      i n cur prev.
Proof.
  revert i cur prev. induction n as [| n IH]; intros i cur prev; [reflexivity |].
  cbn [IndexTsx.forwardCurveLoop Part001.forEachMonth]. apply IH.
Qed.

Lemma lookup_fold_insert_other {A} (keyf : A -> string) (valf : A -> R)
    (l : list A) (m0 : gmap string R) (k : string) :
  (forall x, In x l -> keyf x <> k) ->
  fold_left (fun m x => <[keyf x := valf x]> m) l m0 !! k = m0 !! k.
Proof.
  revert m0. induction l as [| a l IH]; intros m0 Hk; [reflexivity |].
  cbn [fold_left]. rewrite IH by (intros x Hx; apply Hk; now right).
  apply lookup_insert_ne, Hk. now left.
Qed.

Lemma monthKey_lastDayOfMonth dt :
  (0 <= JsDate.getMonth dt <= 11)%Z ->
  JsDate.monthKey (IndexTsx.lastDayOfMonth dt) = JsDate.monthKey dt.
Proof.
  intros Hm. unfold IndexTsx.lastDayOfMonth. now rewrite make_last_day.
Qed.

Lemma iter_nextMonth_month start k :
  JsDate.valid start -> (JsDate.getDate start <= 28)%Z ->
  (0 <= JsDate.getMonth (Nat.iter k nextMonth start) <= 11)%Z.
Proof.
  intros Hv H28. rewrite iter_nextMonth_mk by assumption. cbn [JsDate.getMonth].
  pose proof (Z.mod_pos_bound (JsDate.getMonth start + Z.of_nat k) 12 ltac:(lia)).
  lia.
Qed.

Lemma iter_nextMonth_key_inj start i j :
  JsDate.valid start -> (JsDate.getDate start <= 28)%Z ->
  JsDate.monthKey (Nat.iter i nextMonth start)
  = JsDate.monthKey (Nat.iter j nextMonth start) ->
  i = j.
Proof.
  intros Hv H28. rewrite !iter_nextMonth by assumption.
  apply (periodDate_key_inj (Params.mk start 0 0 0 0) i j Hv H28).
Qed.

Lemma IndexTsx_basis_without_shock key :
  IndexTsx.forwardBasis (IndexTsx.stressTestScenarios key) <> 0 ->
  IndexTsx.priceShock (IndexTsx.stressTestScenarios key) = 0.
Proof. destruct key; cbn; intros H; solve [reflexivity | exfalso; lra]. Qed.

Lemma IndexTsx_applyStressTest_basis rnd key st :
  IndexTsx.forwardBasis (IndexTsx.stressTestScenarios key) <> 0 ->
  IndexTsx.params (IndexTsx.applyStressTest rnd key st) = IndexTsx.params st /\
  IndexTsx.manualForwards (IndexTsx.applyStressTest rnd key st)
  = fold_left
      (fun prev i =>
         <[JsDate.monthKey (Nat.iter (S i) nextMonth (Params.startDate (IndexTsx.params st)))
           := Params.spotPrice (IndexTsx.params st)
              * exp (IndexTsx.forwardBasis (IndexTsx.stressTestScenarios key) * INR i)]>
           prev)
      (seq 0 (Params.monthsToHedge (IndexTsx.params st))) (IndexTsx.manualForwards st).
Proof.
  intros Hb. unfold IndexTsx.applyStressTest.
  cbn [IndexTsx.params IndexTsx.manualForwards].
  rewrite (IndexTsx_basis_without_shock key Hb), truthy_0, (truthy_nonzero _ Hb).
  split; [reflexivity |].
  rewrite forwardCurveLoop_forEachMonth, forEachMonth_fold.
  apply fold_left_pointwise. intros prev i. cbn [Nat.add].
  replace (IndexTsx.forwardBasis (IndexTsx.stressTestScenarios key) * (INR i / 12) * 12)
    with (IndexTsx.forwardBasis (IndexTsx.stressTestScenarios key) * INR i) by field.
  reflexivity.
Qed.

(** X17.  In [src/pages/Index.tsx], after a scenario with a forward basis
    (contango, backwardation) is applied, the next projection reads the curve
    one period late: period j + 1 has the forward spot * e^(basis * j), and
    period 0 keeps the forward it had before.  The start date is a calendar
    day up to the 28th and the spot price is not zero. *)
Theorem index_forward_curve_shifted rnd rnd' key st rows :
  JsDate.valid (Params.startDate (IndexTsx.params st)) ->
  (JsDate.getDate (Params.startDate (IndexTsx.params st)) <= 28)%Z ->
  IndexTsx.forwardBasis (IndexTsx.stressTestScenarios key) <> 0 ->
  Params.spotPrice (IndexTsx.params st) <> 0 ->
  IndexTsx.results
    (IndexTsx.calculateResults rnd' (IndexTsx.applyStressTest rnd key st)) = Some rows ->
  Result.forward <$> rows !! 0%nat
  = IndexTsx.forwardOf st <$> IndexTsx.months (IndexTsx.params st) !! 0%nat /\
  (forall j row, rows !! S j = Some row ->
     Result.forward row
     = Params.spotPrice (IndexTsx.params st)
       * exp (IndexTsx.forwardBasis (IndexTsx.stressTestScenarios key) * INR j)).
Proof.
  intros Hv H28 Hb Hspot Hres.
  destruct (IndexTsx_applyStressTest_basis rnd key st Hb) as [Hprm Hmf].
  set (start := Params.startDate (IndexTsx.params st)) in *.
  set (keyOf := fun i : nat => JsDate.monthKey (Nat.iter (S i) nextMonth start)) in *.
  set (valOf := fun i : nat =>
         Params.spotPrice (IndexTsx.params st)
         * exp (IndexTsx.forwardBasis (IndexTsx.stressTestScenarios key) * INR i)) in *.
  set (st' := IndexTsx.applyStressTest rnd key st) in *.
  assert (Hrows : rows = map (IndexTsx.detailedResult st')
                           (IndexTsx.months (IndexTsx.params st))).
  { rewrite <- Hprm.
    change (Some (map (IndexTsx.detailedResult st') (IndexTsx.months (IndexTsx.params st')))
            = Some rows) in Hres.
    congruence. }
  clear Hres. subst rows.
  split.
  - change (map ?f ?l) with (f <$> l). rewrite list_lookup_fmap.
    rewrite IndexTsx_months_lookup by (try exact Hv; lia).
    cbn [Nat.iter fmap option_fmap option_map]. f_equal.
    rewrite IndexTsx_forward_detailedResult. unfold IndexTsx.forwardOf.
    rewrite Hprm, Hmf.
    rewrite (lookup_fold_insert_other keyOf valOf); [reflexivity |].
    intros i _ Heq. unfold keyOf in Heq.
    rewrite monthKey_lastDayOfMonth in Heq by (destruct Hv; assumption).
    apply (iter_nextMonth_key_inj start (S i) 0 Hv H28) in Heq. discriminate.
  - intros j row Hrow.
    apply lookup_map in Hrow as (date & Hdate & ->).
    assert (Hj : (S j < Nat.max 1 (Params.monthsToHedge (IndexTsx.params st)))%nat).
    { apply lookup_lt_Some in Hdate.
      rewrite (IndexTsx_months_length (IndexTsx.params st) Hv) in Hdate. exact Hdate. }
    rewrite IndexTsx_months_lookup in Hdate by assumption.
    assert (Hd : date = IndexTsx.lastDayOfMonth (Nat.iter (S j) nextMonth start))
      by (injection Hdate as Hd; symmetry; exact Hd).
    clear Hdate. subst date.
    rewrite IndexTsx_forward_detailedResult. unfold IndexTsx.forwardOf.
    rewrite Hmf, monthKey_lastDayOfMonth
      by (now apply (iter_nextMonth_month start (S j))).
    change (JsDate.monthKey (Nat.iter (S j) nextMonth start)) with (keyOf j).
    rewrite (lookup_fold_insert_fun keyOf valOf _ _ (keyOf j) (valOf j)).
    + cbn [Js.or_else]. rewrite truthy_nonzero; [reflexivity |].
      unfold valOf. pose proof (exp_pos
        (IndexTsx.forwardBasis (IndexTsx.stressTestScenarios key) * INR j)). nra.
    + intros i _ Heq. unfold keyOf in Heq.
      apply (iter_nextMonth_key_inj start (S i) (S j) Hv H28) in Heq.
      now injection Heq as ->.
    + right. exists j. split; [apply in_seq; lia | reflexivity].
Qed.

Lemma index_forward_curve_shifted_witness :
  let st' := IndexTsx.applyStressTest noDraws IndexTsx.contango indexYearEndState in
  Result.forward
    <$> map (IndexTsx.detailedResult st') (IndexTsx.months (IndexTsx.params st')) !! 0%nat
  = IndexTsx.forwardOf indexYearEndState
    <$> IndexTsx.months (IndexTsx.params indexYearEndState) !! 0%nat.
Proof.
  refine (proj1 (index_forward_curve_shifted noDraws noDraws IndexTsx.contango
                   indexYearEndState _ _ _ _ _ eq_refl)).
  - vm_compute. intuition discriminate.
  - vm_compute. discriminate.
  - cbn. lra.
  - cbn. lra.
Defined.

(** ** The selection of the PDF export *)

(** X18.  Toggling an id flips its membership in the selection and leaves
    the membership of every other id as it was; a selection without
    duplicates stays without duplicates. *)
Theorem toggle_flips_membership (id id' : string) (selected : list string) :
  (id' ∈ ScenariosPdfExport.toggleScenario id selected
   <-> (id' = id /\ id ∉ selected) \/ (id' <> id /\ id' ∈ selected)) /\
  (NoDup selected -> NoDup (ScenariosPdfExport.toggleScenario id selected)).
Proof.
  unfold ScenariosPdfExport.toggleScenario, ScenariosPdfExport.includes.
  destruct (bool_decide_reflect (id ∈ selected)) as [Hin | Hnin]; split.
  - rewrite list_elem_of_filter. split.
    + intros [Hne Hin']. right. now split.
    + intros [[-> Hn] | [Hne Hin']]; [contradiction | now split].
  - intros Hnd. now apply NoDup_filter.
  - rewrite elem_of_app, list_elem_of_singleton. split.
    + intros [Hin' | ->]; [right | left; now split].
      split; [| exact Hin']. intros ->. contradiction.
    + intros [[-> _] | [_ Hin']]; [now right | now left].
  - intros Hnd. apply NoDup_app. split; [exact Hnd |]. split.
    + intros x Hx ->%list_elem_of_singleton. contradiction.
    + apply NoDup_singleton.
Qed.

Lemma toggle_flips_membership_witness :
  NoDup (ScenariosPdfExport.toggleScenario "b" ["a"; "b"; "c"]).
Proof.
  apply (proj2 (toggle_flips_membership "b" "b" ["a"; "b"; "c"])).
  repeat (apply NoDup_cons; split; [rewrite ?elem_of_cons, ?elem_of_nil; intuition discriminate |]).
  apply NoDup_nil_2.
Defined.

Lemma scenariosToExport_all scenarios :
  ScenariosPdfExport.scenariosToExport scenarios (map SavedScenario.id scenarios)
  = scenarios.
Proof.
  unfold ScenariosPdfExport.scenariosToExport.
  assert (H : forall ids : list string, (forall s, s ∈ scenarios -> SavedScenario.id s ∈ ids) ->
            filter (fun s => SavedScenario.id s ∈ ids) scenarios = scenarios).
  { intros ids. induction scenarios as [| s l IH]; intros Hall; [reflexivity |].
    rewrite filter_cons, decide_True by (apply Hall; left).
    f_equal. apply IH. intros s' Hs'. apply Hall. now right. }
  apply H. intros s Hs. change (map ?f ?l) with (f <$> l).
  now apply list_elem_of_fmap_2.
Qed.

(** X19.  The select-all box compares lengths only.  When the selection and
    the scenario list differ in length, toggling selects every scenario (the
    export then prints all of them, in order) and toggling again clears the
    selection; when they have the same length, whatever the selected ids are,
    toggling clears the selection and nothing is exported. *)
Theorem toggle_all_by_length (scenarios : list SavedScenario.t) (selected : list string) :
  (length selected <> length scenarios ->
   ScenariosPdfExport.scenariosToExport scenarios
     (ScenariosPdfExport.toggleAll scenarios selected) = scenarios /\
   ScenariosPdfExport.toggleAll scenarios
     (ScenariosPdfExport.toggleAll scenarios selected) = []) /\
  (length selected = length scenarios ->
   ScenariosPdfExport.toggleAll scenarios selected = [] /\
   ScenariosPdfExport.scenariosToExport scenarios
     (ScenariosPdfExport.toggleAll scenarios selected) = []).
Proof.
  unfold ScenariosPdfExport.toggleAll. split.
  - intros Hne. apply Nat.eqb_neq in Hne. rewrite Hne.
    split; [apply scenariosToExport_all |].
    now rewrite length_map, Nat.eqb_refl.
  - intros Heq. apply Nat.eqb_eq in Heq. rewrite Heq.
    split; [reflexivity |].
    unfold ScenariosPdfExport.scenariosToExport.
    induction scenarios as [| s l IH] in |- *; [reflexivity |].
    rewrite filter_cons, decide_False by apply not_elem_of_nil. exact IH.
Qed.

Lemma toggle_all_by_length_witness :
  ScenariosPdfExport.toggleAll [] ["stale"] = [] /\
  ScenariosPdfExport.toggleAll [] (ScenariosPdfExport.toggleAll [] ["stale"]) = [].
Proof.
  destruct (proj1 (toggle_all_by_length [] ["stale"]) ltac:(discriminate)) as [_ H2].
  split; [reflexivity | exact H2].
Defined.

(** ** Resetting a scenario *)

Lemma DEFAULT_SCENARIOS_lookup key :
  In key ["base"; "highVol"; "crash"; "bull"] /\
  Part001.DEFAULT_SCENARIOS !! key = Part001.initialScenarios !! key /\
  is_Some (Part001.DEFAULT_SCENARIOS !! key)
  \/
  ~ In key ["base"; "highVol"; "crash"; "bull"] /\
  Part001.DEFAULT_SCENARIOS !! key = None.
Proof.
  unfold Part001.DEFAULT_SCENARIOS, Part001.initialScenarios.
  destruct (decide (key = "base")) as [-> | H1].
  { left. rewrite !lookup_insert_eq. cbn. eauto 7. }
  rewrite !(lookup_insert_ne _ "base" key) by congruence.
  destruct (decide (key = "highVol")) as [-> | H2].
  { left. rewrite !lookup_insert_eq. cbn. eauto 7. }
  rewrite !(lookup_insert_ne _ "highVol" key) by congruence.
  destruct (decide (key = "crash")) as [-> | H3].
  { left. rewrite !lookup_insert_eq. cbn. eauto 7. }
  rewrite !(lookup_insert_ne _ "crash" key) by congruence.
  destruct (decide (key = "bull")) as [-> | H4].
  { left. rewrite !lookup_insert_eq. cbn. eauto 7. }
  rewrite !(lookup_insert_ne _ "bull" key) by congruence.
  right. split; [cbn; intuition congruence | apply lookup_empty].
Qed.

(** X20.  resetScenario restores the entry of base, highVol, crash or bull to
    its value in the initial catalog and leaves every other entry as it is;
    for any other key (contango, backwardation, their real-price variants,
    custom, unknown keys) it leaves the catalog unchanged. *)
Theorem reset_scenario_scope (key : string) (scenarios : gmap string StressTestScenario.t) :
  (key ∈ ["base"; "highVol"; "crash"; "bull"] ->
   Part001.resetScenario key scenarios !! key = Part001.initialScenarios !! key /\
   forall key', key' <> key ->
     Part001.resetScenario key scenarios !! key' = scenarios !! key') /\
  (key ∉ ["base"; "highVol"; "crash"; "bull"] ->
   Part001.resetScenario key scenarios = scenarios).
Proof.
  unfold Part001.resetScenario.
  destruct (DEFAULT_SCENARIOS_lookup key) as [(Hin & Heq & [K HK]) | (Hnin & HN)].
  - apply list_elem_of_In in Hin.
    split; [| intros Hn; contradiction]. intros _. rewrite HK. split.
    + now rewrite lookup_insert_eq, <- Heq.
    + intros key' Hne. now rewrite lookup_insert_ne.
  - rewrite <- list_elem_of_In in Hnin.
    split; [intros Hi; contradiction |]. intros _. now rewrite HN.
Qed.

Lemma reset_scenario_scope_witness :
  Part001.resetScenario "contango" (delete "crash" Part001.initialScenarios)
  = delete "crash" Part001.initialScenarios /\
  Part001.resetScenario "crash" (delete "crash" Part001.initialScenarios) !! "crash"
  = Part001.initialScenarios !! "crash".
Proof.
  split.
  - apply (proj2 (reset_scenario_scope "contango" _)).
    rewrite !elem_of_cons, elem_of_nil. intuition discriminate.
  - apply (proj1 (reset_scenario_scope "crash" _)).
    rewrite !elem_of_cons. auto.
Defined.

(** ** The simulated path of [src/pages/Index.tsx] *)

Lemma simulateRealPrices_from_other rpp rnd months i cur prices k :
  (forall date, In date months -> JsDate.monthKey date <> k) ->
  IndexTsx.simulateRealPrices_from rpp rnd i cur prices months !! k = prices !! k.
Proof.
  revert i cur prices. induction months as [| date rest IH]; intros i cur prices Hk;
    [reflexivity |].
  cbn [IndexTsx.simulateRealPrices_from]. cbv zeta.
  rewrite IH by (intros d Hd; apply Hk; now right).
  apply lookup_insert_ne, Hk. now left.
Qed.

Lemma simulateRealPrices_from_lookup rpp rnd months i cur prices j date :
  months !! j = Some date ->
  (forall j' date', months !! j' = Some date' ->
     JsDate.monthKey date' = JsDate.monthKey date -> j' = j) ->
  IndexTsx.simulateRealPrices_from rpp rnd i cur prices months !! JsDate.monthKey date
  = Some (currentPriceAfter rpp rnd i cur j).
Proof.
  revert i cur prices j. induction months as [| d rest IH]; intros i cur prices j Hj Hinj;
    [discriminate |].
  cbn [IndexTsx.simulateRealPrices_from]. cbv zeta.
  destruct j as [| j].
  - injection Hj as ->.
    rewrite simulateRealPrices_from_other.
    + now rewrite lookup_insert_eq.
    + intros d' [j' Hd']%list_elem_of_In%list_elem_of_lookup_1 Heq.
      specialize (Hinj (S j') d' Hd' Heq). discriminate.
  - cbn [currentPriceAfter]. apply IH; [exact Hj |].
    intros j' d' Hd' Heq. specialize (Hinj (S j') d' Hd' Heq). now injection Hinj.
Qed.

Lemma currentPriceAfter_band rpp rnd lo hi j :
  (forall k,
     lo <= (RealPriceParams.drift rpp - RealPriceParams.volatility rpp ^ 2 / 2) * (1 / 12)
           + RealPriceParams.volatility rpp * sqrt (1 / 12) * (rnd k * 2 - 1) <= hi) ->
  forall i cur, 0 < cur ->
    cur * exp (INR (S j) * lo) <= currentPriceAfter rpp rnd i cur j
                               <= cur * exp (INR (S j) * hi).
Proof.
  intros Hstep. induction j as [| j IH]; intros i cur Hcur.
  - cbn [currentPriceAfter]. rewrite !Rmult_1_l.
    destruct (Hstep i) as [Hlo Hhi].
    split; apply Rmult_le_compat_l; try lra.
    + destruct Hlo as [Hlt | ->]; [left; now apply exp_increasing | right; reflexivity].
    + destruct Hhi as [Hlt | ->]; [left; now apply exp_increasing | right; reflexivity].
  - cbn [currentPriceAfter].
    set (step := (RealPriceParams.drift rpp - RealPriceParams.volatility rpp ^ 2 / 2)
                 * (1 / 12)
                 + RealPriceParams.volatility rpp * sqrt (1 / 12) * (rnd i * 2 - 1)).
    assert (Hpos : 0 < cur * exp step) by (apply Rmult_lt_0_compat; [lra | apply exp_pos]).
    destruct (IH (S i) (cur * exp step) Hpos) as [Hl Hu].
    destruct (Hstep i) as [Hlo Hhi]. fold step in Hlo, Hhi.
    assert (Helo : exp lo <= exp step)
      by (destruct Hlo as [Hlt | ->]; [left; now apply exp_increasing | right; reflexivity]).
    assert (Hehi : exp step <= exp hi)
      by (destruct Hhi as [Hlt | ->]; [left; now apply exp_increasing | right; reflexivity]).
    rewrite (S_INR (S j)), !Rmult_plus_distr_r, !Rmult_1_l, !exp_plus.
    pose proof (exp_pos (INR (S j) * lo)). pose proof (exp_pos (INR (S j) * hi)).
    pose proof (exp_pos lo). pose proof (exp_pos step).
    split.
    + eapply Rle_trans; [| exact Hl].
      rewrite (Rmult_comm (exp (INR (S j) * lo))), <- Rmult_assoc.
      apply Rmult_le_compat_r; [lra |]. apply Rmult_le_compat_l; lra.
    + eapply Rle_trans; [exact Hu |].
      rewrite (Rmult_comm (exp (INR (S j) * hi))), <- Rmult_assoc.
      apply Rmult_le_compat_r; [lra |]. apply Rmult_le_compat_l; lra.
Qed.

Lemma currentPriceAfter_pos rpp rnd j i cur :
  0 < cur -> 0 < currentPriceAfter rpp rnd i cur j.
Proof.
  revert i cur. induction j as [| j IH]; intros i cur Hcur; cbn [currentPriceAfter].
  - apply Rmult_lt_0_compat; [exact Hcur | apply exp_pos].
  - apply IH. apply Rmult_lt_0_compat; [exact Hcur | apply exp_pos].
Qed.

Lemma IndexTsx_months_key_inj prm j j' date date' :
  JsDate.valid (Params.startDate prm) ->
  (JsDate.getDate (Params.startDate prm) <= 28)%Z ->
  IndexTsx.months prm !! j = Some date ->
  IndexTsx.months prm !! j' = Some date' ->
  JsDate.monthKey date' = JsDate.monthKey date -> j' = j.
Proof.
  intros Hv H28 Hj Hj' Heq.
  pose proof (lookup_lt_Some _ _ _ Hj) as Hlt.
  pose proof (lookup_lt_Some _ _ _ Hj') as Hlt'.
  rewrite IndexTsx_months_length in Hlt, Hlt' by exact Hv.
  rewrite IndexTsx_months_lookup in Hj, Hj' by assumption.
  assert (Hd : date = IndexTsx.lastDayOfMonth (Nat.iter j nextMonth (Params.startDate prm)))
    by congruence.
  assert (Hd' : date' = IndexTsx.lastDayOfMonth (Nat.iter j' nextMonth (Params.startDate prm)))
    by congruence.
  subst date date'.
  rewrite !monthKey_lastDayOfMonth in Heq by (now apply iter_nextMonth_month).
  now apply iter_nextMonth_key_inj in Heq.
Qed.

(** X21.  In [src/pages/Index.tsx] with the simulation on, the rows of a
    projection never show the prices that this projection simulates: these
    are stored and read by the next projection, whose period j has as real
    price the spot price after the j + 1 steps of the random walk of the
    earlier draws, a positive price.  With draws in [0, 1] and a non-negative
    volatility it lies in the band
    spot * e^((j + 1) (a -/+ vol sqrt(1/12))), a = (drift - vol^2 / 2) / 12.
    The start date is a calendar day up to the 28th and the spot price is
    positive. *)
Theorem index_simulated_path rnd rnd' st rows j row :
  JsDate.valid (Params.startDate (IndexTsx.params st)) ->
  (JsDate.getDate (Params.startDate (IndexTsx.params st)) <= 28)%Z ->
  RealPriceParams.useSimulation (IndexTsx.realPriceParams st) = true ->
  0 < Params.spotPrice (IndexTsx.params st) ->
  IndexTsx.results (IndexTsx.calculateResults rnd' (IndexTsx.calculateResults rnd st))
  = Some rows ->
  rows !! j = Some row ->
  let rpp := IndexTsx.realPriceParams st in
  let spot := Params.spotPrice (IndexTsx.params st) in
  let a := (RealPriceParams.drift rpp - RealPriceParams.volatility rpp ^ 2 / 2) * (1 / 12) in
  let w := RealPriceParams.volatility rpp * sqrt (1 / 12) in
  IndexTsx.results (IndexTsx.calculateResults rnd st)
  = IndexTsx.results (IndexTsx.calculateResults rnd' st) /\
  Result.realPrice row = currentPriceAfter rpp rnd 0 spot j /\
  0 < Result.realPrice row /\
  ((forall k, 0 <= rnd k <= 1) -> 0 <= RealPriceParams.volatility rpp ->
   spot * exp (INR (S j) * (a - w)) <= Result.realPrice row
                                    <= spot * exp (INR (S j) * (a + w))).
Proof.
  intros Hv H28 Hsim Hspot Hres Hrow rpp spot a w.
  split; [reflexivity |].
  destruct (IndexTsx_results_lookup _ _ _ _ _ Hres Hrow) as (date & Hdate & ->).
  change (IndexTsx.params (IndexTsx.calculateResults rnd st))
    with (IndexTsx.params st) in Hdate.
  assert (Hreal : Result.realPrice
                    (IndexTsx.detailedResult (IndexTsx.calculateResults rnd st) date)
                  = Js.or_else (Some (currentPriceAfter rpp rnd 0 spot j))
                      (IndexTsx.forwardOf (IndexTsx.calculateResults rnd st) date)).
  { change (Result.realPrice
              (IndexTsx.detailedResult (IndexTsx.calculateResults rnd st) date))
      with (Js.or_else
              (IndexTsx.realPrices (IndexTsx.calculateResults rnd st)
                 !! JsDate.monthKey date)
              (IndexTsx.forwardOf (IndexTsx.calculateResults rnd st) date)).
    f_equal.
    change (IndexTsx.realPrices (IndexTsx.calculateResults rnd st))
      with (if RealPriceParams.useSimulation (IndexTsx.realPriceParams st)
            then IndexTsx.simulateRealPrices st rnd (IndexTsx.months (IndexTsx.params st))
            else IndexTsx.realPrices st).
    rewrite Hsim. unfold IndexTsx.simulateRealPrices.
    apply simulateRealPrices_from_lookup; [exact Hdate |].
    intros j' date' Hd' Heq.
    exact (IndexTsx_months_key_inj _ _ _ _ _ Hv H28 Hdate Hd' Heq). }
  assert (Hband : forall lo hi,
            (forall k, lo <= a + w * (rnd k * 2 - 1) <= hi) ->
            spot * exp (INR (S j) * lo) <= currentPriceAfter rpp rnd 0 spot j
                                        <= spot * exp (INR (S j) * hi)).
  { intros lo hi Hk. apply currentPriceAfter_band; [exact Hk | exact Hspot]. }
  pose proof (currentPriceAfter_pos rpp rnd j 0 spot Hspot) as Hpos.
  rewrite Hreal. cbn [Js.or_else]. rewrite truthy_nonzero by lra.
  split; [reflexivity |]. split; [exact Hpos |].
  intros Hrnd Hvol. apply Hband. intros k.
  assert (Hw : 0 <= w).
  { unfold w. apply Rmult_le_pos; [exact Hvol | apply sqrt_pos]. }
  specialize (Hrnd k). nra.
Qed.

Lemma index_simulated_path_witness :
  let st1 := IndexTsx.calculateResults noDraws indexSimulationState in
  let row := IndexTsx.detailedResult st1 (JsDate.mk 2024 1 29) in
  Result.realPrice row
  = currentPriceAfter (IndexTsx.realPriceParams indexSimulationState) noDraws 0 100 1
  /\ 0 < Result.realPrice row.
Proof.
  intros st1 row.
  assert (Hv : JsDate.valid (Params.startDate (IndexTsx.params indexSimulationState)))
    by (vm_compute; intuition discriminate).
  assert (H28 : (JsDate.getDate (Params.startDate (IndexTsx.params indexSimulationState))
                 <= 28)%Z) by (vm_compute; discriminate).
  assert (Hspot : 0 < Params.spotPrice (IndexTsx.params indexSimulationState))
    by (cbn; lra).
  assert (Hrow : map (IndexTsx.detailedResult st1) (IndexTsx.months (IndexTsx.params st1))
                 !! 1%nat = Some row).
  { apply lookup_map. exists (JsDate.mk 2024 1 29). split; [| reflexivity].
    vm_compute. reflexivity. }
  destruct (index_simulated_path noDraws noDraws indexSimulationState _ 1 row
              Hv H28 eq_refl Hspot eq_refl Hrow) as (_ & Hp & Hpos & _).
  split; [exact Hp | exact Hpos].
Defined.

(** ** Real-price scenarios *)

Lemma fold_left_ext_in {A B} (f g : A -> B -> A) (l : list B) (a : A) :
  (forall a x, In x l -> f a x = g a x) -> fold_left f l a = fold_left g l a.
Proof.
  revert a. induction l as [| x l IH]; intros a Hfg; [reflexivity |].
  cbn [fold_left]. rewrite Hfg by now left.
  apply IH. intros a' x' Hx'. apply Hfg. now right.
Qed.

Lemma fold_left_pair {A B C} (F : A -> C -> A) (G : B -> C -> B) (l : list C) a b :
  fold_left (fun (p : A * B) x => (F (fst p) x, G (snd p) x)) l (a, b)
  = (fold_left F l a, fold_left G l b).
Proof.
  revert a b. induction l as [| x l IH]; intros a b; [reflexivity |].
  cbn [fold_left fst snd]. apply IH.
Qed.

Lemma periodDate_iter prm k :
  JsDate.valid (Params.startDate prm) ->
  (JsDate.getDate (Params.startDate prm) <= 28)%Z ->
  Part001.periodDate prm k = Nat.iter k nextMonth (Params.startDate prm).
Proof. intros Hv H28. now rewrite iter_nextMonth. Qed.

Lemma baseForwardsOf_lookup st K i :
  JsDate.valid (Params.startDate (Part001.params st)) ->
  (JsDate.getDate (Params.startDate (Part001.params st)) <= 28)%Z ->
  (i < Params.monthsToHedge (Part001.params st))%nat ->
  Part001.baseForwardsOf st K
    !! JsDate.monthKey (Nat.iter (S i) nextMonth (Params.startDate (Part001.params st)))
  = Some (Part001.stressedSpotPriceOf st K
          * exp (Params.interestRate (Part001.params st) / 100 * (INR i / 12))).
Proof.
  intros Hv H28 Hi. unfold Part001.baseForwardsOf. rewrite forEachMonth_fold.
  apply (lookup_fold_insert_fun
           (fun k => JsDate.monthKey
                       (Nat.iter (S k) nextMonth (Params.startDate (Part001.params st))))
           (fun k => Part001.stressedSpotPriceOf st K
                     * exp (Params.interestRate (Part001.params st) / 100
                            * (INR (0 + k) / 12)))).
  - intros k _ Heq. apply iter_nextMonth_key_inj in Heq; [| assumption | assumption].
    now injection Heq as ->.
  - right. exists i. split; [apply in_seq; lia | reflexivity].
Qed.

Lemma stressedCurves_realBasis st K rb forwards1 :
  JsDate.valid (Params.startDate (Part001.params st)) ->
  (JsDate.getDate (Params.startDate (Part001.params st)) <= 28)%Z ->
  StressTestScenario.realBasis K = Some rb ->
  rb <> 0 ->
  Part001.stressedCurves st K forwards1
  = (fold_left
       (fun prev i =>
          <[JsDate.monthKey
              (Nat.iter (S i) nextMonth (Params.startDate (Part001.params st)))
            := Part001.stressedSpotPriceOf st K * exp (rb * INR i)]> prev)
       (seq 0 (Params.monthsToHedge (Part001.params st))) ∅,
     fold_left
       (fun prev i =>
          <[JsDate.monthKey
              (Nat.iter (S i) nextMonth (Params.startDate (Part001.params st)))
            := Part001.stressedSpotPriceOf st K
               * exp (Params.interestRate (Part001.params st) / 100 * (INR i / 12))]> prev)
       (seq 0 (Params.monthsToHedge (Part001.params st))) forwards1).
Proof.
  intros Hv H28 Hr Hnz. unfold Part001.stressedCurves.
  rewrite Hr, (truthy_nonzero rb Hnz), forEachMonth_fold.
  rewrite <- fold_left_pair. apply fold_left_ext_in.
  intros [rp mf] i Hi%in_seq. cbn [fst snd Nat.add].
  rewrite baseForwardsOf_lookup by (assumption || lia).
  replace (rb * (INR i / 12) * 12) with (rb * INR i) by field.
  reflexivity.
Qed.

(** X22.  In [unnamed/part_001], when the simulation is off and a scenario
    with a non-zero real basis is applied, the simulation stays off (so the
    effect on useSimulation does not run) and the next projection reads both
    curves one period late: period j + 1 has the real price
    stressedSpot * e^(realBasis * j) and the forward
    stressedSpot * e^(rate/100 * j/12), while period 0 gets no real price of
    its own and shows its forward as real price.  The start date is a
    calendar day up to the 28th and the stressed spot price is not zero. *)
Theorem realBasis_projection_shifted rnd rnd' key st K rb rows :
  JsDate.valid (Params.startDate (Part001.params st)) ->
  (JsDate.getDate (Params.startDate (Part001.params st)) <= 28)%Z ->
  RealPriceParams.useSimulation (Part001.realPriceParams st) = false ->
  Part001.stressTestScenarios st !! key = Some K ->
  StressTestScenario.realBasis K = Some rb ->
  rb <> 0 ->
  Part001.stressedSpotPriceOf st K <> 0 ->
  Part001.results
    (Part001.calculateResults rnd' (Part001.applyStressTest rnd key st)) = Some rows ->
  RealPriceParams.useSimulation
    (Part001.realPriceParams (Part001.applyStressTest rnd key st))
  = RealPriceParams.useSimulation (Part001.realPriceParams st) /\
  (forall row, rows !! 0%nat = Some row ->
     Result.realPrice row = Result.forward row) /\
  (forall j row, rows !! S j = Some row ->
     Result.realPrice row = Part001.stressedSpotPriceOf st K * exp (rb * INR j) /\
     Result.forward row
     = Part001.stressedSpotPriceOf st K
       * exp (Params.interestRate (Part001.params st) / 100 * (INR j / 12))).
Proof.
  intros Hv H28 Hoff Hk Hr Hnz Hspot Hres.
  set (st' := Part001.applyStressTest rnd key st) in *.
  pose proof (Part001_applyStressTest_params rnd key st) as Hprm. fold st' in Hprm.
  set (start := Params.startDate (Part001.params st)) in *.
  set (sp := Part001.stressedSpotPriceOf st K) in *.
  set (keyOf := fun i : nat => JsDate.monthKey (Nat.iter (S i) nextMonth start)).
  assert (Hcurves : Part001.realPrices st'
                    = fold_left (fun prev i => <[keyOf i := sp * exp (rb * INR i)]> prev)
                        (seq 0 (Params.monthsToHedge (Part001.params st))) ∅
                    /\ Part001.manualForwards st'
                       = fold_left
                           (fun prev i =>
                              <[keyOf i := sp * exp (Params.interestRate (Part001.params st)
                                                     / 100 * (INR i / 12))]> prev)
                           (seq 0 (Params.monthsToHedge (Part001.params st)))
                           (Part001.stressedForwards st K)
                    /\ RealPriceParams.useSimulation (Part001.realPriceParams st') = false).
  { unfold st', Part001.applyStressTest. rewrite Hk.
    cbn [Part001.realPrices Part001.manualForwards Part001.realPriceParams
         RealPriceParams.useSimulation].
    rewrite (stressedCurves_realBasis st K rb _ Hv H28 Hr Hnz), Hr.
    cbn [fst snd Js.not_opt]. rewrite (truthy_nonzero rb Hnz).
    repeat split. }
  destruct Hcurves as (Hrp & Hmf & Hsim).
  assert (Hkey : forall j, JsDate.monthKey (Part001.periodDate (Part001.params st') j)
                           = JsDate.monthKey (Nat.iter j nextMonth start)).
  { intros j. rewrite Hprm. now rewrite periodDate_iter. }
  split; [now rewrite Hsim, Hoff |].
  split.
  - intros row Hrow.
    destruct (Part001_results_lookup _ _ _ _ _ Hres Hrow) as [_ ->].
    rewrite Part001_realPrice_manual by exact Hsim.
    rewrite Part001_forward_resultRow, Hkey, Hrp.
    rewrite lookup_fold_insert_other; [now rewrite lookup_empty |].
    intros i _ Heq. apply (iter_nextMonth_key_inj start (S i) 0 Hv H28) in Heq.
    discriminate.
  - intros j row Hrow.
    destruct (Part001_results_lookup _ _ _ _ _ Hres Hrow) as [Hj ->].
    rewrite Hprm in Hj.
    assert (Hfwd : Result.forward (Part001.resultRow rnd' st' (S j))
                   = sp * exp (Params.interestRate (Part001.params st) / 100
                               * (INR j / 12))).
    { rewrite Part001_forward_resultRow, Hkey. unfold Part001.forwardOf.
      rewrite Hmf.
      rewrite (lookup_fold_insert_fun keyOf _ _ _ (keyOf j)
                 (sp * exp (Params.interestRate (Part001.params st) / 100 * (INR j / 12)))).
      - cbn [Js.or_else]. rewrite truthy_nonzero; [reflexivity |].
        pose proof (exp_pos (Params.interestRate (Part001.params st) / 100 * (INR j / 12))).
        nra.
      - intros i _ Heq. apply (iter_nextMonth_key_inj start (S i) (S j) Hv H28) in Heq.
        now injection Heq as ->.
      - right. exists j. split; [apply in_seq; lia | reflexivity]. }
    split; [| exact Hfwd].
    rewrite Part001_realPrice_manual by exact Hsim.
    rewrite Hkey, Hrp.
    rewrite (lookup_fold_insert_fun keyOf _ _ _ (keyOf j) (sp * exp (rb * INR j))).
    + cbn [Js.or_else]. rewrite truthy_nonzero; [reflexivity |].
      pose proof (exp_pos (rb * INR j)). nra.
    + intros i _ Heq. apply (iter_nextMonth_key_inj start (S i) (S j) Hv H28) in Heq.
      now injection Heq as ->.
    + right. exists j. split; [apply in_seq; lia | reflexivity].
Qed.

Lemma realBasis_projection_shifted_witness :
  let st' := Part001.applyStressTest noDraws "contangoReal" sampleState in
  Result.realPrice (Part001.resultRow noDraws st' 1)
  = 100 * (1 + 0) * exp (0.01 * INR 0).
Proof.
  intros st'.
  assert (Hres : Part001.results (Part001.calculateResults noDraws st')
                 = Some (map (Part001.resultRow noDraws st') (seq 0 3))).
  { rewrite Part001_results_calculateResults.
    unfold st', Part001.applyStressTest.
    change (Part001.stressTestScenarios sampleState) with Part001.initialScenarios.
    rewrite initialScenarios_contangoReal. reflexivity. }
  refine (proj1 (proj2 (proj2 (realBasis_projection_shifted noDraws noDraws
                                 "contangoReal" sampleState _ 0.01 _ _ _ eq_refl
                                 initialScenarios_contangoReal eq_refl _ _ Hres))
                   0%nat _ eq_refl)).
  - vm_compute. intuition discriminate.
  - vm_compute. discriminate.
  - lra.
  - unfold Part001.stressedSpotPriceOf. cbn. lra.
Defined.

(** ** Applying a scenario twice *)

Lemma fold_update_union {A} (key : A -> string) (val : A -> option R)
    (l : list A) (m : gmap string R) :
  fold_left (fun m x => match val x with
                        | Some v => <[key x := v]> m
                        | None => m
                        end) l m
  = fold_left (fun m x => match val x with
                          | Some v => <[key x := v]> m
                          | None => m
                          end) l ∅ ∪ m.
Proof.
  revert m. induction l as [| x l IH]; intros m.
  - cbn [fold_left]. now rewrite (left_id_L ∅ (∪)).
  - cbn [fold_left]. rewrite IH. rewrite (IH (match val x with
                                                | Some v => <[key x := v]> ∅
                                                | None => ∅
                                                end)).
    destruct (val x) as [v |].
    + rewrite <- (assoc_L (∪)). f_equal.
      now rewrite insert_union_singleton_l, insert_empty.
    + now rewrite (right_id_L ∅ (∪)).
Qed.

Lemma fold_update_idem {A} (key : A -> string) (val : A -> option R)
    (l : list A) (m : gmap string R) :
  let G := fold_left (fun m x => match val x with
                                 | Some v => <[key x := v]> m
                                 | None => m
                                 end) l in
  G (G m) = G m.
Proof.
  intros G. unfold G. rewrite (fold_update_union key val l (fold_left _ l m)).
  rewrite (fold_update_union key val l m).
  now rewrite (assoc_L (∪)), (idemp_L (∪)).
Qed.

Lemma stressedCurves_again st s1 K :
  Part001.params s1 = Part001.params st ->
  Part001.initialSpotPrice s1 = Part001.initialSpotPrice st ->
  Part001.manualForwards s1
  = snd (Part001.stressedCurves st K (Part001.stressedForwards st K)) ->
  Part001.realPrices s1
  = fst (Part001.stressedCurves st K (Part001.stressedForwards st K)) ->
  Part001.stressedCurves s1 K (Part001.stressedForwards s1 K)
  = Part001.stressedCurves st K (Part001.stressedForwards st K).
Proof.
  intros Hprm Hini Hmf Hrp.
  unfold Part001.stressedCurves, Part001.stressedForwards, Part001.baseForwardsOf,
    Part001.stressedSpotPriceOf in *.
  rewrite Hprm, Hini, Hrp, Hmf. clear Hrp Hmf.
  destruct (StressTestScenario.forwardBasis K) as [b |],
           (StressTestScenario.realBasis K) as [rb |];
    try destruct (Js.truthy rb); try reflexivity.
  cbn [fst snd]. rewrite !forEachMonth_fold.
  set (keyOf := fun k : nat =>
         JsDate.monthKey (Nat.iter (S k) nextMonth (Params.startDate (Part001.params st)))).
  set (bf := fold_left _ _ ∅).
  rewrite !(fold_left_pair
              (fun (rp : gmap string R) k =>
                 <[keyOf k := Part001.initialSpotPrice st
                              * (1 + StressTestScenario.priceShock K)
                              * exp (rb * (INR (0 + k) / 12) * 12)]> rp)
              (fun (mf : gmap string R) k =>
                 match bf !! keyOf k with
                 | Some forwardPrice => <[keyOf k := forwardPrice]> mf
                 | None => mf
                 end)).
  cbn [snd]. f_equal.
  apply (fold_update_idem keyOf (fun k => bf !! keyOf k)).
Qed.

(** X23.  In [unnamed/part_001], when a catalog scenario does not switch the
    simulation off (the simulation is already off, or the scenario has no
    real basis or a real basis of zero), the effect on useSimulation changes
    nothing after it is applied, and a second application of the same
    scenario changes neither curve, neither the simulation parameters nor the
    marker: it only recalculates, i.e. it gives the state that
    calculateResults gives after the first application. *)
Theorem stress_test_twice rnd rnd' key st K :
  Part001.stressTestScenarios st !! key = Some K ->
  RealPriceParams.useSimulation (Part001.realPriceParams st) = false
  \/ Js.not_opt (StressTestScenario.realBasis K) = true ->
  let s1 := Part001.applyStressTest rnd key st in
  (RealPriceParams.useSimulation (Part001.realPriceParams s1)
   = RealPriceParams.useSimulation (Part001.realPriceParams st)
   \/ Part001.initRealPricesEffect s1 = s1) /\
  Part001.applyStressTest rnd' key s1 = Part001.calculateResults rnd' s1.
Proof.
  intros Hk Hflag s1.
  assert (Hs1 : Part001.applyStressTest rnd key st
                = Part001.mkState (Part001.activeTab st) (Part001.params st)
                    (Part001.initialSpotPrice st) (Part001.strategy st)
                    (fst (Part001.projection rnd st))
                    (snd (Part001.stressedCurves st K (Part001.stressedForwards st K)))
                    (fst (Part001.stressedCurves st K (Part001.stressedForwards st K)))
                    (snd (Part001.projection rnd st))
                    (RealPriceParams.mk
                       (Js.not_opt (StressTestScenario.realBasis K))
                       (StressTestScenario.volatility K)
                       (StressTestScenario.drift K)
                       (RealPriceParams.numSimulations (Part001.realPriceParams st)))
                    (Part001.customScenario st) (Part001.stressTestScenarios st)
                    (Some key) (Part001.showImpliedVol st) (Part001.customVolatilities st)).
  { unfold Part001.applyStressTest. now rewrite Hk. }
  fold s1 in Hs1.
  assert (Hnew : RealPriceParams.useSimulation (Part001.realPriceParams s1)
                 = Js.not_opt (StressTestScenario.realBasis K))
    by (rewrite Hs1; reflexivity).
  split.
  - destruct (Js.not_opt (StressTestScenario.realBasis K)) eqn:Hn.
    + right. unfold Part001.initRealPricesEffect. now rewrite Hnew.
    + left. destruct Hflag as [Hoff | Hon]; [now rewrite Hnew, Hoff | discriminate].
  - unfold Part001.applyStressTest at 1.
    replace (Part001.stressTestScenarios s1 !! key) with (Some K)
      by (rewrite Hs1; symmetry; exact Hk).
    rewrite (stressedCurves_again st s1 K) by (rewrite Hs1; reflexivity).
    unfold Part001.calculateResults, Part001.withResults.
    f_equal; rewrite Hs1; reflexivity.
Qed.

Lemma stress_test_twice_witness :
  Part001.applyStressTest noDraws "contangoReal"
    (Part001.applyStressTest noDraws "contangoReal" sampleState)
  = Part001.calculateResults noDraws
      (Part001.applyStressTest noDraws "contangoReal" sampleState).
Proof.
  exact (proj2 (stress_test_twice noDraws noDraws "contangoReal" sampleState _
                  initialScenarios_contangoReal (or_introl eq_refl))).
Defined.

(** ** The month keys of the periods *)

Lemma norm_day_stop k y m d :
  (1 <= d <= JsDate.daysInMonth y m)%Z -> JsDate.norm_day k y m d = JsDate.mk y m d.
Proof.
  intros Hd. destruct k as [| k]; [reflexivity |].
  cbn [JsDate.norm_day].
  destruct (Z.ltb_spec d 1); [lia |].
  destruct (Z.ltb_spec (JsDate.daysInMonth y m) d); [lia | reflexivity].
Qed.

Lemma norm_day_over k y m d :
  (JsDate.daysInMonth y m < d)%Z -> m <> 11%Z ->
  JsDate.norm_day (S k) y m d
  = JsDate.norm_day k y (m + 1) (d - JsDate.daysInMonth y m).
Proof.
  intros Hd Hm. cbn [JsDate.norm_day].
  pose proof (daysInMonth_bounds y m).
  destruct (Z.ltb_spec d 1); [lia |].
  destruct (Z.ltb_spec (JsDate.daysInMonth y m) d); [| lia].
  unfold JsDate.next_month. destruct (Z.eqb_spec m 11); [contradiction | reflexivity].
Qed.

Lemma make_feb31 y :
  JsDate.getFullYear (JsDate.make y 1 31) = y /\
  JsDate.getMonth (JsDate.make y 1 31) = 2%Z.
Proof.
  unfold JsDate.make.
  replace (y + 1 / 12)%Z with y by (change (1 / 12)%Z with 0%Z; lia).
  change (1 mod 12)%Z with 1%Z.
  assert (Hdim : (28 <= JsDate.daysInMonth y 1 <= 29)%Z)
    by (unfold JsDate.daysInMonth; destruct (JsDate.isLeap y); lia).
  rewrite norm_day_over by lia.
  rewrite norm_day_stop; [split; reflexivity |].
  change (1 + 1)%Z with 2%Z. change (JsDate.daysInMonth y 2) with 31%Z. lia.
Qed.

Lemma make_mar31 y : JsDate.make y 2 31 = JsDate.mk y 2 31.
Proof.
  unfold JsDate.make.
  replace (y + 2 / 12)%Z with y by (change (2 / 12)%Z with 0%Z; lia).
  change (2 mod 12)%Z with 2%Z.
  apply norm_day_stop. change (JsDate.daysInMonth y 2) with 31%Z. lia.
Qed.

(** X24.  The month keys of the periods of [unnamed/part_001].  For a start
    date that is a calendar day up to the 28th, period k lies k months after
    the start month and the keys of different periods differ.  For a start
    on 31 January, setMonth overflows: periods 1 and 2 both fall in March,
    no period falls in February, and the two periods read the same forward
    price. *)
Theorem period_month_keys rnd st :
  let prm := Part001.params st in
  let start := Params.startDate prm in
  (JsDate.valid start -> (JsDate.getDate start <= 28)%Z ->
   forall i j,
     Part001.periodDate prm i
     = JsDate.mk (JsDate.getFullYear start + (JsDate.getMonth start + Z.of_nat i) / 12)
         ((JsDate.getMonth start + Z.of_nat i) mod 12) (JsDate.getDate start) /\
     (JsDate.monthKey (Part001.periodDate prm i)
      = JsDate.monthKey (Part001.periodDate prm j) -> i = j)) /\
  (forall y, start = JsDate.mk y 0 31 ->
     JsDate.monthKey (Part001.periodDate prm 1) = pretty y +:+ "-3" /\
     JsDate.monthKey (Part001.periodDate prm 2) = pretty y +:+ "-3" /\
     Result.forward (Part001.resultRow rnd st 1)
     = Result.forward (Part001.resultRow rnd st 2)).
Proof.
  intros prm start. split.
  - intros Hv H28 i j. split.
    + now apply periodDate_no_overflow.
    + now apply periodDate_key_inj.
  - intros y Hstart.
    assert (H1 : JsDate.monthKey (Part001.periodDate prm 1) = pretty y +:+ "-3").
    { unfold Part001.periodDate, JsDate.setMonth. fold start. rewrite Hstart.
      cbn [JsDate.getFullYear JsDate.getMonth JsDate.getDate].
      change (0 + Z.of_nat 1)%Z with 1%Z.
      unfold JsDate.monthKey. destruct (make_feb31 y) as [-> ->]. reflexivity. }
    assert (H2 : JsDate.monthKey (Part001.periodDate prm 2) = pretty y +:+ "-3").
    { unfold Part001.periodDate, JsDate.setMonth. fold start. rewrite Hstart.
      cbn [JsDate.getFullYear JsDate.getMonth JsDate.getDate].
      change (0 + Z.of_nat 2)%Z with 2%Z.
      rewrite make_mar31. reflexivity. }
    split; [exact H1 |]. split; [exact H2 |].
    rewrite !Part001_forward_resultRow. fold prm. now rewrite H1, H2.
Qed.

Lemma period_month_keys_witness :
  Part001.periodDate (Part001.params sampleState) 13 = JsDate.mk 2025 1 15 /\
  JsDate.monthKey (Part001.periodDate (Part001.params monthEndState) 1)
  = JsDate.monthKey (Part001.periodDate (Part001.params monthEndState) 2).
Proof.
  split.
  - apply (proj1 (period_month_keys noDraws sampleState)
             ltac:(vm_compute; intuition discriminate)
             ltac:(vm_compute; discriminate) 13%nat 0%nat).
  - destruct (proj2 (period_month_keys noDraws monthEndState) 2023%Z eq_refl)
      as (H1 & H2 & _).
    exact (eq_trans H1 (eq_sym H2)).
Defined.
